(** * BPMN <-> test coverage report: a shallow embedding

    The development follows the report generator of the repository
    (the script with [collectBpmnElements], [scanTestsForBpmnTags],
    [buildReport] and [main], and the task-only variant under
    [scripts/generate-bpmn-test-report.mjs]).

    - [JsString]  : the JavaScript string primitives the scripts call.
    - [Js]        : the values of the parsed document.
    - [Scanner]   : the marker regular expression and the scan loop.
    - [JsMap]     : an insertion-ordered [Map] with string keys.
    - [Report]    : [buildReport] (rows and orphans).
    - [Bpmn]      : [collectBpmnElements] and the extension metadata.
    - [TasksOnly] : the extractor and the rows of the task-only script.
    - [Cli]       : the two [main] functions over a file-system state.
    - [Spec]      : what the specification says, to compare the code with.
    - [Csv]       : the delimited-text output of the two scripts.
    - [Helpers]   : the helper of the tests.
    - [CsvV1], [CliV1] : the first version of the report script.
    - [Samples]   : sample documents and runs.

    The properties follow the definitions. *)

From Stdlib Require Import List String Ascii ZArith Lia Bool Arith PeanoNat.
From Stdlib Require DecimalString.
From Stdlib Require Import Permutation Sorted.
From ExtLib Require Import Structures.Monad.
Import ListNotations.

Open Scope string_scope.
Open Scope list_scope.

(* ===================================================================== *)
(** ** JavaScript string primitives *)
(* ===================================================================== *)

(** A text is a [string] holding the bytes of its UTF-8 encoding (the texts
    of the scripts come from files read as UTF-8 and from literals), and an
    index counts bytes.  The characters the scripts look for (line feed,
    brackets, quotes, colon, comma, pipe, slash) are single bytes, and no
    byte of a longer character equals one of them, so searching, splitting
    and joining go by bytes as they go by characters. *)
Module JsString.

Definition LF : ascii := "010"%char.
Definition DQ : ascii := "034"%char.

(** Number of occurrences of the character [c] in [s]. *)
Fixpoint countChar (c : ascii) (s : string) : nat :=
  match s with
  | EmptyString => 0
  | String a s' => (if Ascii.eqb a c then 1 else 0) + countChar c s'
  end.

(** The first [n] characters of [s] (all of [s] when it is shorter). *)
Fixpoint take (n : nat) (s : string) : string :=
  match n, s with
  | S k, String a s' => String a (take k s')
  | _, _ => EmptyString
  end.

(** [s] without its first [n] characters. *)
Fixpoint drop (n : nat) (s : string) : string :=
  match n, s with
  | S k, String _ s' => drop k s'
  | _, _ => s
  end.

(** [s.lastIndexOf(c, fromIndex)] for a one-character search string: the
    greatest index [i <= fromIndex] with [s[i] = c], and [-1] when there is
    none.  [pos] is the index of the head of [s] in the whole text and
    [found] the best index seen so far. *)
Fixpoint lastIndexOfFrom (c : ascii) (s : string) (pos fromIndex : nat)
    (found : Z) : Z :=
  match s with
  | EmptyString => found
  | String a s' =>
      if (fromIndex <? pos)%nat then found
      else lastIndexOfFrom c s' (S pos) fromIndex
             (if Ascii.eqb a c then Z.of_nat pos else found)
  end.

Definition lastIndexOf (c : ascii) (s : string) (fromIndex : nat) : Z :=
  lastIndexOfFrom c s 0 fromIndex (-1).

(** [s.substring(a, b)]: both indices are clamped to [0 .. s.length] and
    swapped when [a > b]. *)
Definition clampIndex (s : string) (i : Z) : nat :=
  Z.to_nat (Z.min (Z.max i 0) (Z.of_nat (String.length s))).

Definition substring (s : string) (a b : Z) : string :=
  let a' := clampIndex s a in
  let b' := clampIndex s b in
  take (Nat.max a' b' - Nat.min a' b') (drop (Nat.min a' b') s).

(** [s.match(/c/g)] for a one-character pattern: the list of matches, and
    [null] (here [None]) when nothing matches. *)
Fixpoint matchesOfChar (c : ascii) (s : string) : list string :=
  match s with
  | EmptyString => []
  | String a s' =>
      if Ascii.eqb a c then String a EmptyString :: matchesOfChar c s'
      else matchesOfChar c s'
  end.

Definition matchGlobalChar (c : ascii) (s : string) : option (list string) :=
  match matchesOfChar c s with
  | [] => None
  | ms => Some ms
  end.

(** [p] in front of [s]: what follows [p], or [None] when [s] does not start
    with [p]. *)
Fixpoint stripPrefix (p s : string) : option string :=
  match p, s with
  | EmptyString, _ => Some s
  | String a p', String b s' => if Ascii.eqb a b then stripPrefix p' s' else None
  | String _ _, EmptyString => None
  end.

Definition startsWith (s p : string) : bool :=
  match stripPrefix p s with Some _ => true | None => false end.

(** [t.includes(m)] *)
Fixpoint includes (t m : string) : bool :=
  match t with
  | EmptyString => startsWith EmptyString m
  | String _ t' => startsWith t m || includes t' m
  end.

(** The longest prefix of [s] without the character [c], and the rest. *)
Fixpoint spanNot (c : ascii) (s : string) : string * string :=
  match s with
  | EmptyString => (EmptyString, EmptyString)
  | String a s' =>
      if Ascii.eqb a c then (EmptyString, s)
      else let (run, rest) := spanNot c s' in (String a run, rest)
  end.

(** [c] does not occur in [s]. *)
Definition lacks (c : ascii) (s : string) : Prop := countChar c s = 0.

(** JavaScript truthiness of a string. *)
Definition nonEmpty (s : string) : bool :=
  match s with EmptyString => false | String _ _ => true end.

(** [a.join(sep)] *)
Fixpoint join (sep : string) (l : list string) : string :=
  match l with
  | [] => EmptyString
  | [x] => x
  | x :: l' => (x ++ sep ++ join sep l')%string
  end.

End JsString.

(* ===================================================================== *)
(** ** JavaScript values *)
(* ===================================================================== *)

Module Js.
Import JsString.

(** The values the XML parser hands over: strings (text and attribute
    values), numbers and booleans (parsed text), arrays (repeated tags) and
    objects (elements; the entries are in property order).  A number is
    held as the text [String] gives for it (["0"] for both zeros, ["NaN"],
    ["1e+21"], ["0.5"], ...): its truthiness, its text and its identity as
    a key of a [Map] are all the scripts ask of a number, and the text
    settles the three. *)
#[local] Unset Elimination Schemes.
Inductive JsValue : Type :=
  | JUndefined
  | JNull
  | JBool (b : bool)
  | JNum (text : string)
  | JStr (s : string)
  | JArr (items : list JsValue)
  | JObj (entries : list (string * JsValue)).
#[local] Set Elimination Schemes.

(** [Boolean(v)] *)
Definition truthy (v : JsValue) : bool :=
  match v with
  | JUndefined | JNull => false
  | JBool b => b
  | JNum text => negb (String.eqb text "0" || String.eqb text "NaN")
  | JStr s => nonEmpty s
  | JArr _ | JObj _ => true
  end.

(** [a || b] *)
Definition or_else (a b : JsValue) : JsValue := if truthy a then a else b.

(** [typeof v === 'object'] ([null] included, as in JavaScript). *)
Definition typeofObject (v : JsValue) : bool :=
  match v with
  | JNull | JArr _ | JObj _ => true
  | _ => false
  end.

Fixpoint lookup (k : string) (es : list (string * JsValue)) : JsValue :=
  match es with
  | [] => JUndefined
  | (k', v) :: es' => if String.eqb k' k then v else lookup k es'
  end.

(** The decimal property names of array elements and string characters. *)
Definition indexKey (i : nat) : string :=
  DecimalString.NilEmpty.string_of_uint (Nat.to_uint i).

Fixpoint indexed {A : Type} (i : nat) (l : list A) : list (string * A) :=
  match l with
  | [] => []
  | x :: l' => (indexKey i, x) :: indexed (S i) l'
  end.

(** The characters of a string as [Object.entries] shows them: one entry
    for every UTF-16 code unit.  A character of one, two or three bytes is
    one unit.  A character of four bytes (outside the basic plane) is two
    units, its surrogates; each is held in the three bytes UTF-8 would give
    its code.  A byte that starts no character stands for itself. *)
Definition surrogates (a b c d : ascii) : list string :=
  let cp := ((N_of_ascii a mod 8) * 262144 + (N_of_ascii b mod 64) * 4096
             + (N_of_ascii c mod 64) * 64 + N_of_ascii d mod 64)%N in
  let v := (cp - 65536)%N in
  let enc (x : N) : string :=
    String (ascii_of_N (224 + x / 4096))
      (String (ascii_of_N (128 + (x / 64) mod 64))
         (String (ascii_of_N (128 + x mod 64)) EmptyString)) in
  [enc (55296 + v / 1024)%N; enc (56320 + v mod 1024)%N].

Definition isCont (a : ascii) : bool :=
  ((128 <=? nat_of_ascii a) && (nat_of_ascii a <=? 191))%nat.

Fixpoint codeUnits (s : string) : list string :=
  match s with
  | EmptyString => []
  | String a s1 =>
      let n := nat_of_ascii a in
      let one := String a EmptyString :: codeUnits s1 in
      if (n <? 192)%nat then one
      else
        match s1 with
        | String b s2 =>
            if negb (isCont b) then one
            else if (n <? 224)%nat
            then String a (String b EmptyString) :: codeUnits s2
            else
              match s2 with
              | String c s3 =>
                  if negb (isCont c) then one
                  else if (n <? 240)%nat
                  then String a (String b (String c EmptyString))
                       :: codeUnits s3
                  else
                    match s3 with
                    | String d s4 =>
                        if isCont d && (n <? 248)%nat
                        then surrogates a b c d ++ codeUnits s4
                        else one
                    | EmptyString => one
                    end
              | EmptyString => one
              end
        | EmptyString => one
        end
  end.

Definition chars (s : string) : list JsValue := List.map JStr (codeUnits s).

(** [Object.entries(v)] *)
Definition entriesOf (v : JsValue) : list (string * JsValue) :=
  match v with
  | JObj es => es
  | JArr l => indexed 0 l
  | JStr s => indexed 0 (chars s)
  | _ => []
  end.

(** [Object.keys(v)] *)
Definition keysOf (v : JsValue) : list string := List.map fst (entriesOf v).

(** [Object.values(v)] *)
Definition valuesOf (v : JsValue) : list JsValue := List.map snd (entriesOf v).

(** [node[k]] for the own properties the scripts ask for (tag names,
    attribute names and indices). *)
Definition getProp (node : JsValue) (k : string) : JsValue :=
  lookup k (entriesOf node).

(** [Array.isArray(v) ? v : [v]] *)
Definition asArray (v : JsValue) : list JsValue :=
  match v with
  | JArr l => l
  | _ => [v]
  end.

Definition isString (v : JsValue) : bool :=
  match v with JStr _ => true | _ => false end.

(** Equality of map keys.  The keys of the scripts are strings (and [true]
    for an attribute without a value); arrays and objects are compared by
    their content. *)
Fixpoint sameValue (a b : JsValue) {struct a} : bool :=
  match a, b with
  | JUndefined, JUndefined => true
  | JNull, JNull => true
  | JBool x, JBool y => Bool.eqb x y
  | JNum x, JNum y => String.eqb x y
  | JStr x, JStr y => String.eqb x y
  | JArr xs, JArr ys =>
      (fix all2 (l : list JsValue) (r : list JsValue) {struct l} : bool :=
         match l, r with
         | [], [] => true
         | x :: l', y :: r' => sameValue x y && all2 l' r'
         | _, _ => false
         end) xs ys
  | JObj xs, JObj ys =>
      (fix all2 (l : list (string * JsValue)) (r : list (string * JsValue))
           {struct l} : bool :=
         match l, r with
         | [], [] => true
         | (k, x) :: l', (k', y) :: r' =>
             String.eqb k k' && sameValue x y && all2 l' r'
         | _, _ => false
         end) xs ys
  | _, _ => false
  end.

(** [`${v}`] *)
Fixpoint toText (v : JsValue) : string :=
  match v with
  | JUndefined => "undefined"
  | JNull => "null"
  | JBool true => "true"
  | JBool false => "false"
  | JNum text => text
  | JStr s => s
  | JArr items =>
      join ","
        (List.map (fun x => match x with
                            | JUndefined | JNull => EmptyString
                            | _ => toText x
                            end) items)
  | JObj _ => "[object Object]"
  end.

End Js.

(* ===================================================================== *)
(** ** The reference scanner *)
(* ===================================================================== *)

Module Scanner.
Import JsString.

(** What [re.exec] returns: [index], the whole match [mt[0]] and the
    capture [mt[1]]. *)
Record RegExpMatch : Type := mkMatch {
  m_index : nat;
  m_all : string;
  m_id : string
}.

(** A hit as it is stored in [hitsById]: [{ file, line, title }]. *)
Record TestHit : Type := mkHit {
  file : string;
  line : nat;
  title : string
}.

Definition markerOpen : string := "[bpmn:".
Definition markerClose : ascii := "]"%char.

(** The text of the marker for [id]. *)
Definition marker (id : string) : string :=
  (markerOpen ++ id ++ String markerClose EmptyString)%string.

(** [/\[bpmn:([^\]]+)\]/] tried at the head of [s].  After the literal
    [[bpmn:] the greedy class takes every character up to the next []]; it
    must take at least one, and giving characters back cannot help because
    none of them is a []].  So the attempt succeeds exactly when a non-empty
    run of non-[]] characters is followed by []]. *)
Definition matchMarkerAt (s : string) : option string :=
  match stripPrefix markerOpen s with
  | None => None
  | Some r =>
      match spanNot markerClose r with
      | (EmptyString, _) => None
      | (id, String c _) => if Ascii.eqb c markerClose then Some id else None
      | (_, EmptyString) => None
      end
  end.

(** The regular expression engine moving right from the head of [s], which
    sits at index [pos] of the text: the first index where the pattern
    matches. *)
Fixpoint execFrom (s : string) (pos : nat) : option RegExpMatch :=
  match s with
  | EmptyString => None
  | String _ s' =>
      match matchMarkerAt s with
      | Some id => Some (mkMatch pos (marker id) id)
      | None => execFrom s' (S pos)
      end
  end.

(** [re.exec(text)] with the global flag: the search starts at [lastIndex]. *)
Definition exec (text : string) (lastIndex : nat) : option RegExpMatch :=
  execFrom (drop lastIndex text) lastIndex.

(** [lastIndex] after a successful [exec]. *)
Definition nextIndex (m : RegExpMatch) : nat :=
  m_index m + String.length (m_all m).

(** [while ((mt = re.exec(text)) !== null) { ... }]: the matches in the
    order the loop sees them.  Every round moves [lastIndex] to the right,
    so [fuel] rounds are enough when [fuel] exceeds what is left of the
    text (see [execLoop_fuel]). *)
Fixpoint execLoop (fuel : nat) (text : string) (lastIndex : nat)
    : list RegExpMatch :=
  match fuel with
  | 0 => []
  | S fuel' =>
      match exec text lastIndex with
      | None => []
      | Some mt => mt :: execLoop fuel' text (nextIndex mt)
      end
  end.

Definition allMatches (text : string) : list RegExpMatch :=
  execLoop (S (String.length text)) text 0.

(** [const before = text.lastIndexOf('\n', mt.index);
     const line = before === -1 ? 1
       : (text.substring(0, before).match(/\n/g)?.length || 0) + 1;] *)
Definition lineOf (text : string) (index : nat) : nat :=
  let before := lastIndexOf LF text index in
  if (before =? -1)%Z then 1
  else
    (match matchGlobalChar LF (substring text 0 before) with
     | Some ms => List.length ms
     | None => 0
     end) + 1.

(** [titles.find(t => t.includes(mt[0])) || ''] *)
Definition findTitle (titles : list string) (m : string) : string :=
  match List.find (fun t => includes t m) titles with
  | Some t => t
  | None => EmptyString
  end.

(** One round of the marker loop: the identifier and the hit pushed for
    it. *)
Definition hitOf (file : string) (titles : list string) (text : string)
    (mt : RegExpMatch) : string * TestHit :=
  let snippet := findTitle titles (m_all mt) in
  (m_id mt, mkHit file (lineOf text (m_index mt)) snippet).

(** The hits of one file, in the order they are pushed. *)
Definition scanText (file : string) (titles : list string) (text : string)
    : list (string * TestHit) :=
  List.map (hitOf file titles text) (allMatches text).

End Scanner.

(* ===================================================================== *)
(** ** An insertion-ordered map with string keys *)
(* ===================================================================== *)

Module JsMap.

(** A JavaScript [Map] whose keys are strings: the entries in the order
    their keys were first set. *)
Definition t (V : Type) : Type := list (string * V).

Section Ops.
Context {V : Type}.

Definition empty : t V := [].

(** [m.get(k)], with [None] for [undefined]. *)
Fixpoint get (k : string) (m : t V) : option V :=
  match m with
  | [] => None
  | (k', v) :: m' => if String.eqb k' k then Some v else get k m'
  end.

(** [m.set(k, v)]: an existing key keeps its place. *)
Fixpoint set (k : string) (v : V) (m : t V) : t V :=
  match m with
  | [] => [(k, v)]
  | (k', v') :: m' =>
      if String.eqb k' k then (k', v) :: m' else (k', v') :: set k v m'
  end.

(** [[...m.keys()]] *)
Definition keys (m : t V) : list string := List.map fst m.

End Ops.

End JsMap.

(* ===================================================================== *)
(** ** The reconciler *)
(* ===================================================================== *)

Module Report.
Import JsString Js Scanner.

(** [el.meta] *)
Record Meta : Type := mkMeta {
  playwrightRefs : list string;
  jiraKeys : list string;
  tags : list string;
  priority : string;
  figmaUrl : string;
  figmaNodeId : string;
  figmaComponentKey : string;
  variant : string
}.

(** The element pushed by [collectBpmnElements]: [{ id, type, name, meta }].
    [id] and [name] are whatever the object holds under [@id] and
    [@name]. *)
Record BpmnEl : Type := mkEl {
  el_id : JsValue;
  el_type : string;
  el_name : JsValue;
  el_meta : Meta
}.

(** A row of the report. *)
Record Row : Type := mkRow {
  r_id : JsValue;
  r_name : JsValue;
  r_type : string;
  r_priority : string;
  r_tags : string;
  r_jira : string;
  r_playwrightRefs : string;
  r_figma : string;
  r_tests : string;
  r_coverage : string
}.

(** An orphan: [{ id, ...h }]. *)
Record Orphan : Type := mkOrphan {
  o_id : string;
  o_file : string;
  o_line : nat;
  o_title : string
}.

Record ReportData : Type := mkReport {
  rows : list Row;
  orphans : list Orphan
}.

Definition HitsById : Type := JsMap.t (list TestHit).

(** The grouping step of the scan loop:
    [const arr = hitsById.get(id) || []; arr.push(hit); hitsById.set(id, arr)]. *)
Definition pushHit (hitsById : HitsById) (idh : string * TestHit) : HitsById :=
  let arr := match JsMap.get (fst idh) hitsById with
             | Some a => a
             | None => []
             end in
  JsMap.set (fst idh) (arr ++ [snd idh]) hitsById.

(** [hitsById] after the hits were pushed in the order given. *)
Definition groupHits (hits : list (string * TestHit)) : HitsById :=
  List.fold_left pushHit hits JsMap.empty.

(** [new Set(bpmnEls.map(e => e.id))] *)
Definition allIds (bpmnEls : list BpmnEl) : list JsValue :=
  List.map el_id bpmnEls.

(** [allIds.has(id)] for a string [id]: only the same string is the same
    value. *)
Definition setHas (s : list JsValue) (id : string) : bool :=
  List.existsb (fun v => match v with
                         | JStr s' => String.eqb s' id
                         | _ => false
                         end) s.

(** [hitsById.get(el.id) || []]: the keys of [hitsById] are strings, so
    only a string [id] finds anything. *)
Definition testsFor (hitsById : HitsById) (id : JsValue) : list TestHit :=
  match id with
  | JStr s => match JsMap.get s hitsById with
              | Some a => a
              | None => []
              end
  | _ => []
  end.

(** [s.replace(/^bpmn:/, '')] *)
Definition stripBpmn (s : string) : string :=
  match stripPrefix "bpmn:" s with
  | Some r => r
  | None => s
  end.

(** [`${t.file}${t.title ? `#${t.title}` : ''}`] *)
Definition renderTest (t : TestHit) : string :=
  (file t ++ (if nonEmpty (title t) then "#" ++ title t else ""))%string.

Definition Covered : string := "Covered".
Definition Missing : string := "Missing".

(** The body of [bpmnEls.map(el => ...)]. *)
Definition buildRow (hitsById : HitsById) (el : BpmnEl) : Row :=
  let tests := testsFor hitsById (el_id el) in
  let coverage := if (0 <? List.length tests)%nat then Covered else Missing in
  let meta := el_meta el in
  mkRow
    (el_id el)
    (or_else (el_name el) (JStr ""))
    (stripBpmn (el_type el))
    (priority meta)
    (join ", " (tags meta))
    (join ", " (jiraKeys meta))
    (join " | " (playwrightRefs meta))
    (if nonEmpty (figmaUrl meta) then figmaUrl meta
     else if nonEmpty (figmaNodeId meta) then ("node:" ++ figmaNodeId meta)%string
     else "")
    (join " | " (List.map renderTest tests))
    coverage.

Definition orphanOf (id : string) (h : TestHit) : Orphan :=
  mkOrphan id (file h) (line h) (title h).

(** [orphanIds.flatMap(id => hitsById.get(id).map(h => ({ id, ...h })))] *)
Definition orphansOf (hitsById : HitsById) (orphanIds : list string)
    : list Orphan :=
  List.flat_map
    (fun id => match JsMap.get id hitsById with
               | Some hs => List.map (orphanOf id) hs
               | None => []
               end)
    orphanIds.

(** The hits for [id] among [hits], in their order. *)
Definition hitsFor (id : string) (hits : list (string * TestHit))
    : list TestHit :=
  List.map snd (List.filter (fun p => String.eqb (fst p) id) hits).

Definition buildReport (bpmnEls : list BpmnEl) (hitsById : HitsById)
    : ReportData :=
  let ids := allIds bpmnEls in
  let rows := List.map (buildRow hitsById) bpmnEls in
  let orphanIds :=
    List.filter (fun id => negb (setHas ids id)) (JsMap.keys hitsById) in
  mkReport rows (orphansOf hitsById orphanIds).

End Report.

(* ===================================================================== *)
(** ** The node extractor *)
(* ===================================================================== *)

Module Bpmn.
Import JsString Js Report.

(** The white space [trim] removes: the characters of WhiteSpace and of
    LineTerminator of the language, told by the bytes of their UTF-8 form.
    - one byte: tab, line feed, vertical tab, form feed, carriage return
      (9 to 13) and space (32);
    - two bytes: U+00A0, the no-break space (194 160);
    - three bytes: U+1680 (225 154 128), U+2000 to U+200A
      (226 128 128 to 226 128 138), U+2028 and U+2029 (226 128 168, 169),
      U+202F (226 128 175), U+205F (226 129 159), U+3000 (227 128 128) and
      U+FEFF (239 187 191). *)
Definition isSpace (a : ascii) : bool :=
  let n := nat_of_ascii a in
  ((9 <=? n)%nat && (n <=? 13)%nat) || (n =? 32)%nat.

Definition isSpace2 (a b : ascii) : bool :=
  ((nat_of_ascii a =? 194) && (nat_of_ascii b =? 160))%nat.

Definition isSpace3 (a b c : ascii) : bool :=
  let x := nat_of_ascii a in
  let y := nat_of_ascii b in
  let z := nat_of_ascii c in
  (((x =? 225) && (y =? 154) && (z =? 128))
   || ((x =? 226) && (y =? 128)
       && (((128 <=? z) && (z <=? 138)) || (z =? 168) || (z =? 169)
           || (z =? 175)))
   || ((x =? 226) && (y =? 129) && (z =? 159))
   || ((x =? 227) && (y =? 128) && (z =? 128))
   || ((x =? 239) && (y =? 187) && (z =? 191)))%nat.

(** What follows the white-space character at the head of [s]; [None] when
    [s] starts with none. *)
Definition stripSpace (s : string) : option string :=
  match s with
  | String a s1 =>
      if isSpace a then Some s1
      else
        match s1 with
        | String b s2 =>
            if isSpace2 a b then Some s2
            else
              match s2 with
              | String c s3 => if isSpace3 a b c then Some s3 else None
              | EmptyString => None
              end
        | EmptyString => None
        end
  | EmptyString => None
  end.

(** [s.trimStart()]: the white-space characters at the head are passed
    over, one after the other. *)
Fixpoint trimStart (s : string) : string :=
  match s with
  | EmptyString => EmptyString
  | String a s1 =>
      if isSpace a then trimStart s1
      else
        match s1 with
        | String b s2 =>
            if isSpace2 a b then trimStart s2
            else
              match s2 with
              | String c s3 => if isSpace3 a b c then trimStart s3 else s
              | EmptyString => s
              end
        | EmptyString => s
        end
  end.

(** The text is white space from end to end. *)
Definition isBlank (s : string) : bool := negb (nonEmpty (trimStart s)).

(** [s.trimEnd()]: the text up to where only white space follows. *)
Fixpoint trimEnd (s : string) : string :=
  match s with
  | EmptyString => EmptyString
  | String a s' => if isBlank s then EmptyString else String a (trimEnd s')
  end.

(** [s.trim()] *)
Definition trim (s : string) : string := trimEnd (trimStart s).

(** [s.split(sep)] for a separator that matches single characters: the
    pieces between the separators, empty pieces included. *)
Fixpoint splitOn (isSep : ascii -> bool) (s : string) : list string :=
  match s with
  | EmptyString => [EmptyString]
  | String a s' =>
      if isSep a then EmptyString :: splitOn isSep s'
      else match splitOn isSep s' with
           | seg :: rest => String a seg :: rest
           | [] => [String a EmptyString]
           end
  end.

(** The class [[,|]]. *)
Definition isCommaOrPipe (a : ascii) : bool :=
  Ascii.eqb a ","%char || Ascii.eqb a "|"%char.

Definition isColon (a : ascii) : bool := Ascii.eqb a ":"%char.

(** [kk.split(':').pop()] *)
Definition localKey (kk : string) : string :=
  List.last (splitOn isColon kk) EmptyString.

(** [s.split(/[,|]/).map(s => s.trim()).filter(Boolean)] *)
Definition segments (s : string) : list string :=
  List.filter nonEmpty (List.map trim (splitOn isCommaOrPipe s)).

Definition emptyMeta : Meta := mkMeta [] [] [] "" "" "" "" "".

(** The helper [str]: a string is trimmed; of an object the first value
    of type string is taken; anything else gives the empty string. *)
Definition str (s : JsValue) : string :=
  match s with
  | JStr t => trim t
  | JArr _ | JObj _ =>
      match List.find isString (valuesOf s) with
      | Some (JStr val) => trim val
      | _ => trim ""
      end
  | _ => ""
  end.

(** The [switch (key)] of the innermost loop. *)
Definition applyKey (key : string) (x : JsValue) (m : Meta) : Meta :=
  let '(mkMeta refs jira tgs prio url nodeId compKey var) := m in
  if String.eqb key "playwrightRef" then
    mkMeta (refs ++ [str x]) jira tgs prio url nodeId compKey var
  else if String.eqb key "jiraKeys" then
    mkMeta refs (jira ++ segments (str x)) tgs prio url nodeId compKey var
  else if String.eqb key "tags" then
    mkMeta refs jira (tgs ++ segments (str x)) prio url nodeId compKey var
  else if String.eqb key "priority" then
    mkMeta refs jira tgs (str x) url nodeId compKey var
  else if String.eqb key "figmaUrl" then
    mkMeta refs jira tgs prio (str x) nodeId compKey var
  else if String.eqb key "figmaNodeId" then
    mkMeta refs jira tgs prio url (str x) compKey var
  else if String.eqb key "figmaComponentKey" then
    mkMeta refs jira tgs prio url nodeId (str x) var
  else if String.eqb key "variant" then
    mkMeta refs jira tgs prio url nodeId compKey (str x)
  else m.

(** [Object.entries(ch).forEach(([kk, vv]) => ...)]: one entry. *)
Definition applyEntry (m : Meta) (e : string * JsValue) : Meta :=
  List.fold_left (fun m' x => applyKey (localKey (fst e)) x m')
    (List.filter truthy (asArray (snd e))) m.

(** [arr.filter(Boolean).forEach(ch => ...)]: one child. *)
Definition applyChild (m : Meta) (ch : JsValue) : Meta :=
  if typeofObject ch then List.fold_left applyEntry (entriesOf ch) m else m.

(** [Object.entries(ext).forEach(([k, v]) => ...)]: one entry of [ext]. *)
Definition applyExt (m : Meta) (e : string * JsValue) : Meta :=
  List.fold_left applyChild (List.filter truthy (asArray (snd e))) m.

(** [node['bpmn:extensionElements'] || node['extensionElements']] *)
Definition extOf (node : JsValue) : JsValue :=
  or_else (getProp node "bpmn:extensionElements")
          (getProp node "extensionElements").

(** The metadata read for a node: [if (ext) { ... }] over the fresh
    [meta]. *)
Definition metaOf (node : JsValue) : Meta :=
  let ext := extOf node in
  if truthy ext then List.fold_left applyExt (entriesOf ext) emptyMeta
  else emptyMeta.

(** The element built when [node['@id']] is truthy. *)
Definition elementOf (node : JsValue) (name : string) : BpmnEl :=
  mkEl (getProp node "@id") name
       (or_else (getProp node "@name") (JStr ""))
       (metaOf node).

(** [visit(node, name)]: what it pushes to [out], in order. *)
Fixpoint visit (node : JsValue) (name : string) {struct node} : list BpmnEl :=
  match node with
  | JArr items => List.flat_map (fun n => visit n name) items
  | JObj entries =>
      (if truthy (getProp node "@id") then [elementOf node name] else [])
      ++ List.flat_map
           (fun e => if startsWith (fst e) "@" then [] else visit (snd e) (fst e))
           entries
  | _ => []
  end.

Definition collectBpmnElements (obj : JsValue) (tagName : string) : list BpmnEl :=
  visit obj tagName.

End Bpmn.

(* ===================================================================== *)
(** ** The task-only script: extractor and rows *)
(* ===================================================================== *)

Module TasksOnly.
Import JsString Js Scanner Bpmn.

(** What [extractTasks] pushes: [{ id, name, tag }]. *)
Record Task : Type := mkTask {
  t_id : JsValue;
  t_name : JsValue;
  t_tag : string
}.

Record TaskRow : Type := mkTaskRow {
  tr_id : JsValue;
  tr_name : JsValue;
  tr_type : string;
  tr_hasTests : bool;
  tr_testFiles : list string;
  tr_playwrightRefs : list string
}.

(** [s.toLowerCase().endsWith(suffix)] for a [suffix] of small letters a to
    z.  The lower case of a character is a small letter a to z only for
    that letter itself, for its capital A to Z and, in the case of [k], for
    the Kelvin sign U+212A (bytes 226 132 170); the one lower case of more
    than one character (that of U+0130) does not end in such a letter.  So
    the text is compared with the suffix from its end backwards, letter by
    letter, a capital standing for its small letter and the Kelvin sign for
    [k].  Both texts are given with their last byte first. *)
Definition isCapitalOf (small a : ascii) : bool :=
  let n := nat_of_ascii a in
  ((65 <=? n)%nat && (n <=? 90)%nat && (n + 32 =? nat_of_ascii small)%nat)%bool.

Definition isKelvin (a b c : ascii) : bool :=
  ((nat_of_ascii a =? 226) && (nat_of_ascii b =? 132)
   && (nat_of_ascii c =? 170))%nat.

Fixpoint lowerEndsWithRev (suffix s : list ascii) {struct suffix} : bool :=
  match suffix with
  | [] => true
  | small :: suffix' =>
      match s with
      | [] => false
      | c :: s1 =>
          if Ascii.eqb c small || isCapitalOf small c
          then lowerEndsWithRev suffix' s1
          else
            match s1 with
            | b :: a :: s3 =>
                Ascii.eqb small "k" && isKelvin a b c
                && lowerEndsWithRev suffix' s3
            | _ => false
            end
      end
  end.

Definition lowerEndsWith (s suffix : string) : bool :=
  lowerEndsWithRev (List.rev (list_ascii_of_string suffix))
    (List.rev (list_ascii_of_string s)).

(** The negation of [!node || typeof node !== 'object']. *)
Definition isNode (node : JsValue) : bool :=
  (truthy node && typeofObject node)%bool.

Definition isAttrKey (k : string) : bool := startsWith k ":@".

(** [getAttr(node, name)] *)
Definition getAttr (node : JsValue) (name : string) : JsValue :=
  if isNode node then
    match List.find isAttrKey (keysOf node) with
    | Some k =>
        let attrs := getProp node k in
        if truthy attrs then getProp attrs name else JUndefined
    | None => JUndefined
    end
  else JUndefined.

(** [nodeName(node)] *)
Definition nodeName (node : JsValue) : string :=
  if isNode node then
    match List.find (fun k => negb (isAttrKey k)) (keysOf node) with
    | Some k => k
    | None => EmptyString
    end
  else EmptyString.

(** [childNodes(node)] *)
Definition childNodes (node : JsValue) : list JsValue :=
  if isNode node then
    match getProp node (nodeName node) with
    | JArr children => children
    | _ => []
    end
  else [].

(** [id && local.endsWith('task')], [local] being
    [tag.split(':').pop().toLowerCase()]. *)
Definition isTaskNode (n : JsValue) : bool :=
  (truthy (getAttr n "id")
   && lowerEndsWith (localKey (nodeName n)) "task")%bool.

(** [{ id, name, tag }] *)
Definition taskOf (n : JsValue) : Task :=
  mkTask (getAttr n "id") (or_else (getAttr n "name") (JStr "")) (nodeName n).

(** One round of [for (const n of nodes)] in [walk], with the rounds of the
    calls below it: what is pushed to [tasks], in order.  The tag of an
    object is its first key that is not an attribute key, and the children
    are what the object holds under it; the descent goes to that entry
    ([walkNode_step] states the round with [nodeName] and [childNodes]). *)
Fixpoint walkNode (n : JsValue) {struct n} : list Task :=
  let here := if isTaskNode n then [taskOf n] else [] in
  match n with
  | JObj entries =>
      (fix first (es : list (string * JsValue)) : list Task :=
         match es with
         | [] => []
         | (k, v) :: es' =>
             if isAttrKey k then first es'
             else if nonEmpty k then
               here ++ match v with
                       | JArr kids => List.flat_map walkNode kids
                       | _ => []
                       end
             else []
         end) entries
  | JArr (JArr kids :: _) => here ++ List.flat_map walkNode kids
  | JArr (_ :: _) => here
  | _ => []
  end.

(** [walk(doc)] over what the parser returns: an array is gone through,
    a string has no tags, and anything else cannot be iterated ([None]
    stands for the [TypeError]). *)
Definition walk (doc : JsValue) : option (list Task) :=
  match doc with
  | JArr nodes => Some (List.flat_map walkNode nodes)
  | JStr _ => Some []
  | _ => None
  end.

(** The map [markers]: its keys are the ids of the tasks. *)
Definition Markers : Type := list (JsValue * list string).

Fixpoint markersGet (id : JsValue) (m : Markers) : option (list string) :=
  match m with
  | [] => None
  | (k, v) :: m' => if sameValue k id then Some v else markersGet id m'
  end.

Fixpoint markersSet (id : JsValue) (v : list string) (m : Markers) : Markers :=
  match m with
  | [] => [(id, v)]
  | (k, v') :: m' =>
      if sameValue k id then (k, v) :: m' else (k, v') :: markersSet id v m'
  end.

(** [refsById.get(id)]: the keys of [refsById] are strings. *)
Definition refsGet (refsById : JsMap.t (list string)) (id : JsValue)
    : option (list string) :=
  match id with
  | JStr s => JsMap.get s refsById
  | _ => None
  end.

(** [x || []] *)
Definition orEmpty (x : option (list string)) : list string :=
  match x with
  | Some l => l
  | None => []
  end.

(** The body of [tasks.map(t => ...)]. *)
Definition taskRow (markers : Markers) (refsById : JsMap.t (list string))
    (t : Task) : TaskRow :=
  let testFiles := orEmpty (markersGet (t_id t) markers) in
  let playwrightRefs := orEmpty (refsGet refsById (t_id t)) in
  mkTaskRow (t_id t) (or_else (t_name t) (JStr "")) (t_tag t)
    ((0 <? List.length testFiles)%nat || (0 <? List.length playwrightRefs)%nat)
    testFiles playwrightRefs.

(** [new Map(ids.map(id => [id, []]))] *)
Definition emptyMarkers (ids : list JsValue) : Markers :=
  List.fold_left (fun m id => markersSet id [] m) ids [].

(** [if (txt.includes(`[bpmn:${id}]`)) markers.get(id).push(rel)] *)
Definition markFile (rel txt : string) (markers : Markers) (id : JsValue)
    : Markers :=
  if includes txt (marker (toText id))
  then markersSet id (orEmpty (markersGet id markers) ++ [rel]) markers
  else markers.

(** *** The references read off the text of the document

    [extractPlaywrightRefsById] goes through the text with three regular
    expressions.  Their parts are tried as the engine tries them: a greedy
    part first takes all it can and then gives back one character at a
    time, a lazy part first takes nothing and then one character more at
    a time, and the search for a match starts at the leftmost place. *)

Definition LT : ascii := "<"%char.
Definition GT : ascii := ">"%char.

Definition inRange (lo hi : nat) (a : ascii) : bool :=
  ((lo <=? nat_of_ascii a) && (nat_of_ascii a <=? hi))%nat.

(** The class [[a-zA-Z0-9:]]. *)
Definition isTagChar (a : ascii) : bool :=
  inRange 97 122 a || inRange 65 90 a || inRange 48 57 a
  || Ascii.eqb a ":"%char.

(** The class [\w]. *)
Definition isWordChar (a : ascii) : bool :=
  inRange 97 122 a || inRange 65 90 a || inRange 48 57 a
  || Ascii.eqb a "_"%char.

Fixpoint lastOf (s : string) : option ascii :=
  match s with
  | EmptyString => None
  | String a EmptyString => Some a
  | String _ s' => lastOf s'
  end.

(** [\b] between the character [prev] and the text [next]. *)
Definition boundary (prev : option ascii) (next : string) : bool :=
  xorb (match prev with Some a => isWordChar a | None => false end)
       (match next with String a _ => isWordChar a | EmptyString => false end).

(** The ways a greedy run of characters of a class can end, the longest
    run first: what the run takes, and what is left. *)
Fixpoint takes (ok : ascii -> bool) (s : string) : list (string * string) :=
  match s with
  | String a s' =>
      if ok a
      then List.map (fun p => (String a (fst p), snd p)) (takes ok s')
           ++ [(EmptyString, s)]
      else [(EmptyString, s)]
  | EmptyString => [(EmptyString, EmptyString)]
  end.

Fixpoint firstSome {A B : Type} (f : A -> option B) (l : list A) : option B :=
  match l with
  | [] => None
  | x :: l' => match f x with
               | Some y => Some y
               | None => firstSome f l'
               end
  end.

(** The first place where [lit] stands in [s]: what is before it and what
    is after it. *)
Fixpoint findLit (lit s : string) : option (string * string) :=
  match stripPrefix lit s with
  | Some rest => Some (EmptyString, rest)
  | None =>
      match s with
      | String a s' =>
          match findLit lit s' with
          | Some (before, rest) => Some (String a before, rest)
          | None => None
          end
      | EmptyString => None
      end
  end.

Definition idOpen : string := ("id=" ++ String DQ EmptyString)%string.

(** What follows the opening of the [id] attribute in the expression,
    tried on [r3] for the tag [tag]: the value up to the next quote, the
    rest of the opening tag up to the next [>], and the inner text up to
    the first closing tag of that name.  A run of characters other than
    the quote, or other than [>], can only end where that character
    stands. *)
Definition matchAfterId (tag r3 : string) : option (string * string * string) :=
  match spanNot DQ r3 with
  | (id, String _ r4) =>
      if nonEmpty id then
        match spanNot GT r4 with
        | (_, String _ r5) =>
            match findLit ("</" ++ tag ++ ">") r5 with
            | Some (inner, rest) => Some (id, inner, rest)
            | None => None
            end
        | (_, EmptyString) => None
        end
      else None
  | (_, EmptyString) => None
  end.

(** The expression of [elementRegex] tried at the head of [s]: a [<], a
    run of tag characters that ends at a word boundary, characters other
    than [>] up to a word boundary where the [id] attribute opens, and
    then [matchAfterId].  It gives the [id], the inner text, and what
    follows the match. *)
Definition matchElementAt (s : string) : option (string * string * string) :=
  match s with
  | String a s1 =>
      if Ascii.eqb a LT then
        firstSome
          (fun tr : string * string =>
             let (tag, r1) := tr in
             if nonEmpty tag && boundary (lastOf tag) r1 then
               firstSome
                 (fun sk : string * string =>
                    let (skipped, r2) := sk in
                    if boundary (lastOf (tag ++ skipped)) r2 then
                      match stripPrefix idOpen r2 with
                      | Some r3 => matchAfterId tag r3
                      | None => None
                      end
                    else None)
                 (takes (fun c => negb (Ascii.eqb c GT)) r1)
             else None)
          (takes isTagChar s1)
      else None
  | EmptyString => None
  end.

(** [while ((em = elementRegex.exec(xml)))]: the [id] and the inner text
    of every match, the search going on after each match.  Every round
    leaves less of the text, so [fuel] rounds are enough when [fuel]
    exceeds its length (see [elementMatches_fuel]). *)
Fixpoint elementMatches (fuel : nat) (s : string) : list (string * string) :=
  match fuel with
  | 0 => []
  | S fuel' =>
      match matchElementAt s with
      | Some (id, inner, rest) => (id, inner) :: elementMatches fuel' rest
      | None =>
          match s with
          | String _ s' => elementMatches fuel' s'
          | EmptyString => []
          end
      end
  end.

Definition extOpen : string := "<bpmn:extensionElements".
Definition extClose : string := "</bpmn:extensionElements>".

(** [/<bpmn:extensionElements[^>]*>([\s\S]*?)<\/bpmn:extensionElements>/]
    tried at the head of [s]: the capture. *)
Definition matchExtAt (s : string) : option string :=
  match stripPrefix extOpen s with
  | Some r =>
      match spanNot GT r with
      | (_, String _ r2) =>
          match findLit extClose r2 with
          | Some (ext, _) => Some ext
          | None => None
          end
      | (_, EmptyString) => None
      end
  | None => None
  end.

(** [inner.match(...)]: the capture of the leftmost match. *)
Fixpoint firstExt (s : string) : option string :=
  match matchExtAt s with
  | Some ext => Some ext
  | None =>
      match s with
      | String _ s' => firstExt s'
      | EmptyString => None
      end
  end.

Definition refOpen : string := "<test:playwrightRef>".
Definition refClose : string := "</test:playwrightRef>".

(** [while ((rm = refRegex.exec(ext)))]: the captures.  When nothing closes
    the first opening tag, nothing closes a later one.  Every round leaves
    less of the text (see [refMatches_fuel]). *)
Fixpoint refMatches (fuel : nat) (s : string) : list string :=
  match fuel with
  | 0 => []
  | S fuel' =>
      match findLit refOpen s with
      | Some (_, r) =>
          match findLit refClose r with
          | Some (v, rest) => v :: refMatches fuel' rest
          | None => []
          end
      | None => []
      end
  end.

(** One round of the loop over the elements. *)
Definition addRefs (refs : JsMap.t (list string)) (em : string * string)
    : JsMap.t (list string) :=
  match firstExt (snd em) with
  | None => refs
  | Some ext =>
      let list :=
        List.filter nonEmpty
          (List.map trim (refMatches (S (String.length ext)) ext)) in
      match list with
      | [] => refs
      | _ => JsMap.set (fst em) list refs
      end
  end.

(** [extractPlaywrightRefsById(xml)] *)
Definition extractPlaywrightRefsById (xml : string) : JsMap.t (list string) :=
  List.fold_left addRefs (elementMatches (S (String.length xml)) xml)
    JsMap.empty.

(** *** The tasks read off the text of the document

    The branch of [extractTasks] that is taken without the parser. *)

(** The class [[a-zA-Z0-9:-]]. *)
Definition isTaskTagChar (a : ascii) : bool :=
  isTagChar a || Ascii.eqb a "-"%char.

(** The expression of [taskTagRegex] tried at the head of [s]: a [<], a
    run of tag characters given back until [task] follows at a word
    boundary, and what stands before the next [>].  It gives the tag, the
    text of the attributes, and what follows the match. *)
Definition matchTaskTagAt (s : string) : option (string * string * string) :=
  match s with
  | String a s1 =>
      if Ascii.eqb a LT then
        firstSome
          (fun pr : string * string =>
             let (pre, r1) := pr in
             match stripPrefix "task" r1 with
             | Some r2 =>
                 if boundary (Some "k"%char) r2 then
                   match spanNot GT r2 with
                   | (attrs, String _ rest) =>
                       Some ((pre ++ "task")%string, attrs, rest)
                   | (_, EmptyString) => None
                   end
                 else None
             | None => None
             end)
          (takes isTaskTagChar s1)
      else None
  | EmptyString => None
  end.

(** The first match in [s] of the expression for the attribute [name], a
    word boundary, the name, [=], and a value between quotes that is not
    empty: the value.  [prev] is the character before [s]. *)
Fixpoint findAttr (name : string) (prev : option ascii) (s : string)
    : option string :=
  let here :=
    if boundary prev s then
      match stripPrefix (name ++ "=" ++ String DQ EmptyString) s with
      | Some r =>
          match spanNot DQ r with
          | (v, String _ _) => if nonEmpty v then Some v else None
          | (_, EmptyString) => None
          end
      | None => None
      end
    else None in
  match here with
  | Some v => Some v
  | None =>
      match s with
      | String a s' => findAttr name (Some a) s'
      | EmptyString => None
      end
  end.

(** [while ((m = taskTagRegex.exec(xml)))]: the tag and the attributes of
    every match.  Every round leaves less of the text (see
    [taskTagMatches_fuel]). *)
Fixpoint taskTagMatches (fuel : nat) (s : string) : list (string * string) :=
  match fuel with
  | 0 => []
  | S fuel' =>
      match matchTaskTagAt s with
      | Some (tag, attrs, rest) => (tag, attrs) :: taskTagMatches fuel' rest
      | None =>
          match s with
          | String _ s' => taskTagMatches fuel' s'
          | EmptyString => []
          end
      end
  end.

(** The body of the loop: [if (id) tasks.push({ id, name, tag })]. *)
Definition taskOfTag (m : string * string) : list Task :=
  match findAttr "id" None (snd m) with
  | Some id =>
      [mkTask (JStr id)
         (JStr match findAttr "name" None (snd m) with
               | Some name => name
               | None => EmptyString
               end)
         (fst m)]
  | None => []
  end.

Definition extractTasksByRegex (xml : string) : list Task :=
  List.flat_map taskOfTag (taskTagMatches (S (String.length xml)) xml).

End TasksOnly.

(* ===================================================================== *)
(** ** The command line runs *)
(* ===================================================================== *)

Module Cli.
Import JsString Js Scanner Report Bpmn TasksOnly.
Import MonadNotation.
Local Open Scope monad_scope.

(** What a run does to the outside, in order. *)
Inductive Event : Type :=
  | EvExists (path : string)
  | EvRead (path : string)
  | EvMkdir (path : string)
  | EvWrite (path content : string)
  | EvList
  | EvParse (xml : string)
  | EvStdout (msg : string)
  | EvStderr (msg : string).

(** The file system (files with their text, directories) and the events so
    far. *)
Record World : Type := mkWorld {
  w_files : JsMap.t string;
  w_dirs : list string;
  w_trace : list Event
}.

(** How a computation ends: with a value, in [process.exit(code)], or
    with an exception thrown. *)
Inductive Outcome (A : Type) : Type :=
  | Done (a : A)
  | Exited (code : Z)
  | Thrown (msg : string).
Arguments Done {A} a.
Arguments Exited {A} code.
Arguments Thrown {A} msg.

Definition M (A : Type) : Type := World -> Outcome A * World.

#[export] Instance Monad_M : Monad M := {
  ret := fun _ a w => (Done a, w);
  bind := fun _ _ c k w =>
    match c w with
    | (Done a, w') => k a w'
    | (Exited code, w') => (Exited code, w')
    | (Thrown msg, w') => (Thrown msg, w')
    end
}.

Definition emit (e : Event) : M unit :=
  fun w => (Done tt, mkWorld (w_files w) (w_dirs w) (w_trace w ++ [e])).

Definition exit {A : Type} (code : Z) : M A := fun w => (Exited code, w).

Definition throw {A : Type} (msg : string) : M A := fun w => (Thrown msg, w).

(** [try { c } catch { h }]: an exit is not an exception. *)
Definition tryCatch {A : Type} (c : M A) (h : string -> M A) : M A :=
  fun w =>
    match c w with
    | (Thrown msg, w') => h msg w'
    | r => r
    end.

Definition isDir (w : World) (p : string) : bool :=
  List.existsb (String.eqb p) (w_dirs w).

(** [fs.existsSync(p)] *)
Definition existsSync (p : string) : M bool :=
  emit (EvExists p) ;;
  fun w => (Done (match JsMap.get p (w_files w) with
                  | Some _ => true
                  | None => isDir w p
                  end), w).

(** [fs.readFileSync(p, 'utf8')]: throws when there is no file at [p]. *)
Definition readFileSync (p : string) : M string :=
  emit (EvRead p) ;;
  fun w => match JsMap.get p (w_files w) with
           | Some text => (Done text, w)
           | None => (Thrown (if isDir w p then "EISDIR" else "ENOENT"), w)
           end.

(** The part of [s] before each of its slashes, the shortest first. *)
Fixpoint slashCuts (s : string) : list string :=
  match s with
  | EmptyString => []
  | String a s' =>
      (if Ascii.eqb a "/"%char then [EmptyString] else [])
      ++ List.map (String a) (slashCuts s')
  end.

(** The directories above [p], the nearest first. *)
Definition dirsAbove (p : string) : list string :=
  List.rev (List.filter nonEmpty (slashCuts p)).

(** Going up from a directory to make, [base] being a directory that is
    there (the one the process runs in, or the root of the repository):
    the directories that are missing, and [None] when a file stands where
    a directory is needed. *)
Fixpoint missingAbove (base : string) (w : World) (above : list string)
    : option (list string) :=
  match above with
  | [] => Some []
  | d :: above' =>
      if String.eqb d base then Some []
      else
        match JsMap.get d (w_files w) with
        | Some _ => None
        | None =>
            if isDir w d then Some []
            else match missingAbove base w above' with
                 | Some ds => Some (d :: ds)
                 | None => None
                 end
        end
  end.

(** [fs.mkdirSync(p, { recursive: true })]: makes [p] and the directories
    above it that are missing; throws [EEXIST] when a file stands at [p]
    and [ENOTDIR] when a file stands at a directory above it. *)
Definition mkdir (base p : string) : M unit :=
  emit (EvMkdir p) ;;
  fun w => match JsMap.get p (w_files w) with
           | Some _ => (Thrown "EEXIST", w)
           | None =>
               match missingAbove base w (p :: dirsAbove p) with
               | Some ds =>
                   (Done tt,
                    mkWorld (w_files w) (ds ++ w_dirs w) (w_trace w))
               | None => (Thrown "ENOTDIR", w)
               end
           end.

(** [fs.writeFileSync(p, content, 'utf8')] *)
Definition writeFileSync (p content : string) : M unit :=
  emit (EvWrite p content) ;;
  fun w => (Done tt, mkWorld (JsMap.set p content (w_files w)) (w_dirs w) (w_trace w)).

Definition consoleLog (msg : string) : M unit := emit (EvStdout msg).
Definition consoleError (msg : string) : M unit := emit (EvStderr msg).

(** [path.join(a, b)] for the plain names the scripts join. *)
Definition pathJoin (a b : string) : string := (a ++ "/" ++ b)%string.

(** [path.dirname(p)] is left to the caller of [writeText]: the scripts
    only write to [ROOT] and to [OUT_DIR]. *)
Fixpoint forEachM {A S : Type} (f : S -> A -> M S) (l : list A) (s : S) : M S :=
  match l with
  | [] => ret s
  | x :: l' => s' <- f s x ;; forEachM f l' s'
  end.

(** The exit code of the process. *)
Definition exitCode {A : Type} (o : Outcome A) : Z :=
  match o with
  | Done _ => 0
  | Exited code => code
  | Thrown _ => 1
  end.

Section Main.
(** [process.cwd()] *)
Variable ROOT : string.
(** [parser.parse(xml)]; [None] when it throws. *)
Variable parse : string -> option JsValue.
(** [glob.sync(TEST_GLOB, { cwd: ROOT, dot: false, nodir: true })] over
    the files that exist. *)
Variable globSync : JsMap.t string -> list string.
(** The third captures of [titleRe] in a text. *)
Variable titlesOf : string -> list string.
(** The three serialisations. *)
Variable toCSV : list Row -> string.
Variable toHTML : list Row -> list Orphan -> string.
Variable toJSON : ReportData -> string.
(** The text of the two console messages. *)
Variable missingMsg : string -> string.
Variable doneMsg : string.

Definition BPMN_PATH : string := pathJoin ROOT "ci_test.bpmn".
Definition OUT_ROOT_HTML : string := pathJoin ROOT "bpmn-test-report.html".
Definition OUT_ROOT_CSV : string := pathJoin ROOT "bpmn-test-report.csv".
Definition OUT_ROOT_JSON : string := pathJoin ROOT "bpmn-test-report.json".
Definition OUT_DIR : string := pathJoin (pathJoin ROOT "reports") "coverage".
Definition OUT_HTML : string := pathJoin OUT_DIR "index.html".
Definition OUT_CSV : string := pathJoin OUT_DIR "bpmn-test-report.csv".
Definition OUT_JSON : string := pathJoin OUT_DIR "bpmn-test-report.json".

Definition ensureDir (p : string) : M unit := mkdir ROOT p.

Definition readText (p : string) : M string := readFileSync p.

(** [writeText(p, content)], [dir] being [path.dirname(p)]. *)
Definition writeText (dir p content : string) : M unit :=
  ensureDir dir ;; writeFileSync p content.

Definition loadBpmn (xmlPath : string) : M JsValue :=
  xml <- readText xmlPath ;;
  emit (EvParse xml) ;;
  match parse xml with
  | Some dom => ret dom
  | None => throw "parse error"
  end.

(** One round of [for (const file of files)]. *)
Definition scanFile (hitsById : HitsById) (file : string) : M HitsById :=
  let full := pathJoin ROOT file in
  present <- existsSync full ;;
  if negb present then ret hitsById
  else
    text <- readText full ;;
    ret (List.fold_left pushHit (scanText file (titlesOf text) text) hitsById).

(** The hits a listed file contributes: those of its text, and none when
    the file is not there. *)
Definition fileHits (files : JsMap.t string) (file : string)
    : list (string * TestHit) :=
  match JsMap.get (pathJoin ROOT file) files with
  | Some text => scanText file (titlesOf text) text
  | None => []
  end.

(** The function returns [{ hitsById, titlesByFile }]; [main] takes
    [hitsById] only. *)
Definition scanTestsForBpmnTags : M HitsById :=
  emit EvList ;;
  files <- (fun w => (Done (globSync (w_files w)), w)) ;;
  forEachM scanFile files JsMap.empty.

Definition main : M unit :=
  present <- existsSync BPMN_PATH ;;
  (if negb present
   then consoleError (missingMsg BPMN_PATH) ;; exit 1
   else ret tt) ;;
  bpmn <- loadBpmn BPMN_PATH ;;
  let defs := or_else (getProp bpmn "bpmn:definitions")
                (or_else (getProp bpmn "definitions") bpmn) in
  let elements := collectBpmnElements defs "" in
  hitsById <- scanTestsForBpmnTags ;;
  let report := buildReport elements hitsById in
  let csv := toCSV (rows report) in
  let html := toHTML (rows report) (orphans report) in
  let json := toJSON report in
  writeText ROOT OUT_ROOT_CSV csv ;;
  writeText ROOT OUT_ROOT_HTML html ;;
  writeText ROOT OUT_ROOT_JSON json ;;
  writeText OUT_DIR OUT_CSV csv ;;
  writeText OUT_DIR OUT_HTML html ;;
  writeText OUT_DIR OUT_JSON json ;;
  consoleLog doneMsg.

End Main.

Section MainTasks.
(** The directory above [scripts/]. *)
Variable REPO_ROOT : string.
(** [parseXML]: the parser when the package is there, and [null]. *)
Variable parseXML : option (string -> JsValue).
(** The two scans of the text of the document.  The run takes them as
    they come: what is proved of a run holds whatever they give, and the
    functions of the script are [TasksOnly.extractTasksByRegex] (the branch
    of [extractTasks] without the parser) and
    [TasksOnly.extractPlaywrightRefsById]. *)
Variable extractTasksByRegex : string -> list Task.
Variable extractPlaywrightRefsById : string -> JsMap.t (list string).
(** [listFilesRec(TESTS_DIR)] filtered by the file-name pattern, with the
    path relative to [REPO_ROOT] and the text of each file. *)
Variable testFilesOf : JsMap.t string -> list (string * string).
(** [rows.sort((a, b) => a.id.localeCompare(b.id))]; [None] when it
    throws, an [id] that is no string having no [localeCompare]. *)
Variable sortRows : list TaskRow -> option (list TaskRow).
Variable tasksJSON : list TaskRow -> string.
Variable tasksCSV : list TaskRow -> string.
Variable tasksHTML : list TaskRow -> string.
Variable missingMsg : string -> string.
Variable failMsg : string -> string.
Variable doneMsg : string.

Definition T_BPMN_PATH : string := pathJoin REPO_ROOT "ci_test.bpmn".
Definition T_OUT_DIR : string :=
  pathJoin (pathJoin REPO_ROOT "reports") "coverage".
Definition T_OUT_JSON : string := pathJoin T_OUT_DIR "bpmn-test-report.json".
Definition T_OUT_CSV : string := pathJoin T_OUT_DIR "bpmn-test-report.csv".
Definition T_OUT_HTML : string := pathJoin T_OUT_DIR "index.html".

(** [try { return await fs.readFile(p, 'utf8'); } catch { return ''; }] *)
Definition readTextIfExists (p : string) : M string :=
  tryCatch (readFileSync p) (fun _ => ret "").

(** [extractTasks(xml)] *)
Definition extractTasks (xml : string) : M (list Task) :=
  match parseXML with
  | Some parse =>
      emit (EvParse xml) ;;
      match walk (parse xml) with
      | Some tasks => ret tasks
      | None => throw "TypeError"
      end
  | None => ret (extractTasksByRegex xml)
  end.

Definition scanTestMarkers (ids : list JsValue) : M Markers :=
  emit EvList ;;
  files <- (fun w => (Done (testFilesOf (w_files w)), w)) ;;
  ret (List.fold_left
         (fun markers f => List.fold_left (markFile (fst f) (snd f)) ids markers)
         files (emptyMarkers ids)).

Definition mainTasksBody : M unit :=
  ensureDir REPO_ROOT T_OUT_DIR ;;
  bpmnXML <- readTextIfExists T_BPMN_PATH ;;
  (if negb (nonEmpty bpmnXML)
   then consoleError (missingMsg T_BPMN_PATH) ;; exit 1
   else ret tt) ;;
  tasks <- extractTasks bpmnXML ;;
  let refsById := extractPlaywrightRefsById bpmnXML in
  let ids := List.map t_id tasks in
  markers <- scanTestMarkers ids ;;
  match sortRows (List.map (taskRow markers refsById) tasks) with
  | None => throw "TypeError"
  | Some rows =>
      writeFileSync T_OUT_JSON (tasksJSON rows) ;;
      writeFileSync T_OUT_CSV (tasksCSV rows) ;;
      writeFileSync T_OUT_HTML (tasksHTML rows) ;;
      consoleLog doneMsg
  end.

(** [(async () => { ... })().catch(err => { console.error(...);
    process.exit(1); })] *)
Definition mainTasks : M unit :=
  tryCatch mainTasksBody (fun err => consoleError (failMsg err) ;; exit 1).

End MainTasks.

End Cli.

(* ===================================================================== *)
(** ** What the specification says, for comparison *)
(* ===================================================================== *)

Module Spec.
Import JsString Js Scanner Report Bpmn TasksOnly.

(** The newline characters strictly before [offset]. *)
Definition newlinesBefore (text : string) (offset : nat) : nat :=
  countChar LF (take offset text).

(** The 1-based line of [offset]: one more than the newlines before it. *)
Definition lineSpec (text : string) (offset : nat) : nat :=
  1 + newlinesBefore text offset.

Definition bracket : ascii := "["%char.

(** What makes [(gap, id)] a gap followed by a marker: no [[] in the gap,
    and an identifier that is a non-empty run of characters other than
    []]. *)
Definition okItem (it : string * string) : Prop :=
  lacks bracket (fst it) /\ nonEmpty (snd it) = true /\
  lacks markerClose (snd it).

(** The text holds the marker of [id] at [offset]. *)
Definition markerAt (text : string) (offset : nat) (id : string) : Prop :=
  exists rest,
    drop offset text = (marker id ++ rest)%string /\
    nonEmpty id = true /\ lacks markerClose id.

(** Matches that follow each other from [from] on without overlap. *)
Fixpoint separated (from : nat) (ms : list RegExpMatch) : Prop :=
  match ms with
  | [] => True
  | m :: ms' => from <= m_index m /\ separated (nextIndex m) ms'
  end.

(** A text made of markers: before the marker of each identifier there is a
    gap, and [post] follows the last marker. *)
Fixpoint textOf (items : list (string * string)) (post : string) : string :=
  match items with
  | [] => post
  | (gap, id) :: items' => (gap ++ marker id ++ textOf items' post)%string
  end.

(** Where the markers of such a text start, the text starting at [pos]. *)
Fixpoint matchesOf (pos : nat) (items : list (string * string))
    : list RegExpMatch :=
  match items with
  | [] => []
  | (gap, id) :: items' =>
      mkMatch (pos + String.length gap) (marker id) id
      :: matchesOf (pos + String.length gap + String.length (marker id)) items'
  end.

(** The element objects of a tree in pre-order, each with its tag name: an
    object comes before what is below it, the entries of an object are
    taken in their order, attribute entries ([@...]) are not descended
    into, and the items of an array stand for repeated tags of one name. *)
Fixpoint preorder (node : JsValue) (name : string) {struct node}
    : list (string * JsValue) :=
  match node with
  | JArr items => List.flat_map (fun n => preorder n name) items
  | JObj entries =>
      (name, node)
      :: List.flat_map
           (fun e => if startsWith (fst e) "@" then []
                     else preorder (snd e) (fst e))
           entries
  | _ => []
  end.

(** The node has an [id] attribute, whatever its value. *)
Definition carriesId (node : JsValue) : bool :=
  match getProp node "@id" with
  | JUndefined => false
  | _ => true
  end.

(** The node has an [id] attribute with a truthy value (for a string: a
    non-empty one). *)
Definition hasId (node : JsValue) : bool := truthy (getProp node "@id").

(** The element of a node of the pre-order list. *)
Definition elementAt (p : string * JsValue) : BpmnEl :=
  elementOf (snd p) (fst p).

(** The element nodes of a tree of the task-only script in pre-order: a
    node with a tag comes first, then what is below each of its children,
    child after child. *)
Fixpoint elements (n : JsValue) {struct n} : list JsValue :=
  match n with
  | JObj entries =>
      (fix first (es : list (string * JsValue)) : list JsValue :=
         match es with
         | [] => []
         | (k, v) :: es' =>
             if isAttrKey k then first es'
             else if nonEmpty k then
               n :: match v with
                    | JArr kids => List.flat_map elements kids
                    | _ => []
                    end
             else []
         end) entries
  | JArr (JArr kids :: _) => n :: List.flat_map elements kids
  | JArr (_ :: _) => [n]
  | _ => []
  end.

(** The node has an [id] attribute, whatever its value. *)
Definition carriesAttrId (n : JsValue) : bool :=
  match getAttr n "id" with
  | JUndefined => false
  | _ => true
  end.



(** Pieces put back together with the separators between them. *)
Fixpoint interleave (segs : list string) (seps : list ascii) : string :=
  match segs, seps with
  | seg :: segs', sep :: seps' =>
      (seg ++ String sep (interleave segs' seps'))%string
  | seg :: _, [] => seg
  | [], _ => EmptyString
  end.

(** No character of [s] is a separator. *)
Fixpoint noneSep (isSep : ascii -> bool) (s : string) : bool :=
  match s with
  | EmptyString => true
  | String a s' => negb (isSep a) && noneSep isSep s'
  end.

(** The text of a metadata child: the child when it is a string, the first
    value of type string when it is an object, and the empty string when
    there is none. *)
Definition textValue (x : JsValue) : string :=
  match x with
  | JStr t => t
  | JArr _ | JObj _ =>
      match List.find isString (valuesOf x) with
      | Some (JStr val) => val
      | _ => EmptyString
      end
  | _ => EmptyString
  end.

(** "Split on comma or pipe, trim each segment, drop the empty ones." *)
Definition segmentsSpec (text : string) : list string :=
  List.filter nonEmpty (List.map trim (splitOn isCommaOrPipe text)).

(** How a hit is written into the [tests] cell of a row: the file, and the
    title after a [#] when there is one. *)
Definition hitText (h : TestHit) : string :=
  match title h with
  | EmptyString => file h
  | String _ _ => (file h ++ "#" ++ title h)%string
  end.

(** The [tests] cell of a list of hits. *)
Definition testsCell (hs : list TestHit) : string :=
  join " | " (List.map hitText hs).

(** A document of elements, as it is written: an element has a tag, its
    attributes and, in their order, the elements inside it. *)
#[local] Unset Elimination Schemes.
Inductive Xml : Type :=
  | Element (tag : string) (attrs : list (string * string))
      (children : list Xml).
#[local] Set Elimination Schemes.

Definition tagOf (x : Xml) : string :=
  match x with Element tag _ _ => tag end.

(** What the parser of the report script ([XMLParser] with
    [ignoreAttributes: false] and [attributeNamePrefix: '@']) makes of such
    a document.  An element is an object: first its attributes under
    [@name], then one entry per tag name of its children, at the place of
    the first child of that name; the entry holds the child, and the array
    of the children of that name when there are several.  An element with
    neither attributes nor children is the empty string. *)
Fixpoint addChild (obj : list (string * JsValue)) (tag : string) (v : JsValue)
    : list (string * JsValue) :=
  match obj with
  | [] => [(tag, v)]
  | (k, old) :: rest =>
      if String.eqb k tag
      then (k, match old with
               | JArr l => JArr (l ++ [v])
               | _ => JArr [old; v]
               end) :: rest
      else (k, old) :: addChild rest tag v
  end.

Fixpoint parsedElement (x : Xml) : JsValue :=
  match x with
  | Element _ [] [] => JStr EmptyString
  | Element _ attrs children =>
      JObj (List.fold_left
              (fun obj c => addChild obj (tagOf c) (parsedElement c))
              children
              (List.map (fun a => (("@" ++ fst a)%string, JStr (snd a))) attrs))
  end.

(** The parsed document: the object that holds the outermost element under
    its tag. *)
Definition parsedDocument (x : Xml) : JsValue :=
  JObj [(tagOf x, parsedElement x)].

(** What the parser of the task-only script ([preserveOrder: true] and
    [attributeNamePrefix: '']) makes of an element: an object that holds
    the children, in their order, under the tag and, when there are
    attributes, the attributes under [:@]. *)
Fixpoint orderedElement (x : Xml) : JsValue :=
  match x with
  | Element tag attrs children =>
      JObj ((tag, JArr (List.map orderedElement children))
            :: match attrs with
               | [] => []
               | _ =>
                   [(":@",
                     JObj (List.map (fun a => (fst a, JStr (snd a))) attrs))]
               end)
  end.

Definition orderedDocument (x : Xml) : JsValue := JArr [orderedElement x].

(** The tags of a document are names: not empty, and no attribute key of
    the parser. *)
Fixpoint wellTagged (x : Xml) : bool :=
  match x with
  | Element tag _ children =>
      nonEmpty tag && negb (startsWith tag ":@")
      && List.forallb wellTagged children
  end.

Definition attrValue (name : string) (attrs : list (string * string))
    : option string :=
  match List.find (fun a => String.eqb (fst a) name) attrs with
  | Some a => Some (snd a)
  | None => None
  end.

(** The tasks of a document in document order: the elements with an [id]
    that is not empty whose tag, without its prefix and in lower case,
    ends in [task]. *)
Fixpoint tasksInDocumentOrder (x : Xml) : list Task :=
  match x with
  | Element tag attrs children =>
      match attrValue "id" attrs with
      | Some id =>
          if nonEmpty id && lowerEndsWith (localKey tag) "task"
          then [mkTask (JStr id)
                  (JStr match attrValue "name" attrs with
                        | Some name => name
                        | None => EmptyString
                        end)
                  tag]
          else []
      | None => []
      end ++ List.flat_map tasksInDocumentOrder children
  end.

(** The non-empty [id]s of a document, in document order. *)
Fixpoint idsInDocumentOrder (x : Xml) : list string :=
  match x with
  | Element _ attrs children =>
      match List.find (fun a => String.eqb (fst a) "id") attrs with
      | Some (_, v) => if nonEmpty v then [v] else []
      | None => []
      end ++ List.flat_map idsInDocumentOrder children
  end.


(** The text with the given bytes. *)
Definition bytes (l : list nat) : string :=
  string_of_list_ascii (List.map ascii_of_nat l).

(** The white-space characters, as the language lists them (WhiteSpace:
    U+0009, U+000B, U+000C, U+0020, U+00A0, U+FEFF and the space separators
    U+1680, U+2000 to U+200A, U+202F, U+205F, U+3000; LineTerminator:
    U+000A, U+000D, U+2028, U+2029), each with the bytes of its UTF-8
    form. *)
Definition whiteSpace : list string :=
  List.map bytes
    [[9]; [10]; [11]; [12]; [13]; [32];
     [194; 160];
     [225; 154; 128];
     [226; 128; 128]; [226; 128; 129]; [226; 128; 130]; [226; 128; 131];
     [226; 128; 132]; [226; 128; 133]; [226; 128; 134]; [226; 128; 135];
     [226; 128; 136]; [226; 128; 137]; [226; 128; 138];
     [226; 128; 168]; [226; 128; 169]; [226; 128; 175];
     [226; 129; 159];
     [227; 128; 128];
     [239; 187; 191]].

(** A text made of white-space characters only. *)
Inductive blank : string -> Prop :=
  | blank_nil : blank EmptyString
  | blank_cons (w s : string) : In w whiteSpace -> blank s -> blank (w ++ s).

(** A text with no white-space character at its head and none at its
    end. *)
Definition edgeFree (s : string) : Prop :=
  forall w r, In w whiteSpace -> s <> (w ++ r)%string /\ s <> (r ++ w)%string.


End Spec.

(* ===================================================================== *)
(** ** The delimited-text output *)
(* ===================================================================== *)

Module Csv.
Import JsString Js Report TasksOnly.

Definition LFs : string := String LF EmptyString.

(** The [replace] of [esc]: every double quote of the text is written
    twice. *)
Fixpoint doubleQuotes (s : string) : string :=
  match s with
  | EmptyString => EmptyString
  | String a s' =>
      if Ascii.eqb a DQ then String DQ (String DQ (doubleQuotes s'))
      else String a (doubleQuotes s')
  end.

(** [String(v ?? '')] *)
Definition cellText (v : JsValue) : string :=
  match v with
  | JUndefined | JNull => EmptyString
  | _ => toText v
  end.

(** [esc], on the text of the value: the text with its quotes doubled,
    between two quotes. *)
Definition esc (s : string) : string :=
  String DQ (doubleQuotes s ++ String DQ EmptyString).

Definition header : list string :=
  ["BPMN ID"; "Name"; "Type"; "Priority"; "Tags"; "Jira"; "PlaywrightRefs";
   "Figma"; "Tests"; "Coverage"].

(** [[r.id, r.name, r.type, r.priority, r.tags, r.jira, r.playwrightRefs,
    r.figma, r.tests, r.coverage]], each as the text [esc] sees. *)
Definition cells (r : Row) : list string :=
  [cellText (r_id r); cellText (r_name r); r_type r; r_priority r; r_tags r;
   r_jira r; r_playwrightRefs r; r_figma r; r_tests r; r_coverage r].

(** [toCSV(rows)] of the report script. *)
Definition toCSV (rows : list Row) : string :=
  join LFs
    (join "," (List.map esc header)
     :: List.map (fun r => join "," (List.map esc (cells r))) rows).

(** The head line of the task-only script, which is not quoted. *)
Definition taskHead : list string :=
  ["bpmnId"; "name"; "type"; "hasTests"; "testFiles"; "playwrightRefs"].

Definition taskCells (r : TaskRow) : list string :=
  [cellText (tr_id r); cellText (tr_name r); tr_type r;
   (if tr_hasTests r then "yes" else "no");
   join LFs (tr_testFiles r); join LFs (tr_playwrightRefs r)].

(** [toCSV(rows)] of the task-only script. *)
Definition tasksToCSV (rows : list TaskRow) : string :=
  join LFs
    (join "," taskHead
     :: List.map (fun r => join "," (List.map esc (taskCells r))) rows).

(** [total], [covered] and [uncovered] of the task-only script. *)
Definition summary (rows : list TaskRow) : Z * Z * Z :=
  let total := Z.of_nat (List.length rows) in
  let covered := Z.of_nat (List.length (List.filter tr_hasTests rows)) in
  (total, covered, (total - covered)%Z).

End Csv.

(* ===================================================================== *)
(** ** The helper of the tests *)
(* ===================================================================== *)

Module Helpers.
Import JsString.

(** [withBpmn(bpmnId)(title)]: [`${title} [bpmn:${bpmnId}]`] *)
Definition withBpmn (bpmnId title : string) : string :=
  (title ++ " [bpmn:" ++ bpmnId ++ "]")%string.

End Helpers.

(* ===================================================================== *)
(** ** More of what is compared with the code *)
(* ===================================================================== *)

Module SpecMore.
Import JsString Js Scanner Report Bpmn TasksOnly Csv.

(** The elements of a list without their repetitions, each at the place
    where it comes first. *)
Definition firstOccurrences (l : list string) : list string :=
  List.fold_left
    (fun acc k => if List.existsb (String.eqb k) acc then acc else acc ++ [k])
    l [].

(** The hits of a grouping, group after group. *)
Definition flatten (m : HitsById) : list (string * TestHit) :=
  List.flat_map (fun e => List.map (pair (fst e)) (snd e)) m.

(** The identifier of the hit is the [id] of no node. *)
Definition unmatched (els : list BpmnEl) (p : string * TestHit) : bool :=
  negb (setHas (allIds els) (fst p)).


(** A piece as it may stand in [tags] and [jiraKeys]: not empty, with no
    white space at either end, and without comma and pipe. *)
Definition goodPiece (s : string) : Prop :=
  nonEmpty s = true /\ Spec.edgeFree s /\
  Spec.noneSep isCommaOrPipe s = true.

(** No white space at either end. *)
Definition trimmed (s : string) : Prop := Spec.edgeFree s.


(** What holds of the metadata of every element. *)
Definition tidyMeta (m : Meta) : Prop :=
  Forall goodPiece (tags m) /\ Forall goodPiece (jiraKeys m) /\
  Forall trimmed (playwrightRefs m) /\
  trimmed (priority m) /\ trimmed (figmaUrl m) /\ trimmed (figmaNodeId m) /\
  trimmed (figmaComponentKey m) /\ trimmed (variant m).

(** The scalar field a key sets. *)
Definition scalarField (key : string) : option (Meta -> string) :=
  if String.eqb key "priority" then Some priority
  else if String.eqb key "figmaUrl" then Some figmaUrl
  else if String.eqb key "figmaNodeId" then Some figmaNodeId
  else if String.eqb key "figmaComponentKey" then Some figmaComponentKey
  else if String.eqb key "variant" then Some variant
  else None.

(** A reader of delimited text: fields are separated by commas and records
    by line feeds; a field may stand between double quotes, and then a
    doubled quote inside it is one quote and commas and line feeds are part
    of it. *)
Inductive CsvMode : Type := AtStart | Bare | Quoted | QuoteSeen.

Fixpoint parseCsv (mode : CsvMode) (field : string) (row : list string)
    (rows : list (list string)) (s : string) {struct s}
    : option (list (list string)) :=
  match s with
  | EmptyString =>
      match mode with
      | Quoted => None
      | _ => Some (rows ++ [row ++ [field]])
      end
  | String c s' =>
      match mode with
      | AtStart =>
          if Ascii.eqb c DQ then parseCsv Quoted EmptyString row rows s'
          else if Ascii.eqb c ","%char
          then parseCsv AtStart EmptyString (row ++ [EmptyString]) rows s'
          else if Ascii.eqb c LF
          then parseCsv AtStart EmptyString [] (rows ++ [row ++ [EmptyString]]) s'
          else parseCsv Bare (String c EmptyString) row rows s'
      | Bare =>
          if Ascii.eqb c DQ then None
          else if Ascii.eqb c ","%char
          then parseCsv AtStart EmptyString (row ++ [field]) rows s'
          else if Ascii.eqb c LF
          then parseCsv AtStart EmptyString [] (rows ++ [row ++ [field]]) s'
          else parseCsv Bare (field ++ String c EmptyString) row rows s'
      | Quoted =>
          if Ascii.eqb c DQ then parseCsv QuoteSeen field row rows s'
          else parseCsv Quoted (field ++ String c EmptyString) row rows s'
      | QuoteSeen =>
          if Ascii.eqb c DQ
          then parseCsv Quoted (field ++ String DQ EmptyString) row rows s'
          else if Ascii.eqb c ","%char
          then parseCsv AtStart EmptyString (row ++ [field]) rows s'
          else if Ascii.eqb c LF
          then parseCsv AtStart EmptyString [] (rows ++ [row ++ [field]]) s'
          else None
      end
  end.

Definition decodeCsv (s : string) : option (list (list string)) :=
  parseCsv AtStart EmptyString [] [] s.

(** The six files the report script writes. *)
Definition reportPaths (ROOT : string) : list string :=
  [Cli.OUT_ROOT_CSV ROOT; Cli.OUT_ROOT_HTML ROOT; Cli.OUT_ROOT_JSON ROOT;
   Cli.OUT_CSV ROOT; Cli.OUT_HTML ROOT; Cli.OUT_JSON ROOT].

(** The three files the task-only script writes. *)
Definition taskReportPaths (REPO_ROOT : string) : list string :=
  [Cli.T_OUT_JSON REPO_ROOT; Cli.T_OUT_CSV REPO_ROOT; Cli.T_OUT_HTML REPO_ROOT].

(** A computation that leaves every file outside [outs] as it was. *)
Definition writesOnly {A : Type} (outs : list string) (c : Cli.M A) : Prop :=
  forall (w : Cli.World) (p : string),
    ~ In p outs ->
    JsMap.get p (Cli.w_files (snd (c w))) = JsMap.get p (Cli.w_files w).

(** The test files whose text holds the marker of [id]. *)
Definition filesWithMarker (files : list (string * string)) (id : JsValue)
    : list string :=
  List.map fst
    (List.filter (fun f => includes (snd f) (marker (toText id))) files).

End SpecMore.

(* ===================================================================== *)
(** ** The first version of the report script *)
(* ===================================================================== *)

(** The file holds the report script twice.  The first version differs
    from the second in three places: [esc] of [toCSV] takes [v || ''], the
    scan reads every listed file without looking whether it is there, and
    [main] writes three files, with [fs.writeFileSync], to the directory of
    the run. *)
Module CsvV1.
Import JsString Js Report.

(** [String(v || '')] *)
Definition cellText (v : JsValue) : string :=
  if truthy v then toText v else EmptyString.

Definition cells (r : Row) : list string :=
  [cellText (r_id r); cellText (r_name r); r_type r; r_priority r; r_tags r;
   r_jira r; r_playwrightRefs r; r_figma r; r_tests r; r_coverage r].

Definition toCSV (rows : list Row) : string :=
  join Csv.LFs
    (join "," (List.map Csv.esc Csv.header)
     :: List.map (fun r => join "," (List.map Csv.esc (cells r))) rows).

End CsvV1.

Module CliV1.
Import JsString Js Scanner Report Bpmn Cli.
Import MonadNotation.
Local Open Scope monad_scope.

Section Main.
Variable ROOT : string.
Variable parse : string -> option JsValue.
Variable globSync : JsMap.t string -> list string.
Variable titlesOf : string -> list string.
Variable toCSV : list Row -> string.
Variable toHTML : list Row -> list Orphan -> string.
Variable toJSON : ReportData -> string.
Variable missingMsg : string -> string.
Variable doneMsg : string.

Definition loadBpmn (xmlPath : string) : M JsValue :=
  xml <- readFileSync xmlPath ;;
  emit (EvParse xml) ;;
  match parse xml with
  | Some dom => ret dom
  | None => throw "parse error"
  end.

(** One round of [for (const file of files)]: the file is read at once. *)
Definition scanFile (hitsById : HitsById) (file : string) : M HitsById :=
  let full := pathJoin ROOT file in
  text <- readFileSync full ;;
  ret (List.fold_left pushHit (scanText file (titlesOf text) text) hitsById).

Definition scanTestsForBpmnTags : M HitsById :=
  emit EvList ;;
  files <- (fun w => (Done (globSync (w_files w)), w)) ;;
  forEachM scanFile files JsMap.empty.

Definition main : M unit :=
  present <- existsSync (BPMN_PATH ROOT) ;;
  (if negb present
   then consoleError (missingMsg (BPMN_PATH ROOT)) ;; exit 1
   else ret tt) ;;
  bpmn <- loadBpmn (BPMN_PATH ROOT) ;;
  let defs := or_else (getProp bpmn "bpmn:definitions")
                (or_else (getProp bpmn "definitions") bpmn) in
  let elements := collectBpmnElements defs "" in
  hitsById <- scanTestsForBpmnTags ;;
  let report := buildReport elements hitsById in
  let csv := toCSV (rows report) in
  let html := toHTML (rows report) (orphans report) in
  let json := toJSON report in
  writeFileSync (pathJoin ROOT "bpmn-test-report.csv") csv ;;
  writeFileSync (pathJoin ROOT "bpmn-test-report.html") html ;;
  writeFileSync (pathJoin ROOT "bpmn-test-report.json") json ;;
  consoleLog doneMsg.

End Main.

End CliV1.

(* ===================================================================== *)
(** ** Sample documents *)
(* ===================================================================== *)

Module Samples.
Import JsString Js Scanner Report Bpmn TasksOnly Cli.
(* The module [Spec] is not imported: its names are written in full. *)

(** An attribute as it is written in a tag. *)
Definition attr (name value : string) : string :=
  (" " ++ name ++ "=" ++ String DQ value ++ String DQ EmptyString)%string.

(** A process with two tasks, the first with a [playwrightRef];
    [processAttrs] is what the opening tag of the process holds after its
    name. *)
Definition taskDocument (processAttrs : string) : string :=
  ("<bpmn:definitions>"
   ++ "<bpmn:process" ++ processAttrs ++ ">"
   ++ "<bpmn:userTask" ++ attr "id" "Pay" ++ attr "name" "Pay the bill" ++ ">"
   ++ "<bpmn:extensionElements>"
   ++ "<test:playwrightRef> tests/pay.spec.ts </test:playwrightRef>"
   ++ "</bpmn:extensionElements>"
   ++ "</bpmn:userTask>"
   ++ "<bpmn:task" ++ attr "id" "Ship" ++ "></bpmn:task>"
   ++ "</bpmn:process>"
   ++ "</bpmn:definitions>")%string.

(** No element around the tasks has an [id]. *)
Definition flatDocument : string := taskDocument "".


(** What the parser of the task-only script ([preserveOrder: true],
    [attributeNamePrefix: '']) makes of the two documents. *)
Definition taskTree (processAttrs : list (string * JsValue)) : JsValue :=
  let pay :=
    JObj [("bpmn:userTask",
           JArr [JObj [("bpmn:extensionElements",
                        JArr [JObj [("test:playwrightRef",
                                     JArr [JObj [("#text",
                                                  JStr "tests/pay.spec.ts")]])]])]]);
          (":@", JObj [("id", JStr "Pay"); ("name", JStr "Pay the bill")])] in
  let ship :=
    JObj [("bpmn:task", JArr []); (":@", JObj [("id", JStr "Ship")])] in
  JArr [JObj [("bpmn:definitions",
               JArr [JObj (("bpmn:process", JArr [pay; ship])
                           :: match processAttrs with
                              | [] => []
                              | _ => [(":@", JObj processAttrs)]
                              end)])]].

(** A process whose second task comes after a gateway. *)
Definition orderDocument : Spec.Xml :=
  Spec.Element "bpmn:definitions" [("id", "D")]
    [Spec.Element "bpmn:process" [("id", "P")]
       [Spec.Element "bpmn:task" [("id", "A")] [];
        Spec.Element "bpmn:exclusiveGateway" [("id", "B")] [];
        Spec.Element "bpmn:userTask" [("id", "U")] [];
        Spec.Element "bpmn:task" [("id", "C")] [];
        Spec.Element "bpmn:endEvent" [("id", "E")] []]].

Definition flatTree : JsValue := taskTree [].





End Samples.

(* ===================================================================== *)
(** * Properties *)
(* ===================================================================== *)

Import JsString Js Scanner Report Bpmn TasksOnly Spec Csv Helpers SpecMore
  Samples.

(** ** The insertion-ordered map *)

Section JsMapFacts.
Context {V : Type}.
Implicit Types (m : JsMap.t V) (k : string) (v : V).

Lemma get_set_same m k v : JsMap.get k (JsMap.set k v m) = Some v.
Proof.
  induction m as [|[k' v'] m IH]; simpl.
  - now rewrite String.eqb_refl.
  - destruct (String.eqb k' k) eqn:E; simpl; rewrite E; auto.
Qed.

Lemma get_set_other m k k' v :
  k <> k' -> JsMap.get k' (JsMap.set k v m) = JsMap.get k' m.
Proof.
  intros N. induction m as [|[k0 v0] m IH]; simpl.
  - destruct (String.eqb_spec k k'); congruence.
  - destruct (String.eqb_spec k0 k) as [->|]; simpl.
    + destruct (String.eqb_spec k k'); congruence.
    + now rewrite IH.
Qed.

Lemma get_in_keys m k : JsMap.get k m <> None <-> In k (JsMap.keys m).
Proof.
  induction m as [|[k0 v0] m IH]; simpl.
  - tauto.
  - destruct (String.eqb_spec k0 k) as [->|N].
    + split; [auto | discriminate].
    + rewrite IH. split; [auto | intros [?|?]; congruence].
Qed.

Lemma keys_set_in m k v k' :
  In k' (JsMap.keys (JsMap.set k v m)) <-> k' = k \/ In k' (JsMap.keys m).
Proof.
  induction m as [|[k0 v0] m IH]; simpl.
  - intuition.
  - destruct (String.eqb_spec k0 k) as [->|N]; simpl.
    + intuition.
    + rewrite IH. intuition.
Qed.

Lemma keys_set_NoDup m k v :
  NoDup (JsMap.keys m) -> NoDup (JsMap.keys (JsMap.set k v m)).
Proof.
  induction m as [|[k0 v0] m IH]; simpl; intros ND.
  - constructor; [intros [] | constructor].
  - inversion ND as [|? ? Hn ND']; subst.
    destruct (String.eqb_spec k0 k) as [->|N]; simpl.
    + now constructor.
    + constructor; [|auto].
      intros I. apply (keys_set_in m k v k0) in I. destruct I; congruence.
Qed.

End JsMapFacts.

(** ** Grouping *)

Section GroupFacts.
Implicit Types (hits : list (string * TestHit)) (id : string) (h : TestHit).

Lemma groupHits_snoc hits x :
  groupHits (hits ++ [x]) = pushHit (groupHits hits) x.
Proof. unfold groupHits. now rewrite fold_left_app. Qed.

Lemma hitsFor_snoc id hits x :
  hitsFor id (hits ++ [x]) =
  hitsFor id hits ++ (if String.eqb (fst x) id then [snd x] else []).
Proof.
  unfold hitsFor. rewrite filter_app, map_app. simpl.
  now destruct (String.eqb (fst x) id).
Qed.

Lemma hitsFor_in id h hits : In h (hitsFor id hits) <-> In (id, h) hits.
Proof.
  unfold hitsFor. rewrite in_map_iff. split.
  - intros [[id' h'] [E I]]. apply filter_In in I as [I B]. simpl in *.
    apply String.eqb_eq in B. now subst.
  - intros I. exists (id, h). split; [reflexivity|].
    apply filter_In. split; [assumption | apply String.eqb_refl].
Qed.

(** What [hitsById.get(id)] holds after grouping: the hits for [id] in
    their order, and nothing for an identifier without hits. *)
Lemma get_groupHits id hits :
  JsMap.get id (groupHits hits) =
  match hitsFor id hits with
  | [] => None
  | l => Some l
  end.
Proof.
  induction hits as [|[id' h'] hits IH] using rev_ind; [reflexivity|].
  rewrite groupHits_snoc, hitsFor_snoc. unfold pushHit. simpl.
  destruct (String.eqb_spec id' id) as [->|N].
  - rewrite get_set_same, IH.
    destruct (hitsFor id hits); reflexivity.
  - rewrite get_set_other by assumption. now rewrite app_nil_r.
Qed.

Lemma testsFor_groupHits id hits :
  testsFor (groupHits hits) (JStr id) = hitsFor id hits.
Proof.
  unfold testsFor. rewrite get_groupHits. now destruct (hitsFor id hits).
Qed.

Lemma keys_groupHits_NoDup hits : NoDup (JsMap.keys (groupHits hits)).
Proof.
  induction hits as [|x hits IH] using rev_ind; [constructor|].
  rewrite groupHits_snoc. now apply keys_set_NoDup.
Qed.

Lemma keys_groupHits_in id hits :
  In id (JsMap.keys (groupHits hits)) <-> exists h, In (id, h) hits.
Proof.
  rewrite <- get_in_keys, get_groupHits. split.
  - destruct (hitsFor id hits) as [|h l] eqn:E; [congruence|].
    intros _. exists h. apply hitsFor_in. rewrite E. now left.
  - intros [h I]. apply hitsFor_in in I.
    destruct (hitsFor id hits); [destruct I | discriminate].
Qed.

End GroupFacts.

(** ** The reconciler *)

Section ReportFacts.
Implicit Types (els : list BpmnEl) (m : HitsById) (id : string).

Lemma setHas_true els id :
  setHas (allIds els) id = true <-> exists el, In el els /\ el_id el = JStr id.
Proof.
  unfold setHas, allIds. rewrite existsb_exists. split.
  - intros [v [I B]]. apply in_map_iff in I as [el [E I]].
    destruct v; try discriminate. apply String.eqb_eq in B. subst.
    now exists el.
  - intros [el [I E]]. exists (JStr id). split.
    + rewrite <- E. now apply in_map.
    + apply String.eqb_refl.
Qed.

Lemma orphansOf_in m ids o :
  In o (orphansOf m ids) <->
  exists h hs, In (o_id o) ids /\ JsMap.get (o_id o) m = Some hs /\
               In h hs /\ o = orphanOf (o_id o) h.
Proof.
  unfold orphansOf. rewrite in_flat_map. split.
  - intros [id [I O]]. destruct (JsMap.get id m) as [hs|] eqn:G; [|destruct O].
    apply in_map_iff in O as [h [E Ih]]. subst o. simpl.
    exists h, hs. auto.
  - intros [h [hs [I [G [Ih E]]]]]. exists (o_id o). split; [assumption|].
    rewrite G. rewrite E at 1. now apply in_map.
Qed.

(** The orphans with a given identifier, when the keys are distinct. *)
Lemma orphansOf_filter m ids id :
  NoDup ids ->
  List.filter (fun o => String.eqb (o_id o) id) (orphansOf m ids) =
  if List.existsb (String.eqb id) ids
  then match JsMap.get id m with
       | Some hs => List.map (orphanOf id) hs
       | None => []
       end
  else [].
Proof.
  assert (same : forall hs, List.filter (fun o => String.eqb (o_id o) id)
                   (List.map (orphanOf id) hs) = List.map (orphanOf id) hs).
  { induction hs as [|h hs IH]; simpl; [reflexivity|].
    now rewrite String.eqb_refl, IH. }
  assert (other : forall id' hs, id' <> id ->
            List.filter (fun o => String.eqb (o_id o) id)
              (List.map (orphanOf id') hs) = []).
  { intros id' hs N. induction hs as [|h hs IH]; simpl; [reflexivity|].
    destruct (String.eqb_spec id' id); [contradiction | exact IH]. }
  assert (cons : forall a l, orphansOf m (a :: l) =
            match JsMap.get a m with
            | Some hs => List.map (orphanOf a) hs
            | None => []
            end ++ orphansOf m l) by reflexivity.
  assert (none : forall l, ~ In id l ->
            List.filter (fun o => String.eqb (o_id o) id) (orphansOf m l) = []).
  { induction l as [|a l IH]; intros NI; [reflexivity|].
    rewrite cons, filter_app, IH by (simpl in NI; tauto).
    rewrite app_nil_r.
    destruct (JsMap.get a m); [|reflexivity].
    apply other. intros ->. apply NI. now left. }
  induction ids as [|a ids IH]; intros ND; [reflexivity|].
  inversion ND as [|? ? Hn ND']; subst.
  rewrite cons, filter_app. simpl.
  destruct (String.eqb_spec id a) as [<-|N]; simpl.
  - rewrite none by assumption. rewrite app_nil_r.
    destruct (JsMap.get id m); [apply same | reflexivity].
  - rewrite IH by assumption.
    destruct (JsMap.get a m); [|reflexivity].
    rewrite other by congruence. reflexivity.
Qed.

End ReportFacts.

Section ReconcilerRows.
Implicit Types (els : list BpmnEl) (hits : list (string * TestHit)).

Lemma orphan_id_unmatched els m o :
  In o (orphans (buildReport els m)) -> setHas (allIds els) (o_id o) = false.
Proof.
  unfold buildReport. simpl. intros I.
  apply orphansOf_in in I as [h [hs [I _]]].
  apply filter_In in I as [_ B]. now apply negb_true_iff in B.
Qed.

End ReconcilerRows.

Lemma renderTest_hitText h : renderTest h = hitText h.
Proof.
  unfold renderTest, hitText. destruct (title h); [|reflexivity].
  cbn [nonEmpty]. induction (file h) as [|c f IH]; cbn; congruence.
Qed.

(** The [tests] cell and the status of the row of a node with the
    identifier [id]: they are those of the whole group of hits for [id]. *)
Lemma buildRow_tests hits el id :
  el_id el = JStr id ->
  r_tests (buildRow (groupHits hits) el) = testsCell (hitsFor id hits) /\
  r_coverage (buildRow (groupHits hits) el)
  = match hitsFor id hits with [] => "Missing" | _ => "Covered" end.
Proof.
  intros E. unfold buildRow. cbn [r_tests r_coverage].
  rewrite E, testsFor_groupHits. split.
  - unfold testsCell. f_equal. apply map_ext. apply renderTest_hitText.
  - now destruct (hitsFor id hits).
Qed.

Lemma rows_in els m row :
  In row (rows (buildReport els m)) <->
  exists el, In el els /\ row = buildRow m el.
Proof.
  unfold buildReport. cbn [rows]. rewrite in_map_iff. split.
  - intros [el [E I]]. now exists el.
  - intros [el [I ->]]. now exists el.
Qed.

Lemma rows_nth els m i el :
  nth_error els i = Some el ->
  nth_error (rows (buildReport els m)) i = Some (buildRow m el).
Proof. intros E. unfold buildReport. cbn [rows]. now rewrite nth_error_map, E. Qed.

Lemma rows_unique els m id :
  NoDup (allIds els) ->
  forall i j p q,
    nth_error (rows (buildReport els m)) i = Some p ->
    nth_error (rows (buildReport els m)) j = Some q ->
    r_id p = JStr id -> r_id q = JStr id -> i = j.
Proof.
  intros ND i j p q Ei Ej Ri Rj. unfold buildReport in *. cbn [rows] in *.
  rewrite nth_error_map in Ei, Ej.
  destruct (nth_error els i) as [e1|] eqn:N1; [|discriminate].
  destruct (nth_error els j) as [e2|] eqn:N2; [|discriminate].
  inversion Ei. inversion Ej. subst p q. cbn in Ri, Rj.
  apply (proj1 (NoDup_nth_error (allIds els)) ND).
  - unfold allIds. rewrite length_map. apply nth_error_Some. congruence.
  - unfold allIds. rewrite !nth_error_map, N1, N2. cbn. congruence.
Qed.

(** C1.  Conservation of reference hits.  For every node list and every list
    of reference hits, a hit is either attached to a row of the report or it
    is an orphan entry of the report: one of the two holds and never both.
    Attached means that the report has a row whose [id] is the identifier of
    the hit, whose status is [Covered] and whose [tests] cell is made of
    the hits of that identifier in their order, the hit among them; the
    cell of a hit is its file, followed by [#] and its title when it has
    one.  Every row with that [id] carries the same cell, and when the
    nodes have distinct [id]s there is only one such row. *)
Theorem C1_hit_attached_xor_orphan :
  (forall (els : list BpmnEl) (hits : list (string * TestHit))
          (id : string) (h : TestHit),
      In (id, h) hits ->
      let report := buildReport els (groupHits hits) in
      let attached :=
        exists row before after,
          In row (rows report) /\ r_id row = JStr id /\
          hitsFor id hits = before ++ h :: after /\
          r_tests row
          = join " | " (List.map hitText before
                        ++ hitText h :: List.map hitText after) /\
          r_coverage row = "Covered" in
      let orphaned :=
        In (mkOrphan id (file h) (line h) (title h)) (orphans report) in
      ((attached /\ ~ orphaned) \/ (~ attached /\ orphaned)) /\
      (forall row,
          In row (rows report) -> r_id row = JStr id ->
          r_tests row = testsCell (hitsFor id hits) /\
          r_coverage row = "Covered") /\
      (NoDup (allIds els) ->
       forall i j p q,
         nth_error (rows report) i = Some p ->
         nth_error (rows report) j = Some q ->
         r_id p = JStr id -> r_id q = JStr id -> i = j)) /\
  buildReport
    [mkEl (JStr "A") "bpmn:task" (JStr "Pay") emptyMeta;
     mkEl (JStr "B") "bpmn:task" (JStr "Ship") emptyMeta]
    (groupHits [("A", mkHit "tests/a.spec.ts" 1 "pays");
                ("X", mkHit "tests/a.spec.ts" 3 "");
                ("A", mkHit "tests/b.spec.ts" 7 "")])
  = mkReport
      [mkRow (JStr "A") (JStr "Pay") "task" "" "" "" "" ""
         "tests/a.spec.ts#pays | tests/b.spec.ts" "Covered";
       mkRow (JStr "B") (JStr "Ship") "task" "" "" "" "" "" "" "Missing"]
      [mkOrphan "X" "tests/a.spec.ts" 3 ""].
Proof.
  split; [|reflexivity].
  intros els hits id h I report attached orphaned.
  assert (forall row,
             In row (rows report) -> r_id row = JStr id ->
             r_tests row = testsCell (hitsFor id hits) /\
             r_coverage row = "Covered") as Cell.
  { intros row R E. apply rows_in in R as [el [_ ->]]. cbn [buildRow r_id] in E.
    destruct (buildRow_tests hits el id E) as [T C]. split; [exact T|].
    rewrite C. apply hitsFor_in in I.
    destruct (hitsFor id hits); [destruct I | reflexivity]. }
  split; [|split; [exact Cell | apply rows_unique]].
  destruct (setHas (allIds els) id) eqn:S.
  - left. split.
    + apply setHas_true in S as [el [Iel E]].
      assert (In (buildRow (groupHits hits) el) (rows report)) as R
        by (apply rows_in; now exists el).
      destruct (Cell _ R E) as [T C].
      destruct (in_split h (hitsFor id hits)) as [before [after Sp]];
        [now apply hitsFor_in|].
      exists (buildRow (groupHits hits) el), before, after.
      repeat split; try assumption.
      rewrite T. unfold testsCell. rewrite Sp, map_app. reflexivity.
    + intros O. apply orphan_id_unmatched in O. cbn [o_id] in O. congruence.
  - right. split.
    + intros [row [before [after [R [E _]]]]].
      apply rows_in in R as [el [Iel ->]]. cbn [buildRow r_id] in E.
      assert (setHas (allIds els) id = true) by (apply setHas_true; eauto).
      congruence.
    + unfold orphaned, report, buildReport. cbn [orphans].
      apply orphansOf_in. cbn [o_id].
      exists h, (hitsFor id hits). repeat split.
      * apply filter_In. split.
        -- apply keys_groupHits_in. now exists h.
        -- now rewrite S.
      * rewrite get_groupHits.
        apply hitsFor_in in I. destruct (hitsFor id hits); [destruct I | reflexivity].
      * now apply hitsFor_in.
Qed.

Lemma C1_witness :
  let el := mkEl (JStr "A") "bpmn:task" (JStr "") emptyMeta in
  let hA := mkHit "tests/a.spec.ts" 1 "pays" in
  let hX := mkHit "tests/a.spec.ts" 3 "" in
  let hits := [("A", hA); ("X", hX); ("A", hX)] in
  In ("A", hX) hits /\
  forall row,
    In row (rows (buildReport [el] (groupHits hits))) -> r_id row = JStr "A" ->
    r_tests row = "tests/a.spec.ts#pays | tests/a.spec.ts" /\
    r_coverage row = "Covered".
Proof.
  split.
  - cbn. right. right. left. reflexivity.
  - apply (proj1 (proj2 (proj1 C1_hit_attached_xor_orphan
             [mkEl (JStr "A") "bpmn:task" (JStr "") emptyMeta]
             [("A", mkHit "tests/a.spec.ts" 1 "pays");
              ("X", mkHit "tests/a.spec.ts" 3 "");
              ("A", mkHit "tests/a.spec.ts" 3 "")]
             "A" (mkHit "tests/a.spec.ts" 3 "")
             (or_intror (or_intror (or_introl eq_refl)))))).
Defined.

(** C3.  Orphans.  For an identifier that has hits but is the [id] of no
    node, the orphan entries with that identifier are the hits of its group,
    one entry per hit and in the order of the hits; the orphan list as a
    whole goes through the unmatched identifiers in the order they were
    first seen.  With no node and one hit for ["X"], the report has no rows
    and exactly that one orphan. *)
Theorem C3_orphans_per_unmatched_id :
  (forall (els : list BpmnEl) (hits : list (string * TestHit)) (id : string),
      In id (JsMap.keys (groupHits hits)) ->
      (forall el, In el els -> el_id el <> JStr id) ->
      List.filter (fun o => String.eqb (o_id o) id)
        (orphans (buildReport els (groupHits hits)))
      = List.map (orphanOf id) (hitsFor id hits)) /\
  (forall (els : list BpmnEl) (hits : list (string * TestHit)),
      orphans (buildReport els (groupHits hits))
      = List.flat_map (fun id => List.map (orphanOf id) (hitsFor id hits))
          (List.filter (fun id => negb (setHas (allIds els) id))
             (JsMap.keys (groupHits hits)))) /\
  (forall h : TestHit,
      buildReport [] (groupHits [("X", h)])
      = mkReport [] [mkOrphan "X" (file h) (line h) (title h)]).
Proof.
  split; [|split].
  - intros els hits id K U. unfold buildReport. simpl.
    rewrite orphansOf_filter
      by (apply NoDup_filter, keys_groupHits_NoDup).
    assert (In id (List.filter (fun id0 => negb (setHas (allIds els) id0))
                     (JsMap.keys (groupHits hits)))) as F.
    { apply filter_In. split; [assumption|].
      apply negb_true_iff. destruct (setHas (allIds els) id) eqn:S; [|reflexivity].
      apply setHas_true in S as [el [I E]]. now apply U in I. }
    assert (List.existsb (String.eqb id)
              (List.filter (fun id0 => negb (setHas (allIds els) id0))
                 (JsMap.keys (groupHits hits))) = true) as ->.
    { apply existsb_exists. exists id. split; [exact F | apply String.eqb_refl]. }
    rewrite get_groupHits. now destruct (hitsFor id hits).
  - intros els hits. unfold buildReport, orphansOf. simpl.
    apply flat_map_ext. intros id. rewrite get_groupHits.
    now destruct (hitsFor id hits).
  - intros h. reflexivity.
Qed.

Lemma C3_witness :
  let el := mkEl (JStr "A") "bpmn:task" (JStr "") emptyMeta in
  let h1 := mkHit "tests/a.spec.ts" 1 "first" in
  let h2 := mkHit "tests/b.spec.ts" 4 "" in
  let hits := [("X", h1); ("A", h1); ("X", h2)] in
  List.filter (fun o => String.eqb (o_id o) "X")
    (orphans (buildReport [el] (groupHits hits)))
  = [orphanOf "X" h1; orphanOf "X" h2].
Proof.
  apply (proj1 C3_orphans_per_unmatched_id
           [mkEl (JStr "A") "bpmn:task" (JStr "") emptyMeta]
           [("X", mkHit "tests/a.spec.ts" 1 "first");
            ("A", mkHit "tests/a.spec.ts" 1 "first");
            ("X", mkHit "tests/b.spec.ts" 4 "")] "X").
  - simpl. left. reflexivity.
  - intros el [<-|[]]. discriminate.
Defined.

(** C10.  Nodes that share an [id].  The report has one row per node, in
    the order of the nodes; the row of a node has the node's [id], and its
    [tests] cell and its status are made from the whole group of hits for
    that [id].  So when two nodes share an [id], both have their row, and
    every hit for that [id] stands in the [tests] cell of both rows: the
    two cells are equal and both rows are [Covered]. *)
Theorem C10_duplicate_ids_share_hits :
  (forall (els : list BpmnEl) (hits : list (string * TestHit)),
      let report := buildReport els (groupHits hits) in
      List.length (rows report) = List.length els /\
      (forall i el,
          nth_error els i = Some el ->
          exists row,
            nth_error (rows report) i = Some row /\
            r_id row = el_id el /\
            forall id,
              el_id el = JStr id ->
              r_tests row = testsCell (hitsFor id hits) /\
              (r_coverage row = "Covered" <-> hitsFor id hits <> [])) /\
      (forall i j el1 el2 id h,
          i <> j ->
          nth_error els i = Some el1 -> nth_error els j = Some el2 ->
          el_id el1 = JStr id -> el_id el2 = JStr id ->
          In (id, h) hits ->
          exists row1 row2 before after,
            nth_error (rows report) i = Some row1 /\
            nth_error (rows report) j = Some row2 /\
            r_id row1 = JStr id /\ r_id row2 = JStr id /\
            hitsFor id hits = before ++ h :: after /\
            r_tests row1
            = join " | " (List.map hitText before
                          ++ hitText h :: List.map hitText after) /\
            r_tests row2 = r_tests row1 /\
            r_coverage row1 = "Covered" /\ r_coverage row2 = "Covered")) /\
  rows (buildReport
          [mkEl (JStr "A") "bpmn:task" (JStr "first") emptyMeta;
           mkEl (JStr "A") "bpmn:userTask" (JStr "second") emptyMeta]
          (groupHits [("A", mkHit "tests/a.spec.ts" 1 "pays");
                      ("A", mkHit "tests/b.spec.ts" 2 "")]))
  = [mkRow (JStr "A") (JStr "first") "task" "" "" "" "" ""
       "tests/a.spec.ts#pays | tests/b.spec.ts" "Covered";
     mkRow (JStr "A") (JStr "second") "userTask" "" "" "" "" ""
       "tests/a.spec.ts#pays | tests/b.spec.ts" "Covered"].
Proof.
  split; [|reflexivity].
  intros els hits report. split; [|split].
  - unfold report, buildReport. cbn [rows]. apply length_map.
  - intros i el E. exists (buildRow (groupHits hits) el).
    split; [now apply rows_nth|]. split; [reflexivity|].
    intros id Eid. destruct (buildRow_tests hits el id Eid) as [T C].
    split; [exact T|]. rewrite C.
    destruct (hitsFor id hits); split; congruence.
  - intros i j el1 el2 id h _ E1 E2 I1 I2 I.
    destruct (buildRow_tests hits el1 id I1) as [T1 C1].
    destruct (buildRow_tests hits el2 id I2) as [T2 C2].
    destruct (in_split h (hitsFor id hits)) as [before [after Sp]];
      [now apply hitsFor_in|].
    exists (buildRow (groupHits hits) el1), (buildRow (groupHits hits) el2),
      before, after.
    split; [now apply rows_nth|]. split; [now apply rows_nth|].
    split; [exact I1|]. split; [exact I2|]. split; [exact Sp|].
    split; [|split; [congruence|]].
    + rewrite T1. unfold testsCell. now rewrite Sp, map_app.
    + rewrite C1, C2, Sp. now destruct before.
Qed.

Lemma C10_witness :
  let a1 := mkEl (JStr "A") "bpmn:task" (JStr "first") emptyMeta in
  let a2 := mkEl (JStr "A") "bpmn:userTask" (JStr "second") emptyMeta in
  let h := mkHit "tests/a.spec.ts" 1 "pays" in
  let report := buildReport [a1; a2] (groupHits [("A", h)]) in
  exists row1 row2 before after,
    nth_error (rows report) 0 = Some row1 /\
    nth_error (rows report) 1 = Some row2 /\
    r_id row1 = JStr "A" /\ r_id row2 = JStr "A" /\
    hitsFor "A" [("A", h)] = before ++ h :: after /\
    r_tests row1
    = join " | " (List.map hitText before
                  ++ hitText h :: List.map hitText after) /\
    r_tests row2 = r_tests row1 /\
    r_coverage row1 = "Covered" /\ r_coverage row2 = "Covered".
Proof.
  apply (proj2 (proj2 (proj1 C10_duplicate_ids_share_hits
           [mkEl (JStr "A") "bpmn:task" (JStr "first") emptyMeta;
            mkEl (JStr "A") "bpmn:userTask" (JStr "second") emptyMeta]
           [("A", mkHit "tests/a.spec.ts" 1 "pays")]))
         0 1 (mkEl (JStr "A") "bpmn:task" (JStr "first") emptyMeta)
         (mkEl (JStr "A") "bpmn:userTask" (JStr "second") emptyMeta)
         "A" (mkHit "tests/a.spec.ts" 1 "pays"));
    try reflexivity.
  - discriminate.
  - cbn. left. reflexivity.
Defined.


(** ** Strings *)

Section StringFacts.
Implicit Types (s p r : string) (c a : ascii).

Lemma append_assoc s p r : ((s ++ p) ++ r = s ++ (p ++ r))%string.
Proof. induction s; simpl; congruence. Qed.

Lemma append_nil_r s : (s ++ "" = s)%string.
Proof. induction s; simpl; congruence. Qed.

Lemma length_append s p :
  String.length (s ++ p) = String.length s + String.length p.
Proof. induction s; simpl; congruence. Qed.

Lemma drop_append p s : drop (String.length p) (p ++ s) = s.
Proof. induction p; simpl; auto. Qed.

Lemma take_append p s : take (String.length p) (p ++ s) = p.
Proof. induction p; simpl; [now destruct s | congruence]. Qed.

Lemma take_0 s : take 0 s = "".
Proof. now destruct s. Qed.

Lemma drop_past s n : String.length s <= n -> drop n s = "".
Proof.
  revert n. induction s as [|a s IH]; intros [|n] L; simpl in *;
    try reflexivity; try lia. apply IH. lia.
Qed.

Lemma take_S_drop s n a r :
  drop n s = String a r -> take (S n) s = (take n s ++ String a "")%string.
Proof.
  revert n. induction s as [|b s IH]; intros [|n] E; simpl in E;
    try discriminate.
  - inversion E. subst. change (String a (take 0 r) = String a "").
    now rewrite take_0.
  - change (String b (take (S n) s) = String b (take n s ++ String a "")%string).
    f_equal. now apply IH.
Qed.

Lemma countChar_append c s p :
  countChar c (s ++ p) = countChar c s + countChar c p.
Proof. induction s; simpl; [reflexivity | rewrite IHs; lia]. Qed.

Lemma lacks_append c s p : lacks c (s ++ p) <-> lacks c s /\ lacks c p.
Proof. unfold lacks. rewrite countChar_append. lia. Qed.

Lemma lacks_cons c a s :
  lacks c (String a s) <-> Ascii.eqb a c = false /\ lacks c s.
Proof.
  unfold lacks. simpl. destruct (Ascii.eqb a c); split;
    try lia; intros [? ?]; try discriminate; assumption.
Qed.

Lemma length_matchesOfChar c s :
  List.length (matchesOfChar c s) = countChar c s.
Proof.
  induction s as [|a s IH]; simpl; [reflexivity|].
  destruct (Ascii.eqb a c); simpl; congruence.
Qed.

Lemma stripPrefix_some p s r : stripPrefix p s = Some r -> s = (p ++ r)%string.
Proof.
  revert s. induction p as [|a p IH]; intros [|b s] E; simpl in *;
    try congruence.
  destruct (Ascii.eqb_spec a b); [|discriminate].
  subst. f_equal. now apply IH.
Qed.

Lemma stripPrefix_append p r : stripPrefix p (p ++ r) = Some r.
Proof.
  induction p as [|a p IH]; simpl; [now destruct r|].
  now rewrite Ascii.eqb_refl.
Qed.

Lemma spanNot_some c s run rest :
  spanNot c s = (run, rest) ->
  s = (run ++ rest)%string /\ lacks c run /\
  (rest = "" \/ exists rest', rest = String c rest').
Proof.
  revert run rest. induction s as [|a s IH]; intros run rest E; simpl in E.
  - inversion E. repeat split. now left.
  - destruct (Ascii.eqb_spec a c) as [->|N].
    + inversion E. repeat split. right. eauto.
    + destruct (spanNot c s) as [run' rest']. inversion E. subst.
      destruct (IH run' rest eq_refl) as [-> [L R]].
      repeat split; [|assumption].
      apply lacks_cons. split; [|assumption].
      now destruct (Ascii.eqb_spec a c).
Qed.

Lemma spanNot_append c run rest :
  lacks c run -> spanNot c (run ++ String c rest) = (run, String c rest).
Proof.
  induction run as [|a run IH]; simpl; intros L.
  - now rewrite Ascii.eqb_refl.
  - apply lacks_cons in L as [-> L]. now rewrite IH.
Qed.

End StringFacts.

(** ** Line numbers *)

Section LineFacts.

(** [lastIndexOf] finds nothing when the character does not occur among
    the positions looked at; otherwise it returns the position of the last
    occurrence, which has one occurrence less before it. *)
Lemma lastIndexOfFrom_spec c s : forall pos fromIndex found,
  let n := S fromIndex - pos in
  (countChar c (take n s) = 0 /\
   lastIndexOfFrom c s pos fromIndex found = found) \/
  (exists k,
      lastIndexOfFrom c s pos fromIndex found = Z.of_nat (pos + k) /\
      k < String.length s /\
      S (countChar c (take k s)) = countChar c (take n s)).
Proof.
  induction s as [|a s IH]; intros pos fromIndex found n; simpl.
  - left. subst n. now destruct (S fromIndex - pos).
  - destruct (Nat.ltb_spec fromIndex pos) as [L|L].
    + left. replace n with 0 by (subst n; lia). auto.
    + replace n with (S (S fromIndex - S pos)) by (subst n; lia). simpl.
      destruct (IH (S pos) fromIndex
                  (if Ascii.eqb a c then Z.of_nat pos else found))
        as [[C E]|[k [E [K C]]]]; rewrite E; simpl in C.
      * destruct (Ascii.eqb a c) eqn:B.
        -- right. exists 0. rewrite Nat.add_0_r. simpl. repeat split; lia.
        -- left. split; [simpl; lia | reflexivity].
      * right. exists (S k). simpl. replace (pos + S k) with (S pos + k) by lia.
        repeat split; lia.
Qed.

(** The line number the scanner computes: the number of newline characters
    up to the offset, and [1] when there is none. *)
Lemma lineOf_max text index :
  lineOf text index = Nat.max 1 (countChar LF (take (S index) text)).
Proof.
  unfold lineOf, lastIndexOf.
  destruct (lastIndexOfFrom_spec LF text 0 index (-1)%Z) as [[C E]|[k [E [K C]]]];
    rewrite E; rewrite Nat.sub_0_r in *.
  - rewrite C. reflexivity.
  - rewrite Nat.add_0_l in *.
    destruct (Z.eqb_spec (Z.of_nat k) (-1)%Z) as [F|_]; [lia|].
    unfold substring, clampIndex.
    replace (Z.to_nat (Z.min (Z.max 0 0) (Z.of_nat (String.length text)))) with 0 by lia.
    replace (Z.to_nat (Z.min (Z.max (Z.of_nat k) 0) (Z.of_nat (String.length text))))
      with k by lia.
    rewrite Nat.max_0_l, Nat.min_0_l, Nat.sub_0_r. simpl drop.
    unfold matchGlobalChar.
    pose proof (length_matchesOfChar LF (take k text)) as Len.
    destruct (matchesOfChar LF (take k text)) as [|x l] eqn:M;
      simpl List.length in *; rewrite <- C; lia.
Qed.

Lemma lineOf_at_bracket text index a r :
  drop index text = String a r -> Ascii.eqb a LF = false ->
  lineOf text index = Nat.max 1 (newlinesBefore text index).
Proof.
  intros D N. rewrite lineOf_max, (take_S_drop _ _ _ _ D).
  unfold newlinesBefore. rewrite countChar_append.
  change (countChar LF (String a "")) with ((if Ascii.eqb a LF then 1 else 0) + 0).
  rewrite N. f_equal. lia.
Qed.

End LineFacts.

(** ** The marker pattern and the scan loop *)

Section ScanFacts.
Implicit Types (s text rest gap id post : string) (m : RegExpMatch).

Lemma drop_drop s a b : drop (a + b) s = drop b (drop a s).
Proof.
  revert s. induction a as [|a IH]; intros s; simpl.
  - now destruct s; destruct b.
  - destruct s; [now destruct b | apply IH].
Qed.

Lemma length_drop s n : String.length (drop n s) = String.length s - n.
Proof.
  revert n. induction s as [|a s IH]; intros [|n]; simpl; auto.
Qed.

Lemma marker_cons id :
  marker id = String bracket ("bpmn:" ++ id ++ String markerClose "").
Proof. reflexivity. Qed.

Lemma length_marker id : String.length (marker id) = 7 + String.length id.
Proof.
  unfold marker. rewrite !length_append. simpl. lia.
Qed.

Lemma matchMarkerAt_some s id :
  matchMarkerAt s = Some id ->
  exists rest, s = (marker id ++ rest)%string /\
               nonEmpty id = true /\ lacks markerClose id.
Proof.
  unfold matchMarkerAt. intros E.
  destruct (stripPrefix markerOpen s) as [r|] eqn:P; [|discriminate].
  apply stripPrefix_some in P.
  destruct (spanNot markerClose r) as [run rest] eqn:Sp.
  apply spanNot_some in Sp as [-> [L _]].
  destruct run as [|a run]; [discriminate|].
  destruct rest as [|c rest]; [discriminate|].
  destruct (Ascii.eqb_spec c markerClose) as [->|]; [|discriminate].
  inversion E. subst id. exists rest. repeat split; [|assumption].
  subst s. unfold marker. now rewrite !append_assoc.
Qed.

Lemma matchMarkerAt_marker id rest :
  nonEmpty id = true -> lacks markerClose id ->
  matchMarkerAt (marker id ++ rest) = Some id.
Proof.
  intros N L. unfold matchMarkerAt, marker.
  rewrite !append_assoc, stripPrefix_append.
  change (String markerClose "" ++ rest)%string with (String markerClose rest).
  rewrite (spanNot_append _ _ _ L).
  destruct id; [discriminate|]. now rewrite Ascii.eqb_refl.
Qed.

Lemma matchMarkerAt_other a s :
  Ascii.eqb a bracket = false -> matchMarkerAt (String a s) = None.
Proof.
  intros N. unfold matchMarkerAt.
  assert (stripPrefix markerOpen (String a s) = None) as ->; [|reflexivity].
  change markerOpen with (String bracket "bpmn:").
  rewrite Ascii.eqb_sym in N. generalize dependent bracket.
  intros b N. simpl. now rewrite N.
Qed.

Lemma execFrom_some s pos m :
  execFrom s pos = Some m ->
  exists k rest,
    m_index m = pos + k /\
    drop k s = (marker (m_id m) ++ rest)%string /\
    m_all m = marker (m_id m) /\
    nonEmpty (m_id m) = true /\ lacks markerClose (m_id m).
Proof.
  revert pos. induction s as [|a s IH]; intros pos E; simpl in E;
    [discriminate|].
  destruct (matchMarkerAt (String a s)) as [id|] eqn:Mt.
  - inversion E. subst m. simpl.
    apply matchMarkerAt_some in Mt as [rest [Es [N L]]].
    exists 0, rest. rewrite Nat.add_0_r. repeat split; assumption.
  - apply IH in E as [k [rest [I [D R]]]].
    exists (S k), rest. split; [lia | split; assumption].
Qed.

(** A successful [exec]: the match starts at or after [lastIndex], the
    text holds the marker there, and the match ends inside the text. *)
Lemma exec_some text lastIndex m :
  exec text lastIndex = Some m ->
  lastIndex <= m_index m /\
  (exists rest, drop (m_index m) text = (marker (m_id m) ++ rest)%string) /\
  m_all m = marker (m_id m) /\
  nonEmpty (m_id m) = true /\ lacks markerClose (m_id m) /\
  nextIndex m <= String.length text.
Proof.
  unfold exec. intros E.
  apply execFrom_some in E as [k [rest [I [D [A [N L]]]]]].
  rewrite <- drop_drop, <- I in D.
  repeat split; try assumption; [lia | eauto |].
  unfold nextIndex. rewrite A.
  pose proof (length_drop text (m_index m)) as Len.
  rewrite D, length_append in Len. rewrite length_marker in *. lia.
Qed.

(** The loop does not run out of rounds: beyond what is left of the text,
    more fuel changes nothing. *)
Lemma execLoop_fuel text : forall f1 f2 lastIndex,
  String.length text - lastIndex < f1 ->
  String.length text - lastIndex < f2 ->
  execLoop f1 text lastIndex = execLoop f2 text lastIndex.
Proof.
  induction f1 as [|f1 IH]; intros [|f2] lastIndex L1 L2; try lia.
  simpl. destruct (exec text lastIndex) as [m|] eqn:E; [|reflexivity].
  f_equal. apply exec_some in E as [Lo [_ [A [_ [_ Hi]]]]].
  assert (lastIndex < nextIndex m).
  { unfold nextIndex. rewrite A, length_marker. lia. }
  apply IH; lia.
Qed.

Lemma execLoop_sound fuel text : forall lastIndex m,
  In m (execLoop fuel text lastIndex) ->
  (exists rest, drop (m_index m) text = (marker (m_id m) ++ rest)%string) /\
  m_all m = marker (m_id m) /\
  nonEmpty (m_id m) = true /\ lacks markerClose (m_id m).
Proof.
  induction fuel as [|fuel IH]; intros lastIndex m I; simpl in I;
    [destruct I|].
  destruct (exec text lastIndex) as [m0|] eqn:E; [|destruct I].
  destruct I as [<-|I].
  - apply exec_some in E. tauto.
  - eapply IH, I.
Qed.

Lemma execFrom_skip gap s pos :
  lacks bracket gap ->
  execFrom (gap ++ s) pos = execFrom s (pos + String.length gap).
Proof.
  revert pos. induction gap as [|a gap IH]; intros pos L; simpl.
  - now rewrite Nat.add_0_r.
  - apply lacks_cons in L as [N L].
    rewrite (matchMarkerAt_other _ _ N), IH by assumption.
    f_equal. lia.
Qed.

Lemma exec_at p s : exec (p ++ s) (String.length p) = execFrom s (String.length p).
Proof. unfold exec. now rewrite drop_append. Qed.

Lemma execFrom_marker id rest pos :
  nonEmpty id = true -> lacks markerClose id ->
  execFrom (marker id ++ rest) pos = Some (mkMatch pos (marker id) id).
Proof.
  intros N L. destruct (marker id ++ rest)%string as [|a s] eqn:E.
  - rewrite marker_cons in E. discriminate.
  - cbn [execFrom]. rewrite <- E, (matchMarkerAt_marker _ _ N L). reflexivity.
Qed.

(** On a text made of gaps and markers the loop finds every marker, once
    and in order. *)
Lemma execLoop_textOf items post : forall p fuel,
  Forall okItem items -> lacks bracket post ->
  List.length items < fuel ->
  execLoop fuel (p ++ textOf items post) (String.length p)
  = matchesOf (String.length p) items.
Proof.
  induction items as [|[gap id] items IH]; intros p fuel Ok Lp F;
    destruct fuel as [|fuel]; simpl in F; try lia;
    cbn [execLoop textOf matchesOf].
  - rewrite exec_at. rewrite <- (append_nil_r post).
    rewrite execFrom_skip by assumption. reflexivity.
  - inversion Ok as [|? ? [Lg [N Lc]] Ok']; subst. cbn [fst snd] in *.
    rewrite exec_at, execFrom_skip by assumption.
    rewrite (execFrom_marker _ _ _ N Lc).
    f_equal. unfold nextIndex. cbn [m_index m_all].
    specialize (IH (p ++ gap ++ marker id)%string fuel Ok' Lp).
    rewrite !append_assoc, !length_append in IH.
    rewrite Nat.add_assoc in IH. apply IH. lia.
Qed.

Lemma length_textOf items post :
  7 * List.length items <= String.length (textOf items post).
Proof.
  induction items as [|[gap id] items IH]; cbn [textOf List.length]; [lia|].
  rewrite !length_append, length_marker. lia.
Qed.

Lemma allMatches_textOf items post :
  Forall okItem items -> lacks bracket post ->
  allMatches (textOf items post) = matchesOf 0 items.
Proof.
  intros Ok Lp. unfold allMatches.
  apply (execLoop_textOf items post "" _ Ok Lp).
  pose proof (length_textOf items post). lia.
Qed.

(** Markers that follow each other without a newline between them have
    the same number of newlines before them. *)
Lemma matchesOf_newlines items post : forall p m,
  In m (matchesOf (String.length p) items) ->
  Forall (fun it => lacks LF (fst it) /\ lacks LF (snd it)) items ->
  newlinesBefore (p ++ textOf items post) (m_index m) = countChar LF p.
Proof.
  induction items as [|[gap id] items IH]; intros p m I Nl; simpl in I;
    [destruct I|].
  inversion Nl as [|? ? [Lg Li] Nl']; subst. simpl in Lg, Li.
  destruct I as [<-|I].
  - cbn [textOf m_index]. unfold newlinesBefore.
    rewrite <- length_append, <- append_assoc, take_append, countChar_append.
    unfold lacks in Lg. lia.
  - specialize (IH (p ++ gap ++ marker id)%string m).
    rewrite !append_assoc, !length_append, Nat.add_assoc in IH.
    cbn [textOf]. rewrite (IH I Nl'), !countChar_append.
    unfold lacks in *. unfold marker. rewrite !countChar_append.
    simpl. lia.
Qed.

Lemma matchesOf_bracket items post : forall p m,
  In m (matchesOf (String.length p) items) ->
  exists rest,
    drop (m_index m) (p ++ textOf items post)
    = String bracket rest /\ m_all m = marker (m_id m).
Proof.
  induction items as [|[gap id] items IH]; intros p m I; simpl in I;
    [destruct I|].
  destruct I as [<-|I].
  - cbn [textOf m_index m_all m_id].
    rewrite <- length_append, <- append_assoc, drop_append.
    rewrite marker_cons. simpl. eauto.
  - specialize (IH (p ++ gap ++ marker id)%string m).
    rewrite !append_assoc, !length_append, Nat.add_assoc in IH.
    apply IH, I.
Qed.

Lemma execFrom_first s : forall pos k id,
  matchMarkerAt (drop k s) = Some id ->
  exists m, execFrom s pos = Some m /\ m_index m <= pos + k /\
            (m_index m = pos + k -> m_id m = id).
Proof.
  induction s as [|a s IH]; intros pos k id E.
  - destruct k; discriminate E.
  - cbn [execFrom]. destruct k as [|k].
    + cbn [drop] in E. rewrite E. eexists. split; [reflexivity|].
      cbn. split; [lia | reflexivity].
    + cbn [drop] in E.
      destruct (matchMarkerAt (String a s)) as [id0|].
      * eexists. split; [reflexivity|]. cbn. split; lia.
      * destruct (IH (S pos) k id E) as [m [X [Le Eq]]].
        exists m. split; [assumption|]. split; [lia|].
        intros I. apply Eq. lia.
Qed.

Lemma exec_first text lastIndex i id :
  lastIndex <= i -> matchMarkerAt (drop i text) = Some id ->
  exists m, exec text lastIndex = Some m /\ m_index m <= i /\
            (m_index m = i -> m_id m = id).
Proof.
  intros L E. unfold exec.
  replace i with (lastIndex + (i - lastIndex)) in E by lia.
  rewrite drop_drop in E.
  destruct (execFrom_first _ lastIndex _ _ E) as [m [X [Le Eq]]].
  exists m. split; [assumption|]. split; [lia|]. intros I. apply Eq. lia.
Qed.

(** The loop misses no marker: a marker of the text is the match of some
    round, unless it starts inside the match of a round. *)
Lemma execLoop_complete text : forall fuel lastIndex i id,
  String.length text - lastIndex < fuel -> lastIndex <= i ->
  matchMarkerAt (drop i text) = Some id ->
  (exists m, In m (execLoop fuel text lastIndex) /\
             m_index m = i /\ m_id m = id) \/
  (exists m, In m (execLoop fuel text lastIndex) /\
             m_index m < i < nextIndex m).
Proof.
  induction fuel as [|fuel IH]; intros lastIndex i id F L E; [lia|].
  destruct (exec_first text lastIndex i id L E) as [m [X [Le Eq]]].
  cbn [execLoop]. rewrite X.
  pose proof (exec_some _ _ _ X) as [Lo [_ [A [_ [_ Hi]]]]].
  assert (lastIndex < nextIndex m)
    by (unfold nextIndex; rewrite A, length_marker; lia).
  destruct (Nat.eq_dec (m_index m) i) as [Ei|Ne].
  - left. exists m. split; [now left | auto].
  - destruct (Nat.lt_ge_cases i (nextIndex m)) as [In_|Out].
    + right. exists m. split; [now left | lia].
    + destruct (IH (nextIndex m) i id) as [[m' [I R]]|[m' [I R]]];
        try assumption; try lia.
      * left. exists m'. split; [now right | assumption].
      * right. exists m'. split; [now right | assumption].
Qed.

Lemma execLoop_separated text : forall fuel lastIndex,
  separated lastIndex (execLoop fuel text lastIndex).
Proof.
  induction fuel as [|fuel IH]; intros lastIndex; cbn [execLoop]; [exact I|].
  destruct (exec text lastIndex) as [m|] eqn:X; [|exact I].
  cbn [separated]. split; [|apply IH].
  now apply exec_some in X.
Qed.

End ScanFacts.

Section ScanLines.

Lemma matchesOf_ids pos items :
  List.map m_id (matchesOf pos items) = List.map snd items.
Proof.
  revert pos. induction items as [|[gap id] items IH]; intros pos;
    cbn [matchesOf List.map]; [reflexivity|].
  now rewrite IH.
Qed.

Lemma countChar_marker id : lacks LF id -> countChar LF (marker id) = 0.
Proof.
  intros L. unfold marker. rewrite !countChar_append.
  unfold lacks in L. rewrite L. reflexivity.
Qed.

(** The line number of a match of the scan: the newlines before it,
    and [1] when there is none. *)
Lemma allMatches_line text m :
  In m (allMatches text) ->
  lineOf text (m_index m) = Nat.max 1 (newlinesBefore text (m_index m)).
Proof.
  intros I. apply execLoop_sound in I as [[rest D] _].
  rewrite marker_cons in D. simpl in D.
  eapply lineOf_at_bracket; [exact D | reflexivity].
Qed.

Lemma scanText_in file titles text id hit :
  In (id, hit) (scanText file titles text) ->
  exists m, In m (allMatches text) /\ m_id m = id /\
            m_all m = marker id /\
            hit = mkHit file (lineOf text (m_index m))
                    (findTitle titles (marker id)).
Proof.
  unfold scanText. rewrite in_map_iff. intros [m [E I]].
  unfold hitOf in E. inversion E. subst id.
  pose proof (execLoop_sound _ _ _ _ I) as [_ [A _]].
  exists m. rewrite A. auto.
Qed.

End ScanLines.

(** C5.  Line numbers.  The line the scanner records for a marker is the
    number of newline characters before the marker, except that it is [1]
    when there is none: it is one more than the number of newlines only for
    the markers of the first line.  For the marker of the second line of a
    text the scanner records line [1] where the 1-based numbering gives
    [2]. *)
Theorem C5_line_number_of_hit :
  (forall (file : string) (titles : list string) (text : string)
          (m : RegExpMatch),
      In m (allMatches text) ->
      line (snd (hitOf file titles text m))
      = Nat.max 1 (newlinesBefore text (m_index m)) /\
      (line (snd (hitOf file titles text m)) = lineSpec text (m_index m) <->
       newlinesBefore text (m_index m) = 0)) /\
  (let text := String LF "[bpmn:A]" in
   scanText "tests/a.spec.ts" [] text = [("A", mkHit "tests/a.spec.ts" 1 "")] /\
   List.map m_index (allMatches text) = [1] /\
   lineSpec text 1 = 2).
Proof.
  split.
  - intros file titles text m I. cbn [hitOf snd line].
    rewrite (allMatches_line _ _ I). unfold lineSpec. split; [reflexivity | lia].
  - repeat split.
Qed.

Lemma C5_witness :
  let text := ("// first line" ++ String LF "test('pays [bpmn:Pay]', () => {})")%string in
  exists m, In m (allMatches text) /\
    line (snd (hitOf "tests/pay.spec.ts" [] text m)) = 1 /\
    lineSpec text (m_index m) = 2.
Proof.
  exists (mkMatch 25 "[bpmn:Pay]" "Pay").
  assert (I : In (mkMatch 25 "[bpmn:Pay]" "Pay")
                (allMatches ("// first line" ++
                   String LF "test('pays [bpmn:Pay]', () => {})")%string))
    by (vm_compute; left; reflexivity).
  split; [exact I|].
  destruct (proj1 C5_line_number_of_hit "tests/pay.spec.ts" []
              ("// first line" ++ String LF "test('pays [bpmn:Pay]', () => {})")%string
              (mkMatch 25 "[bpmn:Pay]" "Pay") I) as [E _].
  split; [rewrite E; reflexivity | reflexivity].
Defined.

(** The text [[bpmn:[bpmn:A]] holds two markers, one at its start with the
    identifier [[bpmn:A] and one at offset 6 with the identifier [A]; the
    scan gives one hit, for the first: the second marker starts inside the
    first match. *)
Lemma C6_counterexample :
  ~ (forall (file : string) (titles : list string) (text : string)
            (offset : nat) (id : string),
        markerAt text offset id ->
        exists hit, In (id, hit) (scanText file titles text)).
Proof.
  intros H.
  destruct (H "tests/a.spec.ts" [] "[bpmn:[bpmn:A]" 6 "A") as [hit I].
  - exists "". repeat split.
  - cbn in I. destruct I as [E|[]]. discriminate E.
Qed.

(** C6 (as the code has it).  Every hit of a scan comes from a place of the
    text that holds [[bpmn:<id>]] with [<id>] a non-empty run of characters
    other than []].  In a text made of markers with no other [[] around
    them, every marker gives one hit, in the order of the text; markers with
    no newline between them get the same line number.  In particular
    [[bpmn:A][bpmn:B]] gives two hits, [A] then [B], both on line 1.  In any
    text the matches go from left to right without overlap, and a marker of
    the text is one of them unless it starts inside one of them (inside the
    identifier of an earlier marker). *)
Theorem C6_one_hit_per_marker :
  (forall (file : string) (titles : list string) (text id : string)
          (hit : TestHit),
      In (id, hit) (scanText file titles text) ->
      exists offset rest,
        drop offset text = (marker id ++ rest)%string /\
        nonEmpty id = true /\ lacks markerClose id /\
        hit = mkHit file (lineOf text offset) (findTitle titles (marker id))) /\
  (forall (file : string) (titles : list string)
          (items : list (string * string)) (post : string),
      Forall okItem items -> lacks bracket post ->
      List.map fst (scanText file titles (textOf items post))
      = List.map snd items) /\
  (forall (file : string) (titles : list string) (gap id : string)
          (items : list (string * string)) (post : string),
      Forall okItem ((gap, id) :: items) -> lacks bracket post ->
      lacks LF id ->
      Forall (fun it => lacks LF (fst it) /\ lacks LF (snd it)) items ->
      scanText file titles (textOf ((gap, id) :: items) post)
      = List.map
          (fun it => (snd it,
                      mkHit file (Nat.max 1 (countChar LF gap))
                        (findTitle titles (marker (snd it)))))
          ((gap, id) :: items)) /\
  (forall (file : string) (titles : list string),
      scanText file titles "[bpmn:A][bpmn:B]"
      = [("A", mkHit file 1 (findTitle titles "[bpmn:A]"));
         ("B", mkHit file 1 (findTitle titles "[bpmn:B]"))]) /\
  (forall (text : string) (offset : nat) (id : string),
      markerAt text offset id ->
      (exists m, In m (allMatches text) /\
                 m_index m = offset /\ m_id m = id) \/
      (exists m, In m (allMatches text) /\
                 m_index m < offset < nextIndex m)) /\
  (forall text : string, separated 0 (allMatches text)).
Proof.
  split; [|split; [|split; [|split; [|split]]]].
  - intros file titles text id hit I.
    apply scanText_in in I as [m [I [<- [A ->]]]].
    apply execLoop_sound in I as [[rest D] [_ [N L]]].
    exists (m_index m), rest. auto.
  - intros file titles items post Ok Lp. unfold scanText.
    rewrite (allMatches_textOf _ _ Ok Lp), map_map.
    cbn [hitOf fst]. apply matchesOf_ids.
  - intros file titles gap id items post Ok Lp Li Nl. unfold scanText.
    rewrite (allMatches_textOf _ _ Ok Lp).
    rewrite <- (map_map snd
                  (fun i => (i, mkHit file (Nat.max 1 (countChar LF gap))
                                  (findTitle titles (marker i))))).
    rewrite <- (matchesOf_ids 0 ((gap, id) :: items)).
    rewrite map_map. apply map_ext_in. intros m I.
    pose proof (matchesOf_bracket ((gap, id) :: items) post "" m I)
      as [rest [D A]].
    change ("" ++ textOf ((gap, id) :: items) post)%string
      with (textOf ((gap, id) :: items) post) in D.
    unfold hitOf. rewrite A. f_equal. f_equal.
    rewrite (lineOf_at_bracket _ _ _ _ D eq_refl). f_equal.
    cbn [matchesOf] in I. destruct I as [<-|I].
    + cbn [m_index textOf String.length Nat.add]. unfold newlinesBefore.
      now rewrite take_append.
    + cbn [String.length Nat.add] in I. rewrite <- length_append in I.
      cbn [textOf]. rewrite <- append_assoc.
      rewrite (matchesOf_newlines items post _ m I Nl).
      rewrite countChar_append, (countChar_marker _ Li). lia.
  - intros file titles. reflexivity.
  - intros text offset id [rest [D [N L]]].
    apply execLoop_complete; [lia | lia |].
    rewrite D. now apply matchMarkerAt_marker.
  - intros text. apply execLoop_separated.
Qed.

Lemma C6_witness :
  scanText "tests/a.spec.ts" []
    (textOf [("it('", "Task_1"); (" and ", "Task_2")] "', () => {})")
  = [("Task_1", mkHit "tests/a.spec.ts" 1 "");
     ("Task_2", mkHit "tests/a.spec.ts" 1 "")].
Proof.
  apply (proj1 (proj2 (proj2 C6_one_hit_per_marker)) "tests/a.spec.ts" []
           "it('" "Task_1" [(" and ", "Task_2")] "', () => {})").
  - repeat constructor.
  - reflexivity.
  - reflexivity.
  - repeat constructor.
Defined.

(** ** Induction over values *)

Lemma JsValue_induction (P : JsValue -> Prop) :
  P JUndefined -> P JNull ->
  (forall b, P (JBool b)) -> (forall z, P (JNum z)) -> (forall s, P (JStr s)) ->
  (forall items, Forall P items -> P (JArr items)) ->
  (forall entries, Forall (fun e => P (snd e)) entries -> P (JObj entries)) ->
  forall v, P v.
Proof.
  intros Hu Hn Hb Hz Hs Ha Ho.
  fix IH 1. intros [| |b|z|s|items|entries].
  - exact Hu.
  - exact Hn.
  - apply Hb.
  - apply Hz.
  - apply Hs.
  - apply Ha. induction items as [|x items IHi]; constructor;
      [apply IH | exact IHi].
  - apply Ho. induction entries as [|[k x] entries IHe]; constructor;
      [apply IH | exact IHe].
Qed.

(** ** The traversal *)

Section VisitFacts.

Lemma filter_flat_map {A B : Type} (f : B -> bool) (g : A -> list B) l :
  List.filter f (List.flat_map g l)
  = List.flat_map (fun x => List.filter f (g x)) l.
Proof.
  induction l as [|x l IH]; simpl; [reflexivity|].
  now rewrite filter_app, IH.
Qed.

Lemma map_flat_map {A B C : Type} (f : B -> C) (g : A -> list B) l :
  List.map f (List.flat_map g l)
  = List.flat_map (fun x => List.map f (g x)) l.
Proof.
  induction l as [|x l IH]; simpl; [reflexivity|].
  now rewrite map_app, IH.
Qed.

Lemma flat_map_ext_Forall {A B : Type} (f g : A -> list B) l :
  Forall (fun x => f x = g x) l -> List.flat_map f l = List.flat_map g l.
Proof.
  induction 1 as [|x l E _ IH]; simpl; [reflexivity|].
  now rewrite E, IH.
Qed.

(** The output of [visit] is the pre-order list of the element objects,
    cut down to those with a truthy [id]. *)
Lemma visit_preorder node : forall name,
  visit node name
  = List.map elementAt (List.filter (fun p => hasId (snd p)) (preorder node name)).
Proof.
  induction node as [| | | | |items IH|entries IH] using JsValue_induction;
    intros name; try reflexivity.
  - cbn [visit preorder]. rewrite filter_flat_map, map_flat_map.
    apply flat_map_ext_Forall.
    eapply Forall_impl; [|exact IH]. intros n E. apply E.
  - cbn [visit preorder List.filter snd]. unfold hasId at 1.
    assert (List.flat_map
              (fun e => if startsWith (fst e) "@" then []
                        else visit (snd e) (fst e)) entries
            = List.map elementAt
                (List.filter (fun p => hasId (snd p))
                   (List.flat_map
                      (fun e => if startsWith (fst e) "@" then []
                                else preorder (snd e) (fst e)) entries))) as ->.
    { rewrite filter_flat_map, map_flat_map. apply flat_map_ext_Forall.
      eapply Forall_impl; [|exact IH]. intros e E. cbn beta.
      destruct (startsWith (fst e) "@"); [reflexivity | apply E]. }
    destruct (truthy (getProp (JObj entries) "@id")); reflexivity.
Qed.

End VisitFacts.

(** ** The traversal of the task-only script *)

Section WalkFacts.

Lemma lookup_skip_attr k k0 v es :
  isAttrKey k = true -> isAttrKey k0 = false ->
  lookup k0 ((k, v) :: es) = lookup k0 es.
Proof.
  intros A B. cbn [lookup].
  destruct (String.eqb_spec k k0) as [->|]; [congruence | reflexivity].
Qed.

(** A round of [walk] in the words of the script: the node is skipped when
    it has no tag; otherwise it is pushed when it is a task with an [id],
    and [walk] goes on with its [childNodes]. *)
Lemma walkNode_step n :
  walkNode n =
  if nonEmpty (nodeName n)
  then (if isTaskNode n then [taskOf n] else [])
       ++ List.flat_map walkNode (childNodes n)
  else [].
Proof.
  destruct n as [| |b|z|s|items|entries]; try reflexivity;
    try (unfold nodeName, isNode; cbn [typeofObject];
         rewrite andb_false_r; reflexivity).
  - destruct items as [|x items]; [reflexivity|].
    destruct x; cbn [walkNode]; try (now rewrite app_nil_r); reflexivity.
  - cbn [walkNode].
    change (childNodes (JObj entries))
      with (match lookup (nodeName (JObj entries)) entries with
            | JArr children => children
            | _ => []
            end).
    change (nodeName (JObj entries))
      with (match List.find (fun k => negb (isAttrKey k)) (List.map fst entries) with
            | Some k => k
            | None => EmptyString
            end).
    generalize (if isTaskNode (JObj entries) then [taskOf (JObj entries)] else []).
    intros here. induction entries as [|[k v] es IH]; [reflexivity|].
    cbn [List.map fst List.find]. destruct (isAttrKey k) eqn:A; cbn [negb].
    + rewrite IH. destruct (List.find _ (List.map fst es)) as [k0|] eqn:F;
        [|reflexivity].
      destruct (find_some _ _ F) as [_ F']. apply negb_true_iff in F'.
      now rewrite (lookup_skip_attr k k0 v es A F').
    + cbn [lookup]. rewrite String.eqb_refl.
      destruct (nonEmpty k); [|reflexivity]. destruct v; reflexivity.
Qed.

(** The tasks are the task nodes with an [id] among the element nodes, in
    pre-order. *)
Lemma walkNode_elements n :
  walkNode n = List.map taskOf (List.filter isTaskNode (elements n)).
Proof.
  enough (walkNode n = List.map taskOf (List.filter isTaskNode (elements n)) /\
          match n with
          | JArr items =>
              Forall (fun x => walkNode x
                               = List.map taskOf (List.filter isTaskNode (elements x)))
                items
          | _ => True
          end) by tauto.
  induction n as [| | | | |items IH|entries IH] using JsValue_induction;
    try (split; [reflexivity | exact I]).
  - assert (Forall (fun x => walkNode x
                      = List.map taskOf (List.filter isTaskNode (elements x)))
              items) as Kids
      by (eapply Forall_impl; [|exact IH]; cbn beta; tauto).
    split; [|exact Kids].
    destruct items as [|x items]; [reflexivity|].
    inversion IH as [|? ? [_ Hx] _]; subst.
    destruct x; cbn [walkNode elements List.filter List.map];
      try (destruct (isTaskNode _); reflexivity).
    rewrite (flat_map_ext_Forall _ _ _ Hx), <- map_flat_map, <- filter_flat_map.
    destruct (isTaskNode _); reflexivity.
  - split; [|exact I]. cbn [walkNode elements].
    generalize (JObj entries). intros n.
    induction entries as [|[k v] es IHes]; [reflexivity|].
    inversion IH as [|? ? [_ Hv] IH']; subst. cbn [snd] in Hv.
    destruct (isAttrKey k); [now apply IHes|].
    destruct (nonEmpty k); [|reflexivity].
    cbn [List.filter List.map].
    assert (match v with
            | JArr kids => List.flat_map walkNode kids
            | _ => []
            end
            = List.map taskOf
                (List.filter isTaskNode
                   match v with
                   | JArr kids => List.flat_map elements kids
                   | _ => []
                   end)) as ->.
    { destruct v; try reflexivity.
      rewrite filter_flat_map, map_flat_map.
      now apply flat_map_ext_Forall. }
    destruct (isTaskNode n); reflexivity.
Qed.

End WalkFacts.

Lemma Xml_induction (P : Xml -> Prop) :
  (forall tag attrs children, Forall P children ->
     P (Element tag attrs children)) ->
  forall x, P x.
Proof.
  intros H. fix IH 1. intros [tag attrs children]. apply H.
  induction children as [|c children IHc]; constructor; [apply IH | exact IHc].
Qed.

Lemma lookup_attrs name (attrs : list (string * string)) :
  lookup name (List.map (fun a => (fst a, JStr (snd a))) attrs)
  = match attrValue name attrs with
    | Some v => JStr v
    | None => JUndefined
    end.
Proof.
  unfold attrValue. induction attrs as [|[k v] attrs IH]; [reflexivity|].
  cbn [List.map lookup List.find fst snd].
  destruct (String.eqb k name); [reflexivity | exact IH].
Qed.

(** The attributes of an element as the task-only script reads them. *)
Lemma getAttr_ordered tag attrs children name :
  startsWith tag ":@" = false ->
  getAttr (orderedElement (Element tag attrs children)) name
  = match attrValue name attrs with
    | Some v => JStr v
    | None => JUndefined
    end.
Proof.
  intros T. unfold getAttr. cbn [orderedElement isNode truthy typeofObject andb].
  unfold keysOf. cbn [entriesOf List.map fst List.find]. unfold isAttrKey at 1.
  rewrite T. destruct attrs as [|a attrs]; [reflexivity|].
  cbn [List.map fst List.find]. unfold isAttrKey. cbn [startsWith].
  change (startsWith ":@" ":@") with true. cbn iota.
  assert (String.eqb tag ":@" = false) as N
    by (apply String.eqb_neq; intros ->; discriminate T).
  unfold getProp. cbn [entriesOf lookup]. rewrite N.
  change (String.eqb ":@" ":@") with true. cbn iota. cbn [truthy entriesOf].
  apply (lookup_attrs name (a :: attrs)).
Qed.

Lemma nodeName_ordered tag attrs children :
  startsWith tag ":@" = false ->
  nodeName (orderedElement (Element tag attrs children)) = tag.
Proof.
  intros T. unfold nodeName. cbn [orderedElement isNode truthy typeofObject andb].
  unfold keysOf. cbn [entriesOf List.map fst List.find]. unfold isAttrKey.
  now rewrite T.
Qed.

(** The task-only script gives the tasks of a document in document
    order. *)
Lemma walkNode_ordered x :
  wellTagged x = true ->
  walkNode (orderedElement x) = tasksInDocumentOrder x.
Proof.
  induction x as [tag attrs children IH] using Xml_induction. intros W.
  cbn [wellTagged] in W. apply andb_true_iff in W as [W Wc].
  apply andb_true_iff in W as [Wn Wa]. apply negb_true_iff in Wa.
  assert (List.flat_map walkNode (List.map orderedElement children)
          = List.flat_map tasksInDocumentOrder children) as Kids.
  { clear Wn Wa. induction children as [|c children IHc]; [reflexivity|].
    cbn [List.forallb] in Wc. apply andb_true_iff in Wc as [Wc1 Wc2].
    inversion IH as [|? ? H1 H2]; subst.
    cbn [List.map List.flat_map]. now rewrite (H1 Wc1), (IHc H2 Wc2). }
  pose proof (getAttr_ordered tag attrs children "id" Wa) as Gid.
  pose proof (getAttr_ordered tag attrs children "name" Wa) as Gname.
  pose proof (nodeName_ordered tag attrs children Wa) as Nn.
  change (walkNode (orderedElement (Element tag attrs children)))
    with ((fix first (es : list (string * JsValue)) : list Task :=
             match es with
             | [] => []
             | (k, v) :: es' =>
                 if isAttrKey k then first es'
                 else if nonEmpty k then
                   (if isTaskNode (orderedElement (Element tag attrs children))
                    then [taskOf (orderedElement (Element tag attrs children))]
                    else [])
                   ++ match v with
                      | JArr kids => List.flat_map walkNode kids
                      | _ => []
                      end
                 else []
             end)
            ((tag, JArr (List.map orderedElement children))
             :: match attrs with
                | [] => []
                | _ => [(":@",
                         JObj (List.map (fun a => (fst a, JStr (snd a))) attrs))]
                end)).
  cbn iota beta. unfold isAttrKey at 1. rewrite Wa, Wn, Kids.
  cbn [tasksInDocumentOrder]. f_equal.
  unfold isTaskNode, taskOf. rewrite Gid, Gname, Nn.
  destruct (attrValue "id" attrs) as [id|]; [|reflexivity].
  cbn [truthy]. destruct (nonEmpty id && lowerEndsWith (localKey tag) "task");
    [|reflexivity].
  destruct (attrValue "name" attrs) as [name|]; [|reflexivity].
  now destruct name.
Qed.

(** A node whose [id] attribute is the empty string carries an [id]
    attribute, and no element is pushed for it; the task-only script
    pushes nothing for a start event with an [id]; and the elements of the
    report script are not in document order when a sibling of another name
    stands between two siblings of one name. *)
Lemma C4_counterexample :
  ~ (forall (tree : JsValue) (name : string),
        collectBpmnElements tree name
        = List.map elementAt
            (List.filter (fun p => carriesId (snd p)) (preorder tree name))) /\
  ~ (forall n : JsValue,
        walkNode n
        = List.map taskOf (List.filter carriesAttrId (elements n))) /\
  ~ (forall doc : Xml,
        let dom := parsedDocument doc in
        List.map el_id
          (collectBpmnElements
             (or_else (getProp dom "bpmn:definitions")
                (or_else (getProp dom "definitions") dom)) "")
        = List.map JStr (idsInDocumentOrder doc)).
Proof.
  split; [|split]; intros H.
  - specialize (H (JObj [("bpmn:task", JObj [("@id", JStr "")])]) "").
    discriminate H.
  - specialize (H (JObj [("bpmn:startEvent", JArr []);
                         (":@", JObj [("id", JStr "StartEvent_1")])])).
    discriminate H.
  - specialize (H orderDocument). discriminate H.
Qed.

(** C4 (as the code has it).  The extractor pushes exactly one element for
    every object of the tree whose [id] attribute is truthy (a non-empty
    string), and the elements are in the pre-order of the parsed tree: the
    output is the pre-order list of the tree's objects restricted to those
    nodes.  The element of an object comes before everything pushed for
    what is below it, and what is pushed for an earlier entry of an object
    comes before what is pushed for a later one.  That order is not always
    the order of the document: the parser of the report script puts the
    children of one name of an element together, at the place of the first
    of them, so the tasks A and C around a gateway B come as A, C, B.  The
    task-only script pushes one task for every element node with a truthy
    [id] whose tag, without its prefix and in lower case, ends in [task];
    its parser keeps the order of the children, and its tasks are in
    document order. *)
Theorem C4_preorder_extraction :
  (forall (tree : JsValue) (name : string),
      collectBpmnElements tree name
      = List.map elementAt
          (List.filter (fun p => hasId (snd p)) (preorder tree name))) /\
  (forall (entries : list (string * JsValue)) (name : string),
      hasId (JObj entries) = true ->
      exists below,
        collectBpmnElements (JObj entries) name
        = elementOf (JObj entries) name :: below /\
        forall k v, In (k, v) entries -> startsWith k "@" = false ->
                    incl (collectBpmnElements v k) below) /\
  (forall (es1 es2 es3 : list (string * JsValue)) (k1 k2 name : string)
          (v1 v2 : JsValue),
      startsWith k1 "@" = false -> startsWith k2 "@" = false ->
      exists a b c,
        collectBpmnElements
          (JObj (es1 ++ (k1, v1) :: es2 ++ (k2, v2) :: es3)) name
        = a ++ collectBpmnElements v1 k1 ++ b ++ collectBpmnElements v2 k2 ++ c) /\
  (forall n : JsValue,
      walkNode n = List.map taskOf (List.filter isTaskNode (elements n))) /\
  (forall n : JsValue,
      walkNode n =
      if nonEmpty (nodeName n)
      then (if isTaskNode n then [taskOf n] else [])
           ++ List.flat_map walkNode (childNodes n)
      else []) /\
  (forall doc : Xml,
      wellTagged doc = true ->
      walk (orderedDocument doc) = Some (tasksInDocumentOrder doc)) /\
  (let dom := parsedDocument orderDocument in
   List.map el_id
     (collectBpmnElements
        (or_else (getProp dom "bpmn:definitions")
           (or_else (getProp dom "definitions") dom)) "")
   = List.map JStr ["D"; "P"; "A"; "C"; "B"; "U"; "E"]) /\
  idsInDocumentOrder orderDocument = ["D"; "P"; "A"; "B"; "U"; "C"; "E"] /\
  List.map t_id (tasksInDocumentOrder orderDocument)
  = List.map JStr ["A"; "U"; "C"] /\
  lowerEndsWith "userTask" "task" = true /\
  lowerEndsWith "TASK" "task" = true /\
  lowerEndsWith (bytes [84; 65; 83; 226; 132; 170]) "task" = true /\
  lowerEndsWith "taskForce" "task" = false /\
  walk (JArr
          [JObj [("bpmn:process",
                  JArr [JObj [("bpmn:startEvent", JArr []);
                              (":@", JObj [("id", JStr "StartEvent_1")])];
                        JObj [("bpmn:userTask",
                               JArr [JObj [("bpmn:incoming",
                                            JArr [JObj [("#text", JStr "Flow_1")]])]]);
                              (":@", JObj [("id", JStr "Task_1");
                                           ("name", JStr "Pay")])];
                        JObj [("bpmn:task", JArr []);
                              (":@", JObj [("id", JStr "")])]]);
                 (":@", JObj [("id", JStr "Process_1")])]])
  = Some [mkTask (JStr "Task_1") (JStr "Pay") "bpmn:userTask"].
Proof.
  split; [|split; [|split; [|split; [|split; [|split]]]]].
  - intros tree name. apply visit_preorder.
  - intros entries name H. unfold hasId in H.
    unfold collectBpmnElements. cbn [visit]. rewrite H.
    eexists. split; [reflexivity|].
    intros k v I A x Ix. apply in_flat_map. exists (k, v).
    split; [assumption|]. cbn [fst snd]. now rewrite A.
  - intros es1 es2 es3 k1 k2 name v1 v2 A1 A2.
    unfold collectBpmnElements. cbn [visit].
    rewrite flat_map_app. cbn [List.flat_map fst snd]. rewrite A1.
    rewrite flat_map_app. cbn [List.flat_map fst snd]. rewrite A2.
    set (children := List.flat_map
           (fun e => if startsWith (fst e) "@" then [] else visit (snd e) (fst e))).
    exists ((if truthy (getProp (JObj (es1 ++ (k1, v1) :: es2 ++ (k2, v2) :: es3)) "@id")
             then [elementOf (JObj (es1 ++ (k1, v1) :: es2 ++ (k2, v2) :: es3)) name]
             else []) ++ children es1),
           (children es2), (children es3).
    now rewrite <- app_assoc.
  - apply walkNode_elements.
  - apply walkNode_step.
  - intros doc W. unfold orderedDocument, walk. cbn [List.flat_map].
    rewrite app_nil_r. f_equal. now apply walkNode_ordered.
  - repeat split; reflexivity.
Qed.

Lemma C4_witness :
  let task := JObj [("@id", JStr "Task_1"); ("@name", JStr "Pay");
                    ("bpmn:incoming", JStr "Flow_1")] in
  let process := [("@id", JStr "Process_1"); ("bpmn:task", task)] in
  exists below,
    collectBpmnElements (JObj process) "bpmn:process"
    = elementOf (JObj process) "bpmn:process" :: below /\
    forall k v, In (k, v) process -> startsWith k "@" = false ->
                incl (collectBpmnElements v k) below.
Proof.
  apply (proj1 (proj2 C4_preorder_extraction)
           [("@id", JStr "Process_1");
            ("bpmn:task", JObj [("@id", JStr "Task_1"); ("@name", JStr "Pay");
                                ("bpmn:incoming", JStr "Flow_1")])]
           "bpmn:process").
  reflexivity.
Defined.

(** ** Unknown metadata *)

Section MetaFacts.

Lemma fold_left_fixed {A B : Type} (f : A -> B -> A) (l : list B) (a : A) :
  (forall x, In x l -> f a x = a) -> List.fold_left f l a = a.
Proof.
  induction l as [|x l IH]; simpl; intros H; [reflexivity|].
  rewrite H by now left. apply IH. intros y I. apply H. now right.
Qed.




End MetaFacts.




(** ** Trimming and splitting *)

Section TrimFacts.
Implicit Types (s : string) (a : ascii).

Lemma trimStart_strip s :
  trimStart s = match stripSpace s with
                | Some r => trimStart r
                | None => s
                end.
Proof.
  destruct s as [|a [|b [|c s]]]; cbn [trimStart stripSpace];
    try reflexivity.
  - now destruct (isSpace a).
  - destruct (isSpace a); [reflexivity|]. now destruct (isSpace2 a b).
  - destruct (isSpace a); [reflexivity|].
    destruct (isSpace2 a b); [reflexivity|]. now destruct (isSpace3 a b c).
Qed.

Lemma ascii_of_code a n : nat_of_ascii a = n -> a = ascii_of_nat n.
Proof. intros <-. now rewrite ascii_nat_embedding. Qed.

Lemma isSpace_white a : isSpace a = true -> In (String a "") whiteSpace.
Proof.
  unfold isSpace. intros H.
  assert (nat_of_ascii a = 9 \/ nat_of_ascii a = 10 \/ nat_of_ascii a = 11 \/
          nat_of_ascii a = 12 \/ nat_of_ascii a = 13 \/ nat_of_ascii a = 32) as C.
  { apply orb_true_iff in H as [H|H].
    - apply andb_true_iff in H as [H1 H2].
      apply Nat.leb_le in H1, H2. lia.
    - apply Nat.eqb_eq in H. lia. }
  repeat (destruct C as [C|C];
          [apply ascii_of_code in C; subst a; cbn; auto 30|]).
  apply ascii_of_code in C. subst a. cbn. auto 30.
Qed.

Lemma isSpace2_white a b :
  isSpace2 a b = true -> In (String a (String b "")) whiteSpace.
Proof.
  unfold isSpace2. intros H. apply andb_true_iff in H as [H1 H2].
  apply Nat.eqb_eq, ascii_of_code in H1, H2. subst. cbn. auto 30.
Qed.

Lemma isSpace3_white a b c :
  isSpace3 a b c = true -> In (String a (String b (String c ""))) whiteSpace.
Proof.
  unfold isSpace3. intros H.
  repeat match type of H with
         | (_ || _)%bool = true => apply orb_true_iff in H as [H|H]
         end;
    repeat match goal with
           | H : (_ && _)%bool = true |- _ => apply andb_true_iff in H as [? H]
           | H : (_ || _)%bool = true |- _ => apply orb_true_iff in H as [H|H]
           end;
    repeat match goal with
           | H : (_ =? _)%nat = true |- _ => apply Nat.eqb_eq, ascii_of_code in H
           end; subst; try (cbn; auto 40).
  match goal with
  | H1 : (128 <=? ?z)%nat = true, H2 : (?z <=? 138)%nat = true |- _ =>
      apply Nat.leb_le in H1, H2;
      assert (z = 128 \/ z = 129 \/ z = 130 \/ z = 131 \/ z = 132 \/ z = 133 \/
              z = 134 \/ z = 135 \/ z = 136 \/ z = 137 \/ z = 138) as C by lia
  end.
  repeat (destruct C as [C|C];
          [apply ascii_of_code in C; subst c; cbn; auto 40|]).
  apply ascii_of_code in C. subst c. cbn. auto 40.
Qed.

Lemma stripSpace_some s r :
  stripSpace s = Some r -> exists w, In w whiteSpace /\ s = (w ++ r)%string.
Proof.
  destruct s as [|a s1]; [discriminate|]. cbn [stripSpace].
  destruct (isSpace a) eqn:E1.
  { intros E. inversion E. subst. exists (String a ""). split;
      [now apply isSpace_white | reflexivity]. }
  destruct s1 as [|b s2]; [discriminate|].
  destruct (isSpace2 a b) eqn:E2.
  { intros E. inversion E. subst. exists (String a (String b "")). split;
      [now apply isSpace2_white | reflexivity]. }
  destruct s2 as [|c s3]; [discriminate|].
  destruct (isSpace3 a b c) eqn:E3; [|discriminate].
  intros E. inversion E. subst. exists (String a (String b (String c ""))).
  split; [now apply isSpace3_white | reflexivity].
Qed.

Lemma stripSpace_white w r :
  In w whiteSpace -> stripSpace (w ++ r) = Some r.
Proof.
  intros I. cbn in I.
  repeat (destruct I as [<-|I]; [reflexivity|]). destruct I.
Qed.

Lemma trimStart_white w r : In w whiteSpace -> trimStart (w ++ r) = trimStart r.
Proof. intros I. now rewrite trimStart_strip, (stripSpace_white w r I). Qed.

Lemma trimStart_blank l x : blank l -> trimStart (l ++ x) = trimStart x.
Proof.
  induction 1 as [|w s I _ IH]; [reflexivity|].
  now rewrite append_assoc, trimStart_white.
Qed.



(** [trimStart] takes a blank prefix away and leaves a text that starts with
    no white space. *)
Lemma trimStart_spec s :
  exists l, blank l /\ s = (l ++ trimStart s)%string /\
            stripSpace (trimStart s) = None.
Proof.
  remember (String.length s) as n eqn:L. revert s L.
  induction n as [n IH] using lt_wf_ind. intros s L.
  rewrite trimStart_strip. destruct (stripSpace s) as [r|] eqn:E.
  - destruct (stripSpace_some s r E) as [w [I ->]].
    destruct (IH (String.length r)) with (s := r) as [l [B [Er N]]];
      [|reflexivity|].
    + subst n. clear - I. cbn in I.
      repeat (destruct I as [<-|I]; [cbn; lia|]). destruct I.
    + exists (w ++ l)%string. split; [now constructor|]. split; [|exact N].
      now rewrite append_assoc, <- Er.
  - exists "". split; [constructor|]. split; [reflexivity | exact E].
Qed.

Lemma isBlank_blank s : isBlank s = true <-> blank s.
Proof.
  unfold isBlank. split.
  - intros H. destruct (trimStart_spec s) as [l [B [E _]]].
    destruct (trimStart s); [|discriminate]. rewrite E, append_nil_r. exact B.
  - intros B. rewrite <- (append_nil_r s), (trimStart_blank s "" B). reflexivity.
Qed.

Lemma white_nonempty w : In w whiteSpace -> nonEmpty w = true.
Proof.
  intros I. cbn in I. repeat (destruct I as [<-|I]; [reflexivity|]). destruct I.
Qed.










(** [trimEnd] takes a blank suffix away and leaves a text that ends with no
    white space. *)
Lemma trimEnd_spec s :
  exists r, blank r /\ s = (trimEnd s ++ r)%string /\
            forall w x, In w whiteSpace -> trimEnd s <> (x ++ w)%string.
Proof.
  induction s as [|a s [r [B [E N]]]].
  - exists "". split; [constructor|]. split; [reflexivity|].
    intros w x I H. destruct x; cbn in H.
    + apply white_nonempty in I. now rewrite <- H in I.
    + discriminate.
  - cbn [trimEnd]. destruct (isBlank (String a s)) eqn:Bl.
    + exists (String a s). split; [now apply isBlank_blank|].
      split; [reflexivity|]. intros w x I H. destruct x; cbn in H.
      * apply white_nonempty in I. now rewrite <- H in I.
      * discriminate.
    + exists r. split; [exact B|]. split; [cbn; now rewrite <- E|].
      intros w x I H. destruct x as [|b x]; cbn in H.
      * assert (blank (String a s)) as C.
        { rewrite E. change (String a (trimEnd s ++ r))
            with (String a (trimEnd s) ++ r)%string.
          rewrite H. now constructor. }
        apply isBlank_blank in C. congruence.
      * inversion H. now apply (N w x I).
Qed.

Lemma trimEnd_prefix_strip t :
  stripSpace t = None -> stripSpace (trimEnd t) = None.
Proof.
  intros S. destruct (stripSpace (trimEnd t)) as [q|] eqn:E; [|reflexivity].
  destruct (stripSpace_some _ _ E) as [w [I H]].
  destruct (trimEnd_spec t) as [r [_ [Et _]]].
  rewrite H, append_assoc in Et.
  now rewrite Et, (stripSpace_white w _ I) in S.
Qed.

(** [trim]: a blank text is taken away at either end, and what is left
    neither starts nor ends with white space. *)
Lemma trim_spec s :
  exists l r, blank l /\ blank r /\ s = (l ++ trim s ++ r)%string /\
              edgeFree (trim s).
Proof.
  destruct (trimStart_spec s) as [l [Bl [El Sl]]].
  destruct (trimEnd_spec (trimStart s)) as [r [Br [Er Nr]]].
  exists l, r. unfold trim. split; [exact Bl|]. split; [exact Br|].
  split; [now rewrite <- Er|].
  intros w x I. split; [|now apply Nr].
  intros H. pose proof (trimEnd_prefix_strip _ Sl) as P.
  now rewrite H, (stripSpace_white w x I) in P.
Qed.



End TrimFacts.

Section SplitFacts.
Variable isSep : ascii -> bool.
Hypothesis white_not_sep :
  forall w, In w whiteSpace -> noneSep isSep w = true.
Implicit Types (s : string) (a : ascii).

Lemma splitOn_cons_other a s :
  isSep a = false ->
  splitOn isSep (String a s) =
  match splitOn isSep s with
  | seg :: rest => String a seg :: rest
  | [] => [String a EmptyString]
  end.
Proof. intros N. cbn [splitOn]. now rewrite N. Qed.

Lemma splitOn_cons_sep a s :
  isSep a = true ->
  splitOn isSep (String a s) = EmptyString :: splitOn isSep s.
Proof. intros N. cbn [splitOn]. now rewrite N. Qed.

Lemma splitOn_not_nil s : exists seg rest, splitOn isSep s = seg :: rest.
Proof.
  induction s as [|a s [seg [rest IH]]]; [cbn; eauto|].
  cbn [splitOn]. rewrite IH. destruct (isSep a); eauto.
Qed.

(** The pieces hold no separator, and putting the separators back
    between them gives the text. *)
Lemma splitOn_interleave s :
  exists seps,
    List.length (splitOn isSep s) = S (List.length seps) /\
    Forall (fun a => isSep a = true) seps /\
    Forall (fun seg => noneSep isSep seg = true) (splitOn isSep s) /\
    interleave (splitOn isSep s) seps = s.
Proof.
  induction s as [|a s [seps [L [Fs [Fn I]]]]].
  - exists []. cbn. repeat split; repeat constructor.
  - destruct (isSep a) eqn:E.
    + rewrite splitOn_cons_sep by assumption. exists (a :: seps).
      cbn [List.length interleave]. repeat split.
      * now rewrite L.
      * now constructor.
      * now constructor.
      * cbn. now rewrite I.
    + rewrite splitOn_cons_other by assumption.
      destruct (splitOn isSep s) as [|seg rest]; [discriminate|].
      exists seps. inversion Fn; subst. repeat split.
      * exact L.
      * exact Fs.
      * constructor; [cbn; rewrite E; assumption | assumption].
      * destruct seps as [|sep seps]; cbn in *; congruence.
Qed.

Lemma noneSep_append s p :
  noneSep isSep (s ++ p) = noneSep isSep s && noneSep isSep p.
Proof.
  induction s as [|a s IH]; [reflexivity|].
  cbn [String.append noneSep]. now rewrite IH, andb_assoc.
Qed.





Lemma noneSep_trim s :
  noneSep isSep s = true -> noneSep isSep (trim s) = true.
Proof.
  destruct (trim_spec s) as [l [r [_ [_ [E _]]]]]. intros N.
  rewrite E, !noneSep_append in N.
  apply andb_true_iff in N as [_ N]. now apply andb_true_iff in N as [N _].
Qed.

End SplitFacts.


Lemma str_textValue x : str x = trim (textValue x).
Proof.
  destruct x; try reflexivity; cbn [str textValue];
    destruct (List.find isString _) as [[]|]; reflexivity.
Qed.


(** What [segments] keeps: each kept piece is a piece of the split with the
    white space at its ends taken away. *)
Lemma segmentsSpec_in text seg :
  In seg (segmentsSpec text) ->
  nonEmpty seg = true /\ edgeFree seg /\ noneSep isCommaOrPipe seg = true /\
  exists piece l r,
    In piece (splitOn isCommaOrPipe text) /\
    piece = (l ++ seg ++ r)%string /\ blank l /\ blank r.
Proof.
  intros I. unfold segmentsSpec in I.
  apply filter_In in I as [I N]. apply in_map_iff in I as [piece [<- I]].
  destruct (trim_spec piece) as [l [r [Bl [Br [E F]]]]].
  split; [assumption|]. split; [exact F|]. split.
  - destruct (splitOn_interleave isCommaOrPipe text) as [seps [_ [_ [Fn _]]]].
    rewrite Forall_forall in Fn. apply noneSep_trim, Fn, I.
  - now exists piece, l, r.
Qed.



(** ** The runs *)

Import Cli.

Section DirFacts.
Import MonadNotation.
Local Open Scope monad_scope.

Lemma append_inj_l a b c : (a ++ b = a ++ c)%string -> b = c.
Proof.
  induction a as [|x a IH]; cbn; [auto|]. intros E. inversion E. auto.
Qed.

Lemma append_self_l a b : (a ++ b = a)%string -> b = "".
Proof.
  intros E. apply (append_inj_l a). now rewrite append_nil_r.
Qed.

Lemma slashCuts_app a b :
  slashCuts (a ++ b) = slashCuts a ++ List.map (append a) (slashCuts b).
Proof.
  induction a as [|c a IH]; cbn [append slashCuts].
  - now rewrite List.map_id.
  - rewrite IH, List.map_app, List.map_map, <- app_assoc. reflexivity.
Qed.

Lemma dirsAbove_pathJoin a b :
  slashCuts b = [] ->
  dirsAbove (pathJoin a b) = (if nonEmpty a then [a] else []) ++ dirsAbove a.
Proof.
  intros H. unfold dirsAbove, pathJoin. rewrite slashCuts_app.
  change (slashCuts ("/" ++ b))
    with ([EmptyString] ++ List.map (String "/"%char) (slashCuts b)).
  rewrite H. cbn [List.map app]. rewrite append_nil_r.
  rewrite List.filter_app, List.rev_app_distr. cbn [List.filter].
  now destruct (nonEmpty a).
Qed.

(** Making the directory the run starts from. *)
Lemma mkdir_base base w :
  JsMap.get base (w_files w) = None ->
  mkdir base base w
  = (Done tt, mkWorld (w_files w) (w_dirs w) (w_trace w ++ [EvMkdir base])).
Proof.
  intros H. unfold mkdir, emit. cbn. rewrite H, String.eqb_refl. reflexivity.
Qed.

Lemma pathJoin_not_base base a : String.eqb (pathJoin base a) base = false.
Proof.
  apply String.eqb_neq. unfold pathJoin. intros E.
  apply append_self_l in E. discriminate.
Qed.

Lemma pathJoin2_not_base base a b :
  String.eqb (pathJoin (pathJoin base a) b) base = false.
Proof.
  apply String.eqb_neq. unfold pathJoin. rewrite !append_assoc. intros E.
  apply append_self_l in E. discriminate.
Qed.

(** Making a directory two levels below it. *)
Lemma mkdir_below base a b w :
  slashCuts a = [] -> slashCuts b = [] ->
  JsMap.get (pathJoin base a) (w_files w) = None ->
  JsMap.get (pathJoin (pathJoin base a) b) (w_files w) = None ->
  exists ds,
    mkdir base (pathJoin (pathJoin base a) b) w
    = (Done tt,
       mkWorld (w_files w) (ds ++ w_dirs w)
         (w_trace w ++ [EvMkdir (pathJoin (pathJoin base a) b)])).
Proof.
  intros Sa Sb H1 H2. unfold mkdir, emit. cbn [bind Monad_M w_files].
  rewrite H2, !dirsAbove_pathJoin by assumption.
  replace (nonEmpty (pathJoin base a)) with true
    by (unfold pathJoin; now destruct base).
  cbn [app missingAbove w_files].
  rewrite pathJoin2_not_base, pathJoin_not_base, H2, H1.
  unfold isDir. cbn [w_dirs].
  destruct (List.existsb _ _); [now exists []|].
  destruct (List.existsb _ _); [eexists; reflexivity|].
  destruct (nonEmpty base) eqn:N; cbn [app missingAbove w_files].
  - rewrite String.eqb_refl. eexists; reflexivity.
  - destruct base; [|discriminate N].
    now exists [pathJoin (pathJoin "" a) b; pathJoin "" a].
Qed.

(** A file where a directory is to be made. *)
Lemma mkdir_blocked base p w x :
  JsMap.get p (w_files w) = Some x ->
  mkdir base p w
  = (Thrown "EEXIST",
     mkWorld (w_files w) (w_dirs w) (w_trace w ++ [EvMkdir p])).
Proof. intros H. unfold mkdir, emit. cbn. now rewrite H. Qed.

(** A file at the directory above the one to be made. *)
Lemma mkdir_not_dir base a b w x :
  slashCuts b = [] ->
  JsMap.get (pathJoin (pathJoin base a) b) (w_files w) = None ->
  isDir w (pathJoin (pathJoin base a) b) = false ->
  JsMap.get (pathJoin base a) (w_files w) = Some x ->
  mkdir base (pathJoin (pathJoin base a) b) w
  = (Thrown "ENOTDIR",
     mkWorld (w_files w) (w_dirs w)
       (w_trace w ++ [EvMkdir (pathJoin (pathJoin base a) b)])).
Proof.
  intros Sb H2 D2 H1. unfold mkdir, emit. cbn [bind Monad_M w_files].
  rewrite H2, dirsAbove_pathJoin by assumption.
  replace (nonEmpty (pathJoin base a)) with true
    by (unfold pathJoin; now destruct base).
  cbn [app missingAbove w_files].
  rewrite pathJoin2_not_base, pathJoin_not_base, H2, H1.
  unfold isDir in *. cbn [w_dirs]. now rewrite D2.
Qed.

End DirFacts.

Lemma mkdir_cases base p w :
  let w1 := mkWorld (w_files w) (w_dirs w) (w_trace w ++ [EvMkdir p]) in
  (exists ds,
     mkdir base p w
     = (Done tt, mkWorld (w_files w) (ds ++ w_dirs w) (w_trace w1))) \/
  mkdir base p w = (Thrown "EEXIST", w1) \/
  mkdir base p w = (Thrown "ENOTDIR", w1).
Proof.
  unfold mkdir, emit. cbn [bind Monad_M w_files w_dirs w_trace].
  destruct (JsMap.get p (w_files w)); [auto|].
  destruct (missingAbove _ _ _); [left; eexists; reflexivity | auto].
Qed.

(** The run of the task-only script without a document, from what making
    the output directory gave. *)
Lemma mainTasks_missing REPO_ROOT parseXML extractTasksByRegex
    extractPlaywrightRefsById testFilesOf sortRows
    (tasksJSON tasksCSV tasksHTML : list TaskRow -> string)
    missingMsg failMsg doneMsg w o w1 :
  JsMap.get (T_BPMN_PATH REPO_ROOT) (w_files w) = None ->
  mkdir REPO_ROOT (T_OUT_DIR REPO_ROOT) w = (o, w1) ->
  w_files w1 = w_files w ->
  mainTasks REPO_ROOT parseXML extractTasksByRegex extractPlaywrightRefsById
    testFilesOf sortRows tasksJSON tasksCSV tasksHTML missingMsg failMsg
    doneMsg w
  = match o with
    | Done _ =>
        (Exited 1%Z,
         mkWorld (w_files w1) (w_dirs w1)
           (w_trace w1 ++ [EvRead (T_BPMN_PATH REPO_ROOT);
                           EvStderr (missingMsg (T_BPMN_PATH REPO_ROOT))]))
    | Exited code => (Exited code, w1)
    | Thrown msg =>
        (Exited 1%Z,
         mkWorld (w_files w1) (w_dirs w1)
           (w_trace w1 ++ [EvStderr (failMsg msg)]))
    end.
Proof.
  intros H E F. unfold mainTasks, mainTasksBody, tryCatch, ensureDir.
  cbn [bind Monad_M]. rewrite E. destruct o as [[]|code|msg].
  - unfold readTextIfExists, tryCatch, readFileSync, consoleError, emit, exit.
    cbn. rewrite F, H. cbn. now rewrite <- app_assoc.
  - reflexivity.
  - reflexivity.
Qed.

(** C9.  Missing document.  When there is no file at the path of the BPMN
    document, a run ends with exit code 1, leaves every file as it was, and
    stops after looking for the document: nothing is parsed, no test file is
    listed or read and nothing is written.  The task-only script first
    makes its output directory: with no file in the way it then reads for
    the document and reports it missing, and with a file at the output
    directory, or at [reports] above it, it stops at once, with the error
    of [mkdir]. *)
Theorem C9_missing_document_aborts :
  (forall (ROOT : string) (parse : string -> option JsValue)
          (globSync : JsMap.t string -> list string)
          (titlesOf : string -> list string)
          (toCSV : list Row -> string)
          (toHTML : list Row -> list Orphan -> string)
          (toJSON : ReportData -> string)
          (missingMsg : string -> string) (doneMsg : string) (w : World),
      JsMap.get (BPMN_PATH ROOT) (w_files w) = None ->
      let run := main ROOT parse globSync titlesOf toCSV toHTML toJSON
                   missingMsg doneMsg w in
      exitCode (fst run) = 1%Z /\
      w_files (snd run) = w_files w /\
      w_dirs (snd run) = w_dirs w /\
      (w_trace (snd run)
       = w_trace w ++ [EvExists (BPMN_PATH ROOT);
                       EvStderr (missingMsg (BPMN_PATH ROOT))] \/
       w_trace (snd run)
       = w_trace w ++ [EvExists (BPMN_PATH ROOT); EvRead (BPMN_PATH ROOT)])) /\
  (forall (REPO_ROOT : string) (parseXML : option (string -> JsValue))
          (extractTasksByRegex : string -> list Task)
          (extractPlaywrightRefsById : string -> JsMap.t (list string))
          (testFilesOf : JsMap.t string -> list (string * string))
          (sortRows : list TaskRow -> option (list TaskRow))
          (tasksJSON tasksCSV tasksHTML : list TaskRow -> string)
          (missingMsg failMsg : string -> string) (doneMsg : string)
          (w : World),
      JsMap.get (T_BPMN_PATH REPO_ROOT) (w_files w) = None ->
      let run := mainTasks REPO_ROOT parseXML extractTasksByRegex
                   extractPlaywrightRefsById testFilesOf sortRows
                   tasksJSON tasksCSV tasksHTML missingMsg failMsg doneMsg w in
      let reports := pathJoin REPO_ROOT "reports" in
      let stopped :=
        w_trace w ++ [EvMkdir (T_OUT_DIR REPO_ROOT);
                      EvRead (T_BPMN_PATH REPO_ROOT);
                      EvStderr (missingMsg (T_BPMN_PATH REPO_ROOT))] in
      let blocked err :=
        w_trace w ++ [EvMkdir (T_OUT_DIR REPO_ROOT);
                      EvStderr (failMsg err)] in
      exitCode (fst run) = 1%Z /\
      w_files (snd run) = w_files w /\
      (w_trace (snd run) = stopped \/
       w_trace (snd run) = blocked "EEXIST" \/
       w_trace (snd run) = blocked "ENOTDIR") /\
      (JsMap.get reports (w_files w) = None ->
       JsMap.get (T_OUT_DIR REPO_ROOT) (w_files w) = None ->
       w_trace (snd run) = stopped) /\
      (forall x,
         JsMap.get (T_OUT_DIR REPO_ROOT) (w_files w) = Some x ->
         w_trace (snd run) = blocked "EEXIST") /\
      (forall x,
         JsMap.get (T_OUT_DIR REPO_ROOT) (w_files w) = None ->
         isDir w (T_OUT_DIR REPO_ROOT) = false ->
         JsMap.get reports (w_files w) = Some x ->
         w_trace (snd run) = blocked "ENOTDIR")).
Proof.
  split.
  - intros ROOT parse globSync titlesOf toCSV toHTML toJSON missingMsg doneMsg
      w H run. subst run. unfold main, existsSync, loadBpmn, readText,
      readFileSync, consoleError, emit, exit.
    cbn. rewrite H. unfold isDir. cbn.
    destruct (List.existsb (String.eqb (BPMN_PATH ROOT)) (w_dirs w)); cbn.
    + rewrite H. cbn. rewrite <- app_assoc. auto.
    + rewrite <- app_assoc. auto.
  - intros REPO_ROOT parseXML extractTasksByRegex extractPlaywrightRefsById
      testFilesOf sortRows tasksJSON tasksCSV tasksHTML missingMsg failMsg
      doneMsg w H run reports stopped blocked.
    assert (forall o w1,
              mkdir REPO_ROOT (T_OUT_DIR REPO_ROOT) w = (o, w1) ->
              w_files w1 = w_files w ->
              run = match o with
                    | Done _ =>
                        (Exited 1%Z,
                         mkWorld (w_files w1) (w_dirs w1)
                           (w_trace w1
                            ++ [EvRead (T_BPMN_PATH REPO_ROOT);
                                EvStderr (missingMsg (T_BPMN_PATH REPO_ROOT))]))
                    | Exited code => (Exited code, w1)
                    | Thrown msg =>
                        (Exited 1%Z,
                         mkWorld (w_files w1) (w_dirs w1)
                           (w_trace w1 ++ [EvStderr (failMsg msg)]))
                    end) as R.
    { intros o w1 E F. now apply mainTasks_missing. }
    clearbody run.
    repeat split.
    + destruct (mkdir_cases REPO_ROOT (T_OUT_DIR REPO_ROOT) w)
        as [[ds E]|[E|E]]; rewrite (R _ _ E eq_refl); reflexivity.
    + destruct (mkdir_cases REPO_ROOT (T_OUT_DIR REPO_ROOT) w)
        as [[ds E]|[E|E]]; rewrite (R _ _ E eq_refl); reflexivity.
    + destruct (mkdir_cases REPO_ROOT (T_OUT_DIR REPO_ROOT) w)
        as [[ds E]|[E|E]]; rewrite (R _ _ E eq_refl);
        cbn [snd w_trace]; subst stopped blocked; cbn beta;
        rewrite <- app_assoc; auto.
    + intros H1 H2.
      destruct (mkdir_below REPO_ROOT "reports" "coverage" w
                  eq_refl eq_refl H1 H2) as [ds E].
      rewrite (R _ _ E eq_refl). cbn [snd w_trace]. subst stopped.
      now rewrite <- app_assoc.
    + intros x Hx.
      rewrite (R _ _ (mkdir_blocked REPO_ROOT _ w x Hx) eq_refl).
      cbn [snd w_trace]. subst blocked. cbn beta. now rewrite <- app_assoc.
    + intros x H2 D2 H1.
      rewrite (R _ _ (mkdir_not_dir REPO_ROOT "reports" "coverage" w x
                        eq_refl H2 D2 H1) eq_refl).
      cbn [snd w_trace]. subst blocked. cbn beta. now rewrite <- app_assoc.
Qed.

Lemma C9_witness :
  (let w := mkWorld [("/repo/tests/a.spec.ts", "test('pays [bpmn:Pay]')")]
              ["/repo"; "/repo/tests"] [] in
   let run := main "/repo" (fun _ => None) (fun _ => ["tests/a.spec.ts"])
                (fun _ => []) (fun _ => "") (fun _ _ => "") (fun _ => "")
                (fun p => p) "done" w in
   exitCode (fst run) = 1%Z /\
   w_files (snd run) = w_files w /\
   w_dirs (snd run) = w_dirs w /\
   (w_trace (snd run)
    = w_trace w ++ [EvExists (BPMN_PATH "/repo"); EvStderr (BPMN_PATH "/repo")] \/
    w_trace (snd run)
    = w_trace w ++ [EvExists (BPMN_PATH "/repo"); EvRead (BPMN_PATH "/repo")])) /\
  (let w := mkWorld [("/repo/reports", "a file")] ["/repo"] [] in
   let run := mainTasks "/repo" None (fun _ => []) (fun _ => []) (fun _ => [])
                (fun rows => Some rows) (fun _ => "json") (fun _ => "csv")
                (fun _ => "html") (fun p => p) (fun e => e) "done" w in
   w_trace (snd run)
   = [EvMkdir "/repo/reports/coverage"; EvStderr "ENOTDIR"]).
Proof.
  split.
  - apply (proj1 C9_missing_document_aborts "/repo" (fun _ => None)
             (fun _ => ["tests/a.spec.ts"]) (fun _ => []) (fun _ => "")
             (fun _ _ => "") (fun _ => "") (fun p => p) "done"
             (mkWorld [("/repo/tests/a.spec.ts", "test('pays [bpmn:Pay]')")]
                ["/repo"; "/repo/tests"] [])).
    reflexivity.
  - apply (proj2 (proj2 (proj2 (proj2 (proj2
             (proj2 C9_missing_document_aborts "/repo" None (fun _ => [])
                (fun _ => []) (fun _ => []) (fun rows => Some rows)
                (fun _ => "json") (fun _ => "csv") (fun _ => "html")
                (fun p => p) (fun e => e) "done"
                (mkWorld [("/repo/reports", "a file")] ["/repo"] [])
                eq_refl))))) "a file");
      reflexivity.
Defined.

Lemma scanFile_run ROOT titlesOf acc f w :
  (JsMap.get (pathJoin ROOT f) (w_files w) = None ->
   isDir w (pathJoin ROOT f) = false) ->
  exists w',
    scanFile ROOT titlesOf acc f w
    = (Done (List.fold_left pushHit (fileHits ROOT titlesOf (w_files w) f) acc),
       w') /\
    w_files w' = w_files w /\ w_dirs w' = w_dirs w.
Proof.
  intros H. unfold scanFile, fileHits, existsSync, readText, readFileSync, emit.
  cbn -[scanText pushHit].
  destruct (JsMap.get (pathJoin ROOT f) (w_files w)) as [text|] eqn:G;
    cbn -[scanText pushHit].
  - rewrite G. cbn -[scanText pushHit]. eexists. repeat split.
  - unfold isDir in *. cbn. rewrite (H eq_refl). cbn. eexists. repeat split.
Qed.

(** The map [main] hands to [buildReport] is the grouping of the hits of
    the listed files, file after file. *)
Lemma scanFiles_groups ROOT titlesOf (files : list string) : forall acc w,
  (forall f, In f files ->
     JsMap.get (pathJoin ROOT f) (w_files w) = None ->
     isDir w (pathJoin ROOT f) = false) ->
  exists w',
    forEachM (scanFile ROOT titlesOf) files acc w
    = (Done (List.fold_left pushHit
               (List.flat_map (fileHits ROOT titlesOf (w_files w)) files) acc),
       w') /\
    w_files w' = w_files w /\ w_dirs w' = w_dirs w.
Proof.
  induction files as [|f files IH]; intros acc w H.
  - exists w. cbn. auto.
  - destruct (scanFile_run ROOT titlesOf acc f w (H f (or_introl eq_refl)))
      as [w1 [E1 [F1 D1]]].
    destruct (IH (List.fold_left pushHit (fileHits ROOT titlesOf (w_files w) f) acc) w1)
      as [w' [E [F D]]].
    { intros f' I. unfold isDir. rewrite F1, D1. apply H. now right. }
    exists w'. cbn [forEachM List.flat_map bind Monad_M].
    rewrite E1, E, F1, fold_left_app. repeat split; congruence.
Qed.

Lemma scanTests_groups ROOT globSync titlesOf w :
  (forall f, In f (globSync (w_files w)) ->
     JsMap.get (pathJoin ROOT f) (w_files w) = None ->
     isDir w (pathJoin ROOT f) = false) ->
  fst (scanTestsForBpmnTags ROOT globSync titlesOf w)
  = Done (groupHits
            (List.flat_map (fileHits ROOT titlesOf (w_files w))
               (globSync (w_files w)))).
Proof.
  intros H. unfold scanTestsForBpmnTags, emit. cbn.
  match goal with
  | |- context [forEachM _ _ ?a ?w0] =>
      destruct (scanFiles_groups ROOT titlesOf (globSync (w_files w)) a w0)
        as [w' [E _]]
  end.
  - exact H.
  - cbn in E. rewrite E. reflexivity.
Qed.

(** A run with the document in place: the six reports are written and the
    exit code is 0. *)
Example main_writes_reports :
  let doc := JObj [("bpmn:definitions",
                    JObj [("bpmn:process",
                           JObj [("@id", JStr "Process_1");
                                 ("bpmn:task", JObj [("@id", JStr "Pay")])])])] in
  let w := mkWorld [("/repo/ci_test.bpmn", "<bpmn:definitions/>");
                    ("/repo/tests/a.spec.ts", "test('pays [bpmn:Pay]')")]
             ["/repo"; "/repo/tests"] [] in
  let run := main "/repo" (fun _ => Some doc) (fun _ => ["tests/a.spec.ts"])
               (fun _ => [])
               (fun rows => join "," (List.map r_coverage rows))
               (fun _ _ => "html") (fun _ => "json")
               (fun p => p) "done" w in
  exitCode (fst run) = 0%Z /\
  JsMap.get "/repo/bpmn-test-report.csv" (w_files (snd run))
  = Some "Missing,Covered" /\
  JsMap.get "/repo/reports/coverage/index.html" (w_files (snd run))
  = Some "html" /\
  List.length (w_files (snd run)) = 8.
Proof. vm_compute. auto. Qed.

(** A run of the task-only script with the document in place: the task with
    a [playwrightRef] counts as covered although no test file names it. *)
Example mainTasks_writes_reports :
  let doc := JArr [JObj [("bpmn:userTask", JArr []);
                         (":@", JObj [("id", JStr "Pay")])];
                   JObj [("bpmn:task", JArr []);
                         (":@", JObj [("id", JStr "Ship")])]] in
  let w := mkWorld [("/repo/ci_test.bpmn", "<xml/>")] ["/repo"] [] in
  let run := mainTasks "/repo" (Some (fun _ => doc)) (fun _ => [])
               (fun _ => [("Pay", ["tests/pay.spec.ts"])])
               (fun _ => [("tests/ship.spec.ts", "test('x [bpmn:Ship]')")])
               (fun rows => Some rows)
               (fun rows => join ","
                              (List.map (fun r => if tr_hasTests r then "yes" else "no")
                                 rows))
               (fun _ => "csv") (fun _ => "html")
               (fun p => p) (fun e => e) "done" w in
  exitCode (fst run) = 0%Z /\
  JsMap.get "/repo/reports/coverage/bpmn-test-report.json" (w_files (snd run))
  = Some "yes,yes".
Proof. vm_compute. auto. Qed.

(* ===================================================================== *)
(** * Further properties *)
(* ===================================================================== *)


(** ** The grouping and the orphans *)

Section GroupingMore.
Implicit Types (hits : list (string * TestHit)) (ks : list string).

Lemma keys_set {V : Type} (m : JsMap.t V) k v :
  JsMap.keys (JsMap.set k v m)
  = if List.existsb (String.eqb k) (JsMap.keys m)
    then JsMap.keys m else JsMap.keys m ++ [k].
Proof.
  induction m as [|[k0 v0] m IH]; [reflexivity|].
  cbn [JsMap.set JsMap.keys List.map fst List.existsb].
  rewrite (String.eqb_sym k k0).
  destruct (String.eqb k0 k) eqn:E; cbn [orb]; [reflexivity|].
  cbn [List.map fst]. unfold JsMap.keys in IH. rewrite IH.
  now destruct (List.existsb (String.eqb k) (List.map fst m)).
Qed.

Lemma get_of_in {V : Type} (m : JsMap.t V) k v :
  NoDup (JsMap.keys m) -> In (k, v) m -> JsMap.get k m = Some v.
Proof.
  induction m as [|[k0 v0] m IH]; intros ND I; [destruct I|].
  cbn [JsMap.keys List.map fst] in ND. inversion ND as [|? ? Hn ND']; subst.
  cbn [JsMap.get]. destruct I as [E|I].
  - inversion E. subst. now rewrite String.eqb_refl.
  - destruct (String.eqb_spec k0 k) as [->|_]; [|now apply IH].
    exfalso. apply Hn. change k with (fst (k, v)). now apply in_map.
Qed.

Lemma keys_groupHits hits :
  JsMap.keys (groupHits hits) = firstOccurrences (List.map fst hits).
Proof.
  induction hits as [|x hits IH] using rev_ind; [reflexivity|].
  rewrite groupHits_snoc, map_app. unfold pushHit, firstOccurrences.
  rewrite keys_set, fold_left_app, IH. reflexivity.
Qed.

Lemma filter_or_perm {A : Type} (P Q : A -> bool) (l : list A) :
  (forall x, In x l -> P x = true -> Q x = true -> False) ->
  Permutation (List.filter (fun x => P x || Q x) l)
              (List.filter P l ++ List.filter Q l).
Proof.
  induction l as [|x l IH]; intros D; [constructor|].
  assert (Permutation (List.filter (fun x => P x || Q x) l)
                      (List.filter P l ++ List.filter Q l)) as IH'
    by (apply IH; intros y I; apply D; now right).
  cbn [List.filter]. destruct (P x) eqn:Px, (Q x) eqn:Qx; cbn [orb].
  - exfalso. apply (D x); auto. now left.
  - cbn. now constructor.
  - now apply Permutation_cons_app.
  - exact IH'.
Qed.

Lemma pairs_of_group id hits :
  List.map (pair id) (hitsFor id hits)
  = List.filter (fun p => String.eqb (fst p) id) hits.
Proof.
  unfold hitsFor. rewrite map_map.
  induction hits as [|[k h] hits IH]; [reflexivity|].
  cbn [List.filter fst]. destruct (String.eqb_spec k id) as [->|_];
    cbn [List.map snd]; now rewrite IH.
Qed.

(** The groups of distinct identifiers, one after the other, hold the hits
    with these identifiers, each once. *)
Lemma groups_perm hits ks :
  NoDup ks ->
  Permutation
    (List.flat_map (fun k => List.map (pair k) (hitsFor k hits)) ks)
    (List.filter (fun p => List.existsb (String.eqb (fst p)) ks) hits).
Proof.
  induction ks as [|a ks IH]; intros ND.
  - cbn. induction hits; cbn; auto.
  - inversion ND as [|? ? Hn ND']; subst.
    cbn [List.flat_map List.existsb]. rewrite pairs_of_group.
    eapply Permutation_trans;
      [apply Permutation_app_head, IH, ND'|].
    apply Permutation_sym, filter_or_perm.
    intros [k h] _ E1 E2. cbn in E1. apply String.eqb_eq in E1. subst k.
    apply existsb_exists in E2 as [y [I E]]. cbn in E.
    apply String.eqb_eq in E. subst. contradiction.
Qed.

Lemma filter_all {A : Type} (P : A -> bool) (l : list A) :
  (forall x, In x l -> P x = true) -> List.filter P l = l.
Proof.
  induction l as [|x l IH]; intros H; [reflexivity|].
  cbn. rewrite (H x (or_introl eq_refl)), IH; [reflexivity|].
  intros y I. apply H. now right.
Qed.

Lemma flatten_by_keys hits :
  flatten (groupHits hits)
  = List.flat_map (fun k => List.map (pair k) (hitsFor k hits))
      (JsMap.keys (groupHits hits)).
Proof.
  unfold flatten, JsMap.keys.
  pose proof (keys_groupHits_NoDup hits) as ND.
  assert (forall e, In e (groupHits hits) -> snd e = hitsFor (fst e) hits) as G.
  { intros [k hs] I. cbn. apply (get_of_in _ _ _ ND) in I.
    rewrite get_groupHits in I. destruct (hitsFor k hits); congruence. }
  induction (groupHits hits) as [|e m IH]; [reflexivity|].
  cbn [List.flat_map List.map]. rewrite (G e) by now left.
  f_equal. apply IH.
  - cbn in ND. now inversion ND.
  - intros e' I. apply G. now right.
Qed.

Lemma flatten_perm hits : Permutation (flatten (groupHits hits)) hits.
Proof.
  rewrite flatten_by_keys.
  eapply Permutation_trans; [apply groups_perm, keys_groupHits_NoDup|].
  rewrite filter_all; [reflexivity|].
  intros [k h] I. cbn. apply existsb_exists. exists k.
  split; [|apply String.eqb_refl].
  apply keys_groupHits_in. now exists h.
Qed.

(** The orphans are the hits whose identifier no node has, regrouped. *)
Lemma orphans_perm (els : list BpmnEl) hits :
  Permutation (orphans (buildReport els (groupHits hits)))
    (List.map (fun p => orphanOf (fst p) (snd p))
       (List.filter (unmatched els) hits)).
Proof.
  unfold buildReport. cbn [orphans].
  set (ks := List.filter (fun id => negb (setHas (allIds els) id))
               (JsMap.keys (groupHits hits))).
  assert (orphansOf (groupHits hits) ks
          = List.map (fun p => orphanOf (fst p) (snd p))
              (List.flat_map (fun k => List.map (pair k) (hitsFor k hits)) ks))
    as ->.
  { unfold orphansOf. rewrite map_flat_map. apply flat_map_ext. intros k.
    rewrite get_groupHits, map_map. now destruct (hitsFor k hits). }
  apply Permutation_map.
  eapply Permutation_trans;
    [apply groups_perm, NoDup_filter, keys_groupHits_NoDup|].
  rewrite (filter_ext_in _ (unmatched els)); [reflexivity|].
  intros [k h] I. cbn [fst]. unfold unmatched, ks. cbn [fst].
  destruct (negb (setHas (allIds els) k)) eqn:U.
  - apply existsb_exists. exists k. split; [|apply String.eqb_refl].
    apply filter_In. split; [|exact U].
    apply keys_groupHits_in. now exists h.
  - apply not_true_is_false. intros E.
    apply existsb_exists in E as [y [Iy E]]. apply String.eqb_eq in E. subst y.
    apply filter_In in Iy as [_ Iy]. congruence.
Qed.

End GroupingMore.

(** X1.  Grouping.  After the hits were pushed, the keys of [hitsById] are
    the identifiers of the hits without repetition, in the order in which
    they first occur; every key holds a non-empty list, namely the hits with
    that identifier in their order; and the groups together hold every hit
    exactly once. *)
Theorem X1_grouping_keeps_every_hit :
  forall hits : list (string * TestHit),
    NoDup (JsMap.keys (groupHits hits)) /\
    JsMap.keys (groupHits hits) = firstOccurrences (List.map fst hits) /\
    (forall id hs, JsMap.get id (groupHits hits) = Some hs ->
                   hs <> [] /\ hs = hitsFor id hits) /\
    Permutation (flatten (groupHits hits)) hits.
Proof.
  intros hits. split; [|split; [|split]].
  - apply keys_groupHits_NoDup.
  - apply keys_groupHits.
  - intros id hs G. rewrite get_groupHits in G.
    destruct (hitsFor id hits); [discriminate|]. inversion G. split; congruence.
  - apply flatten_perm.
Qed.

Lemma X1_witness :
  let h1 := mkHit "tests/a.spec.ts" 1 "" in
  let h2 := mkHit "tests/b.spec.ts" 2 "" in
  let hits := [("B", h1); ("A", h1); ("B", h2)] in
  [h1; h2] <> [] /\ [h1; h2] = hitsFor "B" hits.
Proof.
  apply (proj1 (proj2 (proj2 (X1_grouping_keeps_every_hit
           [("B", mkHit "tests/a.spec.ts" 1 "");
            ("A", mkHit "tests/a.spec.ts" 1 "");
            ("B", mkHit "tests/b.spec.ts" 2 "")]))) "B").
  reflexivity.
Defined.


(** X3.  Empty inputs.  Without hits every row is [Missing] with an empty
    tests cell and there is no orphan; without nodes there is no row and
    every hit is an orphan. *)
Theorem X3_empty_inputs :
  (forall (els : list BpmnEl),
      orphans (buildReport els (groupHits [])) = [] /\
      List.length (rows (buildReport els (groupHits []))) = List.length els /\
      forall row, In row (rows (buildReport els (groupHits []))) ->
                  r_coverage row = Missing /\ r_tests row = EmptyString) /\
  (forall hits : list (string * TestHit),
      rows (buildReport [] (groupHits hits)) = [] /\
      Permutation (orphans (buildReport [] (groupHits hits)))
        (List.map (fun p => orphanOf (fst p) (snd p)) hits)).
Proof.
  split.
  - intros els. split; [reflexivity|]. split.
    + unfold buildReport. cbn [rows]. apply length_map.
    + intros row I. unfold buildReport in I. cbn [rows] in I.
      apply in_map_iff in I as [el [<- _]].
      unfold buildRow. cbn [r_coverage r_tests].
      assert (testsFor (groupHits []) (el_id el) = []) as ->
        by (destruct (el_id el); reflexivity).
      split; reflexivity.
  - intros hits. split; [reflexivity|].
    eapply Permutation_trans; [apply orphans_perm|].
    rewrite filter_all; [reflexivity | reflexivity].
Qed.

Lemma X3_witness :
  let el := mkEl (JStr "A") "bpmn:task" (JStr "") emptyMeta in
  r_coverage (buildRow (groupHits []) el) = Missing /\
  r_tests (buildRow (groupHits []) el) = EmptyString.
Proof.
  apply (proj2 (proj2 (proj1 X3_empty_inputs
           [mkEl (JStr "A") "bpmn:task" (JStr "") emptyMeta]))).
  left. reflexivity.
Defined.


(** ** The extension metadata *)

Section MetaMore.

Lemma fold_left_keeps {A B : Type} (P : A -> Prop) (f : A -> B -> A)
    (l : list B) (a : A) :
  (forall a' x, P a' -> P (f a' x)) -> P a -> P (List.fold_left f l a).
Proof.
  intros Step. revert a. induction l as [|x l IH]; intros a Pa; [exact Pa|].
  cbn. apply IH, Step, Pa.
Qed.

Lemma refs_fold (l : list JsValue) : forall m,
  List.fold_left (fun m' x => applyKey "playwrightRef" x m') l m
  = mkMeta (playwrightRefs m ++ List.map str l) (jiraKeys m) (tags m)
      (priority m) (figmaUrl m) (figmaNodeId m) (figmaComponentKey m)
      (variant m).
Proof.
  induction l as [|x l IH]; intros m.
  - destruct m. cbn. now rewrite app_nil_r.
  - cbn [List.fold_left]. rewrite IH. destruct m. cbn.
    now rewrite <- app_assoc.
Qed.

(** What a run of values under one scalar key leaves in its field: the text
    of the last value. *)
Lemma scalar_fold key proj (l : list JsValue) : forall m,
  scalarField key = Some proj ->
  proj (List.fold_left (fun m' x => applyKey key x m') l m)
  = match l with
    | [] => proj m
    | _ => str (List.last l JUndefined)
    end.
Proof.
  intros m S.
  assert (forall x m0, proj (applyKey key x m0) = str x) as One.
  { intros x m0. unfold scalarField in S. unfold applyKey. destruct m0.
    destruct (String.eqb_spec key "priority") as [->|];
      [inversion S; reflexivity|].
    destruct (String.eqb_spec key "figmaUrl") as [->|];
      [inversion S; reflexivity|].
    destruct (String.eqb_spec key "figmaNodeId") as [->|];
      [inversion S; reflexivity|].
    destruct (String.eqb_spec key "figmaComponentKey") as [->|];
      [inversion S; reflexivity|].
    destruct (String.eqb_spec key "variant") as [->|];
      [inversion S; reflexivity | discriminate]. }
  revert m. induction l as [|x l IH]; intros m; [reflexivity|].
  cbn [List.fold_left]. rewrite IH. destruct l; [apply One | reflexivity].
Qed.

Lemma splitOn_none isSep s :
  noneSep isSep s = true -> splitOn isSep s = [s].
Proof.
  induction s as [|a s IH]; [reflexivity|].
  cbn [noneSep]. intros H. apply andb_true_iff in H as [N H].
  apply negb_true_iff in N. cbn [splitOn]. now rewrite N, IH.
Qed.

Lemma splitOn_app_sep isSep c a b :
  isSep c = true ->
  splitOn isSep (a ++ String c b) = splitOn isSep a ++ splitOn isSep b.
Proof.
  intros Sc. induction a as [|x a IH].
  - cbn. now rewrite Sc.
  - cbn [String.append splitOn]. rewrite IH.
    destruct (isSep x); [reflexivity|].
    destruct (splitOn_not_nil isSep a) as [seg [rest ->]]. reflexivity.
Qed.

Lemma localKey_prefixed ns name :
  noneSep isColon name = true ->
  localKey (ns ++ ":" ++ name) = name /\ localKey name = name.
Proof.
  intros N. unfold localKey.
  change (ns ++ ":" ++ name)%string with (ns ++ String ":"%char name)%string.
  rewrite splitOn_app_sep by reflexivity.
  rewrite (splitOn_none _ _ N). split; [apply last_last | reflexivity].
Qed.

Lemma str_trimmed x : trimmed (str x).
Proof.
  unfold trimmed. rewrite str_textValue.
  destruct (trim_spec (textValue x)) as [l [r [_ [_ [_ F]]]]]. exact F.
Qed.

Lemma segments_good s : Forall goodPiece (segments s).
Proof.
  apply Forall_forall. intros seg I. unfold segments in I.
  assert (In seg (segmentsSpec s)) as I' by exact I.
  apply segmentsSpec_in in I' as [N [F [S _]]].
  split; [exact N | split; [exact F | exact S]].
Qed.

Lemma edgeFree_empty : edgeFree "".
Proof.
  intros w r I. apply white_nonempty in I.
  split; intros H.
  - destruct w; [discriminate I | discriminate H].
  - destruct r; cbn in H; [|discriminate H].
    destruct w; [discriminate I | discriminate H].
Qed.

Lemma applyKey_tidy key x m : tidyMeta m -> tidyMeta (applyKey key x m).
Proof.
  unfold tidyMeta. destruct m as [refs jira tgs prio url nodeId compKey var].
  cbn [playwrightRefs jiraKeys tags priority figmaUrl figmaNodeId
       figmaComponentKey variant].
  intros [T [J [R [P1 [P2 [P3 [P4 P5]]]]]]].
  pose proof (str_trimmed x) as Sx.
  pose proof (segments_good (str x)) as Gx.
  unfold applyKey.
  repeat match goal with
         | |- context [String.eqb key ?k] => destruct (String.eqb key k)
         end;
    cbn [playwrightRefs jiraKeys tags priority figmaUrl figmaNodeId
         figmaComponentKey variant];
    refine (conj _ (conj _ (conj _ (conj _ (conj _ (conj _ (conj _ _)))))));
    try assumption;
    apply Forall_app; (split; [assumption|]); try assumption;
    constructor; [exact Sx | constructor].
Qed.

Lemma metaOf_tidy node : tidyMeta (metaOf node).
Proof.
  assert (tidyMeta emptyMeta) as E.
  { unfold tidyMeta, emptyMeta, trimmed.
    cbn [playwrightRefs jiraKeys tags priority figmaUrl figmaNodeId
         figmaComponentKey variant].
    refine (conj _ (conj _ (conj _ (conj _ (conj _ (conj _ (conj _ _)))))));
      first [apply edgeFree_empty | constructor]. }
  unfold metaOf. destruct (truthy (extOf node)); [|exact E].
  apply fold_left_keeps; [|exact E]. intros m e Tm.
  unfold applyExt. apply fold_left_keeps; [|exact Tm]. intros m1 ch T1.
  unfold applyChild. destruct (typeofObject ch); [|exact T1].
  apply fold_left_keeps; [|exact T1]. intros m2 e' T2.
  unfold applyEntry. apply fold_left_keeps; [|exact T2]. intros m3 y T3.
  now apply applyKey_tidy.
Qed.

Lemma collected_from_node tree name el :
  In el (collectBpmnElements tree name) ->
  exists node tag, el = elementOf node tag /\ hasId node = true.
Proof.
  unfold collectBpmnElements. rewrite visit_preorder, in_map_iff.
  intros [[tag node] [<- I]]. apply filter_In in I as [_ H].
  exists node, tag. split; [reflexivity | exact H].
Qed.

End MetaMore.

(** X5.  Test references.  The values under a [playwrightRef] key are
    appended to the references in the order in which they stand, each as its
    trimmed text (what [str] gives: white space of any kind is taken away
    at both ends); falsy values are left out, nothing is left out for being
    there already, and no other field changes. *)
Theorem X5_playwrightRefs_in_order :
  forall (kk : string) (v : JsValue) (m : Meta),
    localKey kk = "playwrightRef" ->
    applyEntry m (kk, v)
    = mkMeta
        (playwrightRefs m ++ List.map str (List.filter truthy (asArray v)))
        (jiraKeys m) (tags m) (priority m) (figmaUrl m) (figmaNodeId m)
        (figmaComponentKey m) (variant m).
Proof.
  intros kk v m K. unfold applyEntry. cbn [fst snd]. rewrite K.
  apply refs_fold.
Qed.

Lemma X5_witness :
  playwrightRefs
    (applyEntry emptyMeta
       ("test:playwrightRef",
        JArr [JStr (bytes [194; 160; 9] ++ "tests/a.spec.ts"
                    ++ bytes [226; 128; 131; 32]);
              JStr ""; JStr "tests/a.spec.ts"]))
  = ["tests/a.spec.ts"; "tests/a.spec.ts"].
Proof.
  rewrite (X5_playwrightRefs_in_order "test:playwrightRef"
             (JArr [JStr (bytes [194; 160; 9] ++ "tests/a.spec.ts"
                          ++ bytes [226; 128; 131; 32]);
                    JStr ""; JStr "tests/a.spec.ts"])
             emptyMeta eq_refl).
  reflexivity.
Defined.

(** X6.  Scalar fields.  Under [priority], [figmaUrl], [figmaNodeId],
    [figmaComponentKey] and [variant] the last value wins: after the values
    of one such key the field holds the trimmed text of the last truthy
    value, and it is left as it was when there is none. *)
Theorem X6_scalar_last_wins :
  forall (key kk : string) (proj : Meta -> string) (v : JsValue) (m : Meta),
    scalarField key = Some proj ->
    localKey kk = key ->
    proj (applyEntry m (kk, v))
    = match List.filter truthy (asArray v) with
      | [] => proj m
      | l => str (List.last l JUndefined)
      end.
Proof.
  intros key kk proj v m S K. unfold applyEntry. cbn [fst snd]. rewrite K.
  rewrite (scalar_fold key proj _ m S).
  now destruct (List.filter truthy (asArray v)).
Qed.

Lemma X6_witness :
  priority
    (applyEntry emptyMeta
       ("test:priority",
        JArr [JStr "low"; JStr (bytes [227; 128; 128] ++ " high" ++ bytes [10])]))
  = "high".
Proof.
  rewrite (X6_scalar_last_wins "priority" "test:priority" priority
             (JArr [JStr "low";
                    JStr (bytes [227; 128; 128] ++ " high" ++ bytes [10])])
             emptyMeta eq_refl eq_refl).
  reflexivity.
Defined.

(** X7.  Prefixes of keys.  Only what follows the last colon of a key
    counts: a key with a prefix is treated as the key without it, whatever
    the prefix is (an attribute such as [@test:tags] included). *)
Theorem X7_key_prefix_is_dropped :
  forall (ns name : string) (v : JsValue) (m : Meta),
    noneSep isColon name = true ->
    localKey (ns ++ ":" ++ name) = name /\
    localKey name = name /\
    applyEntry m ((ns ++ ":" ++ name)%string, v) = applyEntry m (name, v).
Proof.
  intros ns name v m N. destruct (localKey_prefixed ns name N) as [E1 E2].
  split; [exact E1|]. split; [exact E2|].
  unfold applyEntry. cbn [fst snd]. now rewrite E1, E2.
Qed.

Lemma X7_witness :
  localKey "@test:tags" = "tags" /\
  localKey "tags" = "tags" /\
  applyEntry emptyMeta ("@test:tags", JStr "a,b")
  = applyEntry emptyMeta ("tags", JStr "a,b").
Proof.
  apply (X7_key_prefix_is_dropped "@test" "tags" (JStr "a,b") emptyMeta).
  reflexivity.
Defined.

(** X8.  Text children of [extensionElements].  The keys are looked for one
    level below the children of [extensionElements]: a child that is a text
    (or a number) gives nothing, whatever its name, so metadata written as
    text elements directly under [extensionElements] is not read. *)
Theorem X8_text_children_are_not_read :
  (forall (m : Meta) (e : string * JsValue),
      (forall ch, In ch (asArray (snd e)) -> typeofObject ch = false) ->
      applyExt m e = m) /\
  (forall node : JsValue,
      (forall e ch, In e (entriesOf (extOf node)) ->
                    In ch (asArray (snd e)) -> typeofObject ch = false) ->
      metaOf node = emptyMeta).
Proof.
  assert (forall (m : Meta) (e : string * JsValue),
             (forall ch, In ch (asArray (snd e)) -> typeofObject ch = false) ->
             applyExt m e = m) as One.
  { intros m e H. unfold applyExt. apply fold_left_fixed. intros ch I.
    apply filter_In in I as [I _]. unfold applyChild. now rewrite (H ch I). }
  split; [exact One|].
  intros node H. unfold metaOf. destruct (truthy (extOf node)); [|reflexivity].
  apply fold_left_fixed. intros e I. apply One. intros ch. now apply H.
Qed.

Lemma X8_witness :
  metaOf (JObj [("@id", JStr "Task_1");
                ("bpmn:extensionElements",
                 JObj [("test:tags", JStr "a,b");
                       ("test:playwrightRef",
                        JArr [JStr "tests/a.spec.ts"; JStr "tests/b.spec.ts"])])])
  = emptyMeta.
Proof.
  apply (proj2 X8_text_children_are_not_read
           (JObj [("@id", JStr "Task_1");
                  ("bpmn:extensionElements",
                   JObj [("test:tags", JStr "a,b");
                         ("test:playwrightRef",
                          JArr [JStr "tests/a.spec.ts"; JStr "tests/b.spec.ts"])])])).
  intros e ch Ie Ich. cbn in Ie.
  destruct Ie as [<-|[<-|[]]]; cbn in Ich;
    repeat (destruct Ich as [<-|Ich]; [reflexivity|]); destruct Ich.
Defined.

(** X9.  Tidy metadata.  Whatever the document holds, in the metadata of
    an extracted element every tag and every Jira key is non-empty, trimmed
    and free of commas and pipes, and every test reference and every scalar
    field is trimmed.  Trimmed means that no white-space character, of the
    25 that [trim] takes away, stands at the head or at the end. *)
Theorem X9_metadata_is_tidy :
  forall (tree : JsValue) (name : string) (el : BpmnEl),
    In el (collectBpmnElements tree name) -> tidyMeta (el_meta el).
Proof.
  intros tree name el I.
  apply collected_from_node in I as [node [tag [-> _]]].
  cbn [elementOf el_meta]. apply metaOf_tidy.
Qed.

Lemma X9_witness :
  tidyMeta
    (metaOf (JObj [("@id", JStr "Task_1");
                   ("bpmn:extensionElements",
                    JObj [("ext:properties",
                           JObj [("ext:tags", JStr " a ,, b|c ");
                                 ("ext:priority", JStr " high ")])])])).
Proof.
  apply (X9_metadata_is_tidy
           (JObj [("@id", JStr "Task_1");
                  ("bpmn:extensionElements",
                   JObj [("ext:properties",
                          JObj [("ext:tags", JStr " a ,, b|c ");
                                ("ext:priority", JStr " high ")])])])
           "bpmn:task"
           (elementOf
              (JObj [("@id", JStr "Task_1");
                     ("bpmn:extensionElements",
                      JObj [("ext:properties",
                             JObj [("ext:tags", JStr " a ,, b|c ");
                                   ("ext:priority", JStr " high ")])])])
              "bpmn:task")).
  left. reflexivity.
Defined.

(** X10.  Identified elements.  Every extracted element has a truthy [id],
    and its name is a truthy value or the empty string; so every row of a
    report built from extracted elements has a truthy [id]. *)
Theorem X10_elements_have_ids :
  forall (tree : JsValue) (name : string),
    (forall el, In el (collectBpmnElements tree name) ->
                truthy (el_id el) = true /\
                (truthy (el_name el) = true \/ el_name el = JStr "")) /\
    (forall (hitsById : HitsById) (row : Row),
        In row (rows (buildReport (collectBpmnElements tree name) hitsById)) ->
        truthy (r_id row) = true).
Proof.
  intros tree name.
  assert (forall el, In el (collectBpmnElements tree name) ->
                     truthy (el_id el) = true /\
                     (truthy (el_name el) = true \/ el_name el = JStr "")) as E.
  { intros el I. apply collected_from_node in I as [node [tag [-> H]]].
    cbn [elementOf el_id el_name]. split; [exact H|].
    unfold or_else. destruct (truthy (getProp node "@name")) eqn:T; auto. }
  split; [exact E|].
  intros hitsById row I. unfold buildReport in I. cbn [rows] in I.
  apply in_map_iff in I as [el [<- I]]. cbn [buildRow r_id]. now apply E.
Qed.

Lemma X10_witness :
  truthy (JStr "Task_1") = true /\
  (truthy (JStr "") = true \/ JStr "" = JStr "").
Proof.
  apply (proj1 (X10_elements_have_ids
                  (JObj [("bpmn:task", JObj [("@id", JStr "Task_1")])]) "")
           (mkEl (JStr "Task_1") "bpmn:task" (JStr "") emptyMeta)).
  left. reflexivity.
Defined.

(** ** The scan of one text *)

Section ScanMore.

Lemma countChar_take_le c s : forall i j,
  i <= j -> countChar c (take i s) <= countChar c (take j s).
Proof.
  induction s as [|a s IH]; intros [|i] [|j] H; cbn [take countChar]; try lia.
  specialize (IH i j). lia.
Qed.

Lemma countChar_take_all c s : forall i,
  countChar c (take i s) <= countChar c s.
Proof.
  induction s as [|a s IH]; intros [|i]; cbn [take countChar]; try lia.
  specialize (IH i). lia.
Qed.

Lemma lineOf_mono text i j : i <= j -> lineOf text i <= lineOf text j.
Proof.
  intros H. rewrite !lineOf_max.
  pose proof (countChar_take_le LF text (S i) (S j)). lia.
Qed.

Lemma separated_from from ms :
  separated from ms -> Forall (fun m => from <= m_index m) ms.
Proof.
  revert from. induction ms as [|m ms IH]; intros from H; [constructor|].
  destruct H as [H1 H2]. constructor; [exact H1|].
  apply IH in H2. eapply Forall_impl; [|exact H2].
  cbn beta. unfold nextIndex. intros m' L. lia.
Qed.

Lemma lines_sorted text ms : forall from,
  separated from ms ->
  StronglySorted le (List.map (fun m => lineOf text (m_index m)) ms).
Proof.
  induction ms as [|m ms IH]; intros from H; [constructor|].
  destruct H as [_ H]. cbn [List.map]. constructor; [now apply IH in H|].
  apply separated_from in H. apply Forall_map.
  eapply Forall_impl; [|exact H]. cbn beta. unfold nextIndex. intros m' L.
  apply lineOf_mono. lia.
Qed.

Lemma find_split {A : Type} (f : A -> bool) (l : list A) x :
  List.find f l = Some x ->
  exists before after,
    l = before ++ x :: after /\ f x = true /\
    forall y, In y before -> f y = false.
Proof.
  induction l as [|a l IH]; [discriminate|]. cbn [List.find].
  destruct (f a) eqn:Fa.
  - intros E. inversion E. subst a. exists [], l. now repeat split.
  - intros E. destruct (IH E) as [before [after [-> [Fx B]]]].
    exists (a :: before), after. repeat split; [assumption|].
    intros y [<-|I]; [assumption | now apply B].
Qed.

Lemma includes_iff t m :
  includes t m = true <-> exists pre post, t = (pre ++ m ++ post)%string.
Proof.
  induction t as [|a t IH].
  - cbn [includes]. unfold startsWith. split.
    + destruct (stripPrefix m EmptyString) as [r|] eqn:E; [|discriminate].
      intros _. apply stripPrefix_some in E. exists EmptyString, r. exact E.
    + intros [pre [post E]]. destruct pre; [|discriminate].
      cbn in E. destruct m; [reflexivity | discriminate].
  - cbn [includes]. rewrite orb_true_iff, IH. unfold startsWith. split.
    + intros [S|[pre [post E]]].
      * destruct (stripPrefix m (String a t)) as [r|] eqn:E; [|discriminate].
        apply stripPrefix_some in E. exists EmptyString, r. exact E.
      * exists (String a pre), post. cbn. now rewrite E.
    + intros [[|b pre] [post E]].
      * left. cbn in E. rewrite E, stripPrefix_append. reflexivity.
      * right. cbn in E. inversion E. now exists pre, post.
Qed.

End ScanMore.

(** X11.  Lines in scan order.  The hits of one file carry the name of the
    file and come with lines that never decrease; every line is at least 1
    and at most the number of line feeds of the text (at most 1 for a text
    of one line). *)
Theorem X11_lines_never_decrease :
  forall (f : string) (titles : list string) (text : string),
    StronglySorted le
      (List.map (fun p => line (snd p)) (scanText f titles text)) /\
    Forall (fun p => file (snd p) = f /\
                     1 <= line (snd p) <= Nat.max 1 (countChar LF text))
      (scanText f titles text).
Proof.
  intros f titles text. unfold scanText. split.
  - rewrite map_map. cbn [hitOf snd line].
    apply (lines_sorted text (allMatches text) 0).
    apply execLoop_separated.
  - apply Forall_map, Forall_forall. intros m _. cbn [hitOf snd line file].
    split; [reflexivity|]. rewrite lineOf_max.
    pose proof (countChar_take_all LF text (S (m_index m))). lia.
Qed.

(** X12.  The title of a hit.  The title stored with a hit is the first
    title of the file that holds the text of the marker; when no title holds
    it, the title is empty. *)
Theorem X12_title_of_hit :
  forall (f : string) (titles : list string) (text id : string)
         (hit : TestHit),
    In (id, hit) (scanText f titles text) ->
    (title hit = "" /\
     forall t pre post, In t titles -> t <> (pre ++ marker id ++ post)%string)
    \/
    (exists before after pre post,
        titles = before ++ title hit :: after /\
        title hit = (pre ++ marker id ++ post)%string /\
        forall t pre' post', In t before ->
                             t <> (pre' ++ marker id ++ post')%string).
Proof.
  intros f titles text id hit I.
  apply scanText_in in I as [m [_ [_ [_ ->]]]]. cbn [title].
  unfold findTitle.
  destruct (List.find (fun t => includes t (marker id)) titles) as [t0|] eqn:F.
  - right. apply find_split in F as [before [after [E [Inc B]]]].
    apply includes_iff in Inc as [pre [post Inc]].
    exists before, after, pre, post. repeat split; [exact E | exact Inc |].
    intros t pre' post' It Et. specialize (B t It). cbn beta in B.
    assert (includes t (marker id) = true) as C
      by (apply includes_iff; now exists pre', post').
    congruence.
  - left. split; [reflexivity|]. intros t pre post It Et.
    pose proof (find_none _ _ F t It) as N. cbn beta in N.
    assert (includes t (marker id) = true) as C
      by (apply includes_iff; now exists pre, post).
    congruence.
Qed.

Lemma X12_witness :
  (title (mkHit "a.spec.ts" 1 "pays [bpmn:Pay]") = "" /\
   forall t pre post, In t ["ships"; "pays [bpmn:Pay]"; "[bpmn:Pay] again"] ->
                      t <> (pre ++ marker "Pay" ++ post)%string)
  \/
  (exists before after pre post,
      ["ships"; "pays [bpmn:Pay]"; "[bpmn:Pay] again"]
      = before ++ title (mkHit "a.spec.ts" 1 "pays [bpmn:Pay]") :: after /\
      title (mkHit "a.spec.ts" 1 "pays [bpmn:Pay]")
      = (pre ++ marker "Pay" ++ post)%string /\
      forall t pre' post', In t before ->
                           t <> (pre' ++ marker "Pay" ++ post')%string).
Proof.
  apply (X12_title_of_hit "a.spec.ts"
           ["ships"; "pays [bpmn:Pay]"; "[bpmn:Pay] again"]
           "test('pays [bpmn:Pay]')" "Pay"
           (mkHit "a.spec.ts" 1 "pays [bpmn:Pay]")).
  left. reflexivity.
Defined.

(** X13.  The scan of the test files.  The scan ends with a value (it
    neither exits nor throws), changes no file and no directory, and its
    value is the grouping of the hits of the listed files in list order,
    each file read as it is; a listed file that is not there is passed
    over.  (The listing gives files: a listed path that is not a file is not
    a directory either.) *)
Theorem X13_scan_of_test_files :
  forall (ROOT : string) (globSync : JsMap.t string -> list string)
         (titlesOf : string -> list string) (w : Cli.World),
    (forall f, In f (globSync (Cli.w_files w)) ->
       JsMap.get (Cli.pathJoin ROOT f) (Cli.w_files w) = None ->
       Cli.isDir w (Cli.pathJoin ROOT f) = false) ->
    let run := Cli.scanTestsForBpmnTags ROOT globSync titlesOf w in
    fst run
    = Cli.Done
        (groupHits
           (List.flat_map
              (fun f =>
                 match JsMap.get (Cli.pathJoin ROOT f) (Cli.w_files w) with
                 | Some text => scanText f (titlesOf text) text
                 | None => []
                 end)
              (globSync (Cli.w_files w)))) /\
    Cli.w_files (snd run) = Cli.w_files w /\
    Cli.w_dirs (snd run) = Cli.w_dirs w.
Proof.
  intros ROOT globSync titlesOf w H run. subst run.
  unfold Cli.scanTestsForBpmnTags, Cli.emit. cbn.
  match goal with
  | |- context [Cli.forEachM _ _ ?a ?w0] =>
      destruct (scanFiles_groups ROOT titlesOf (globSync (Cli.w_files w)) a w0)
        as [w' [E [F D]]]
  end.
  - exact H.
  - cbn in E, F, D. rewrite E. cbn. auto.
Qed.

Lemma X13_witness :
  let w := Cli.mkWorld [("/repo/tests/a.spec.ts", "x [bpmn:Pay]")] [] [] in
  let run := Cli.scanTestsForBpmnTags "/repo"
               (fun _ => ["tests/gone.spec.ts"; "tests/a.spec.ts"])
               (fun _ => []) w in
  fst run
  = Cli.Done
      (groupHits
         (List.flat_map
            (fun f =>
               match JsMap.get (Cli.pathJoin "/repo" f) (Cli.w_files w) with
               | Some text => scanText f [] text
               | None => []
               end)
            ["tests/gone.spec.ts"; "tests/a.spec.ts"])) /\
  Cli.w_files (snd run) = Cli.w_files w /\
  Cli.w_dirs (snd run) = Cli.w_dirs w.
Proof.
  apply (X13_scan_of_test_files "/repo"
           (fun _ => ["tests/gone.spec.ts"; "tests/a.spec.ts"])
           (fun _ => [])
           (Cli.mkWorld [("/repo/tests/a.spec.ts", "x [bpmn:Pay]")] [] [])).
  reflexivity.
Defined.

(** ** The runs of the two scripts *)

Section CliMore.
Import MonadNotation.
Local Open Scope monad_scope.

Lemma bind_done {A B : Type} (c : M A) (k : A -> M B) w a w' :
  c w = (Done a, w') -> bind c k w = k a w'.
Proof. intros E. cbn. now rewrite E. Qed.

Lemma get_writes_other (writes : list (string * string)) : forall files p,
  ~ In p (List.map fst writes) ->
  JsMap.get p
    (List.fold_left (fun m e => JsMap.set (fst e) (snd e) m) writes files)
  = JsMap.get p files.
Proof.
  induction writes as [|[q c] writes IH]; intros files p N; [reflexivity|].
  cbn [List.fold_left fst snd]. rewrite IH.
  - apply get_set_other. intros ->. apply N. now left.
  - intros I. apply N. now right.
Qed.

Lemma get_writes_in (writes : list (string * string)) : forall files p c,
  NoDup (List.map fst writes) -> In (p, c) writes ->
  JsMap.get p
    (List.fold_left (fun m e => JsMap.set (fst e) (snd e) m) writes files)
  = Some c.
Proof.
  induction writes as [|[q d] writes IH]; intros files p c N I; [destruct I|].
  cbn [List.map fst] in N. inversion N as [|? ? N1 N2]. subst.
  cbn [List.fold_left fst snd]. destruct I as [E|I].
  - inversion E. subst. rewrite get_writes_other by exact N1.
    apply get_set_same.
  - now apply IH.
Qed.

Lemma reportPaths_flat ROOT :
  reportPaths ROOT
  = List.map (String.append ROOT)
      ["/bpmn-test-report.csv"; "/bpmn-test-report.html";
       "/bpmn-test-report.json"; "/reports/coverage/bpmn-test-report.csv";
       "/reports/coverage/index.html";
       "/reports/coverage/bpmn-test-report.json"].
Proof.
  unfold reportPaths, OUT_ROOT_CSV, OUT_ROOT_HTML, OUT_ROOT_JSON, OUT_CSV,
    OUT_HTML, OUT_JSON, OUT_DIR, pathJoin.
  rewrite !append_assoc. reflexivity.
Qed.

Lemma taskReportPaths_flat R :
  taskReportPaths R
  = List.map (String.append R)
      ["/reports/coverage/bpmn-test-report.json";
       "/reports/coverage/bpmn-test-report.csv";
       "/reports/coverage/index.html"].
Proof.
  unfold taskReportPaths, T_OUT_JSON, T_OUT_CSV, T_OUT_HTML, T_OUT_DIR,
    pathJoin.
  rewrite !append_assoc. reflexivity.
Qed.

Lemma NoDup_map_append ROOT (l : list string) :
  NoDup l -> NoDup (List.map (String.append ROOT) l).
Proof.
  induction 1 as [|x l N _ IH]; cbn [List.map]; constructor; [|exact IH].
  intros I. apply in_map_iff in I as [y [E I]].
  apply append_inj_l in E. now subst.
Qed.

Lemma reportPaths_NoDup ROOT : NoDup (reportPaths ROOT).
Proof.
  rewrite reportPaths_flat. apply NoDup_map_append.
  repeat constructor; cbn [In]; intuition discriminate.
Qed.

Lemma taskReportPaths_NoDup R : NoDup (taskReportPaths R).
Proof.
  rewrite taskReportPaths_flat. apply NoDup_map_append.
  repeat constructor; cbn [In]; intuition discriminate.
Qed.

(** No report is written to the place of a directory the script makes. *)
Lemma reportPaths_not_dir ROOT p :
  In p (reportPaths ROOT) ->
  p <> ROOT /\ p <> pathJoin ROOT "reports" /\ p <> OUT_DIR ROOT.
Proof.
  rewrite reportPaths_flat. intros I. apply in_map_iff in I as [s [<- I]].
  split; [|split]; intros E.
  - apply append_self_l in E. subst s. cbn [In] in I. intuition discriminate.
  - unfold pathJoin in E.
    apply append_inj_l in E. subst s. cbn [In] in I. intuition discriminate.
  - unfold OUT_DIR, pathJoin in E. rewrite !append_assoc in E.
    apply append_inj_l in E. subst s. cbn [In] in I. intuition discriminate.
Qed.

Lemma taskReportPaths_not_dir R p :
  In p (taskReportPaths R) -> p <> T_OUT_DIR R.
Proof.
  rewrite taskReportPaths_flat. intros I. apply in_map_iff in I as [s [<- I]].
  intros E. unfold T_OUT_DIR, pathJoin in E. rewrite !append_assoc in E.
  apply append_inj_l in E. subst s. cbn [In] in I. intuition discriminate.
Qed.

Lemma existsSync_file p w text :
  JsMap.get p (w_files w) = Some text ->
  existsSync p w
  = (Done true, mkWorld (w_files w) (w_dirs w) (w_trace w ++ [EvExists p])).
Proof.
  intros H. unfold existsSync, emit. cbn. now rewrite H.
Qed.

Lemma loadBpmn_run parse p w xml :
  JsMap.get p (w_files w) = Some xml ->
  loadBpmn parse p w
  = (match parse xml with
     | Some dom => Done dom
     | None => Thrown "parse error"
     end,
     mkWorld (w_files w) (w_dirs w) (w_trace w ++ [EvRead p; EvParse xml])).
Proof.
  intros H. unfold loadBpmn, readText, readFileSync, emit, throw. cbn.
  rewrite H. cbn. rewrite <- app_assoc. now destruct (parse xml).
Qed.

Lemma scan_run ROOT globSync titlesOf w :
  (forall f, In f (globSync (w_files w)) ->
     JsMap.get (pathJoin ROOT f) (w_files w) = None ->
     isDir w (pathJoin ROOT f) = false) ->
  exists w',
    scanTestsForBpmnTags ROOT globSync titlesOf w
    = (Done (groupHits
               (List.flat_map (fileHits ROOT titlesOf (w_files w))
                  (globSync (w_files w)))), w') /\
    w_files w' = w_files w /\ w_dirs w' = w_dirs w.
Proof.
  intros H. unfold scanTestsForBpmnTags, emit. cbn.
  match goal with
  | |- context [forEachM _ _ ?a ?w0] =>
      destruct (scanFiles_groups ROOT titlesOf (globSync (w_files w)) a w0)
        as [w' [E [F D]]]
  end.
  - exact H.
  - cbn in E, F, D. exists w'. rewrite E. auto.
Qed.

Lemma writeText_run ROOT dir p content w ds :
  mkdir ROOT dir w
  = (Done tt, mkWorld (w_files w) (ds ++ w_dirs w) (w_trace w ++ [EvMkdir dir])) ->
  exists w',
    writeText ROOT dir p content w = (Done tt, w') /\
    w_files w' = JsMap.set p content (w_files w).
Proof.
  intros H. unfold writeText, ensureDir. cbn [bind Monad_M]. rewrite H.
  unfold writeFileSync, emit. cbn. eauto.
Qed.

Lemma writeText_blocked ROOT dir p content w x :
  JsMap.get dir (w_files w) = Some x ->
  exists w',
    writeText ROOT dir p content w = (Thrown "EEXIST", w') /\
    w_files w' = w_files w.
Proof.
  intros H. unfold writeText, ensureDir. cbn [bind Monad_M].
  rewrite (mkdir_blocked _ _ _ _ H). eauto.
Qed.

End CliMore.

Section RunFacts.
Import MonadNotation.
Local Open Scope monad_scope.

Lemma ret_run {A : Type} (a : A) (w : World) :
  (ret a : M A) w = (Done a, w).
Proof. reflexivity. Qed.

Lemma bind_thrown {A B : Type} (c : M A) (k : A -> M B) w msg w' :
  c w = (Thrown msg, w') -> bind c k w = (Thrown msg, w').
Proof. intros E. cbn. now rewrite E. Qed.

Lemma bind_exited {A B : Type} (c : M A) (k : A -> M B) w code w' :
  c w = (Exited code, w') -> bind c k w = (Exited code, w').
Proof. intros E. cbn. now rewrite E. Qed.

Lemma writeFileSync_run p content w :
  writeFileSync p content w
  = (Done tt,
     mkWorld (JsMap.set p content (w_files w)) (w_dirs w)
       (w_trace w ++ [EvWrite p content])).
Proof. reflexivity. Qed.

End RunFacts.

Ltac run_step E := erewrite (bind_done _ _ _ _ _ E); cbn beta.

Ltac in_paths := unfold reportPaths, taskReportPaths; cbn [In]; auto 10.

(** What is known of the file at [d] is carried over a write to a report
    path. *)
Ltac carry d w0 w' F H :=
  let T := fresh in
  assert (JsMap.get d (w_files w') = JsMap.get d (w_files w0)) as T
    by (rewrite F; apply get_set_other; apply reportPaths_not_dir; in_paths);
  rewrite H in T; clear H; rename T into H.

(** One [writeText] of [main] that goes through: no file stands at the
    directory to make nor, for [reports/coverage], at [reports]. *)
Ltac write_step ROOT Hroot Hrep Hout :=
  match goal with
  | |- context [bind (writeText ?R ?d ?p ?c) _ ?w0] =>
      let w' := fresh "w" in
      let ds := fresh "ds" in
      let E := fresh "E" in
      let E' := fresh "E" in
      let F := fresh "F" in
      assert (exists ds,
                mkdir R d w0
                = (Done tt,
                   mkWorld (w_files w0) (ds ++ w_dirs w0)
                     (w_trace w0 ++ [EvMkdir d]))) as [ds E]
        by (first [ exists []; apply mkdir_base; exact Hroot
                  | apply (mkdir_below R "reports" "coverage" w0
                             eq_refl eq_refl Hrep Hout) ]);
      destruct (writeText_run R d p c w0 ds E) as [w' [E' F]];
      clear E; run_step E';
      carry ROOT w0 w' F Hroot; carry (OUT_DIR ROOT) w0 w' F Hout;
      try (carry (pathJoin ROOT "reports") w0 w' F Hrep)
  end.

(** The run of [main] up to the first write. *)
Ltac main_prefix ROOT parse globSync titlesOf w xml Hdoc Hparse Hscan w3 E3 F3 :=
  let L := fresh "L" in
  let D3 := fresh "D" in
  unfold main;
  run_step (existsSync_file _ w _ Hdoc); cbn [negb];
  run_step (ret_run tt
              (mkWorld (w_files w) (w_dirs w)
                 (w_trace w ++ [EvExists (BPMN_PATH ROOT)])));
  pose proof (loadBpmn_run parse (BPMN_PATH ROOT)
                (mkWorld (w_files w) (w_dirs w)
                   (w_trace w ++ [EvExists (BPMN_PATH ROOT)])) xml Hdoc) as L;
  rewrite Hparse in L; run_step L; clear L;
  match goal with
  | |- context [bind (scanTestsForBpmnTags _ _ _) _ ?w0] =>
      destruct (scan_run ROOT globSync titlesOf w0 Hscan) as [w3 [E3 [F3 D3]]]
  end;
  cbn [w_files w_dirs] in E3, F3, D3; run_step E3.

Lemma main_run ROOT parse globSync titlesOf
    (toCSV : list Row -> string) (toHTML : list Row -> list Orphan -> string)
    (toJSON : ReportData -> string) missingMsg doneMsg w xml dom :
  JsMap.get (BPMN_PATH ROOT) (w_files w) = Some xml ->
  parse xml = Some dom ->
  JsMap.get ROOT (w_files w) = None ->
  JsMap.get (pathJoin ROOT "reports") (w_files w) = None ->
  JsMap.get (OUT_DIR ROOT) (w_files w) = None ->
  (forall f, In f (globSync (w_files w)) ->
     JsMap.get (pathJoin ROOT f) (w_files w) = None ->
     isDir w (pathJoin ROOT f) = false) ->
  let report :=
    buildReport
      (collectBpmnElements
         (or_else (getProp dom "bpmn:definitions")
            (or_else (getProp dom "definitions") dom)) "")
      (groupHits
         (List.flat_map (fileHits ROOT titlesOf (w_files w))
            (globSync (w_files w)))) in
  exists w',
    main ROOT parse globSync titlesOf toCSV toHTML toJSON missingMsg doneMsg w
    = (Done tt, w') /\
    w_files w'
    = List.fold_left (fun m e => JsMap.set (fst e) (snd e) m)
        [(OUT_ROOT_CSV ROOT, toCSV (rows report));
         (OUT_ROOT_HTML ROOT, toHTML (rows report) (orphans report));
         (OUT_ROOT_JSON ROOT, toJSON report);
         (OUT_CSV ROOT, toCSV (rows report));
         (OUT_HTML ROOT, toHTML (rows report) (orphans report));
         (OUT_JSON ROOT, toJSON report)]
        (w_files w).
Proof.
  intros Hdoc Hparse Hroot Hrep Hout Hscan report.
  main_prefix ROOT parse globSync titlesOf w xml Hdoc Hparse Hscan w3 E3 F3.
  fold report. rewrite <- F3 in Hroot, Hrep, Hout.
  do 6 write_step ROOT Hroot Hrep Hout.
  unfold consoleLog, emit. eexists. split; [reflexivity|].
  cbn [w_files List.fold_left fst snd]. congruence.
Qed.

Lemma main_blocked ROOT parse globSync titlesOf
    (toCSV : list Row -> string) (toHTML : list Row -> list Orphan -> string)
    (toJSON : ReportData -> string) missingMsg doneMsg w xml dom other :
  JsMap.get (BPMN_PATH ROOT) (w_files w) = Some xml ->
  parse xml = Some dom ->
  JsMap.get ROOT (w_files w) = None ->
  JsMap.get (OUT_DIR ROOT) (w_files w) = Some other ->
  (forall f, In f (globSync (w_files w)) ->
     JsMap.get (pathJoin ROOT f) (w_files w) = None ->
     isDir w (pathJoin ROOT f) = false) ->
  let report :=
    buildReport
      (collectBpmnElements
         (or_else (getProp dom "bpmn:definitions")
            (or_else (getProp dom "definitions") dom)) "")
      (groupHits
         (List.flat_map (fileHits ROOT titlesOf (w_files w))
            (globSync (w_files w)))) in
  exists w',
    main ROOT parse globSync titlesOf toCSV toHTML toJSON missingMsg doneMsg w
    = (Thrown "EEXIST", w') /\
    w_files w'
    = List.fold_left (fun m e => JsMap.set (fst e) (snd e) m)
        [(OUT_ROOT_CSV ROOT, toCSV (rows report));
         (OUT_ROOT_HTML ROOT, toHTML (rows report) (orphans report));
         (OUT_ROOT_JSON ROOT, toJSON report)]
        (w_files w).
Proof.
  intros Hdoc Hparse Hroot Hout Hscan report.
  main_prefix ROOT parse globSync titlesOf w xml Hdoc Hparse Hscan w3 E3 F3.
  fold report. rewrite <- F3 in Hroot, Hout.
  do 3 write_step ROOT Hroot Hdoc Hout.
  match goal with
  | |- context [bind (writeText ?R ?d ?p ?c) _ ?w0] =>
      destruct (writeText_blocked R d p c w0 other Hout) as [w' [E' F']]
  end.
  exists w'. split; [now apply bind_thrown|].
  cbn [w_files List.fold_left fst snd]. congruence.
Qed.

Section FrameFacts.
Import MonadNotation.
Local Open Scope monad_scope.
Context {outs : list string}.

Lemma writesOnly_bind {A B : Type} (c : M A) (k : A -> M B) :
  writesOnly outs c -> (forall a, writesOnly outs (k a)) ->
  writesOnly outs (bind c k).
Proof.
  intros Hc Hk w p N. specialize (Hc w p N). cbn.
  destruct (c w) as [[a|code|msg] w']; cbn [snd] in *; try exact Hc.
  now rewrite (Hk a w' p N).
Qed.

Lemma writesOnly_pure {A : Type} (c : M A) :
  (forall w, w_files (snd (c w)) = w_files w) -> writesOnly outs c.
Proof. intros H w p _. now rewrite H. Qed.

Lemma writesOnly_tryCatch {A : Type} (c : M A) (h : string -> M A) :
  writesOnly outs c -> (forall msg, writesOnly outs (h msg)) ->
  writesOnly outs (tryCatch c h).
Proof.
  intros Hc Hh w p N. specialize (Hc w p N). unfold tryCatch.
  destruct (c w) as [[a|code|msg] w']; cbn [snd] in *; try exact Hc.
  now rewrite (Hh msg w' p N).
Qed.

Lemma writesOnly_forEachM {A S : Type} (f : S -> A -> M S) (l : list A) :
  (forall s a, writesOnly outs (f s a)) ->
  forall s, writesOnly outs (forEachM f l s).
Proof.
  intros H. induction l as [|a l IH]; intros s; cbn [forEachM].
  - now apply writesOnly_pure.
  - apply writesOnly_bind; [apply H | exact IH].
Qed.

Lemma writesOnly_ret {A : Type} (a : A) : writesOnly outs (ret a : M A).
Proof. now apply writesOnly_pure. Qed.

Lemma writesOnly_emit e : writesOnly outs (emit e).
Proof. now apply writesOnly_pure. Qed.

Lemma writesOnly_exit {A : Type} code : writesOnly outs (exit code : M A).
Proof. now apply writesOnly_pure. Qed.

Lemma writesOnly_throw {A : Type} msg : writesOnly outs (throw msg : M A).
Proof. now apply writesOnly_pure. Qed.

Lemma writesOnly_existsSync p : writesOnly outs (existsSync p).
Proof. now apply writesOnly_pure. Qed.

Lemma writesOnly_readFileSync p : writesOnly outs (readFileSync p).
Proof.
  apply writesOnly_pure. intros w. unfold readFileSync, emit. cbn.
  now destruct (JsMap.get p (w_files w)).
Qed.

Lemma writesOnly_mkdir base p : writesOnly outs (mkdir base p).
Proof.
  apply writesOnly_pure. intros w.
  destruct (mkdir_cases base p w) as [[ds E]|[E|E]]; now rewrite E.
Qed.

Lemma writesOnly_writeFileSync p content :
  In p outs -> writesOnly outs (writeFileSync p content).
Proof.
  intros I w q N. rewrite writeFileSync_run. cbn [snd w_files].
  apply get_set_other. intros ->. now apply N.
Qed.

Lemma writesOnly_writeText ROOT dir p content :
  In p outs -> writesOnly outs (writeText ROOT dir p content).
Proof.
  intros I. unfold writeText, ensureDir.
  apply writesOnly_bind; [apply writesOnly_mkdir|]. intros _.
  now apply writesOnly_writeFileSync.
Qed.

Lemma writesOnly_scan ROOT globSync titlesOf :
  writesOnly outs (scanTestsForBpmnTags ROOT globSync titlesOf).
Proof.
  unfold scanTestsForBpmnTags.
  apply writesOnly_bind; [apply writesOnly_emit|]. intros _.
  apply writesOnly_bind; [now apply writesOnly_pure|]. intros files.
  apply writesOnly_forEachM. intros s f. unfold scanFile.
  apply writesOnly_bind; [apply writesOnly_existsSync|]. intros present.
  destruct (negb present); [apply writesOnly_ret|].
  apply writesOnly_bind; [apply writesOnly_readFileSync|]. intros text.
  apply writesOnly_ret.
Qed.

Lemma writesOnly_loadBpmn parse p : writesOnly outs (loadBpmn parse p).
Proof.
  unfold loadBpmn.
  apply writesOnly_bind; [apply writesOnly_readFileSync|]. intros xml.
  apply writesOnly_bind; [apply writesOnly_emit|]. intros _.
  destruct (parse xml); [apply writesOnly_ret | apply writesOnly_throw].
Qed.

End FrameFacts.

(** X14.  A document that cannot be parsed.  When the parser throws on the
    text of the document, the run ends there with exit code 1: no test file
    is listed or read and nothing is written. *)
Theorem X14_unparsable_document_aborts :
  forall (ROOT : string) (parse : string -> option JsValue)
         (globSync : JsMap.t string -> list string)
         (titlesOf : string -> list string)
         (toCSV : list Row -> string)
         (toHTML : list Row -> list Orphan -> string)
         (toJSON : ReportData -> string)
         (missingMsg : string -> string) (doneMsg : string) (w : World)
         (xml : string),
    JsMap.get (BPMN_PATH ROOT) (w_files w) = Some xml ->
    parse xml = None ->
    let run := main ROOT parse globSync titlesOf toCSV toHTML toJSON
                 missingMsg doneMsg w in
    exitCode (fst run) = 1%Z /\
    w_files (snd run) = w_files w /\
    w_dirs (snd run) = w_dirs w /\
    w_trace (snd run)
    = w_trace w ++ [EvExists (BPMN_PATH ROOT); EvRead (BPMN_PATH ROOT);
                    EvParse xml].
Proof.
  intros ROOT parse globSync titlesOf toCSV toHTML toJSON missingMsg doneMsg
    w xml Hdoc Hparse run. subst run. unfold main.
  run_step (existsSync_file _ w _ Hdoc). cbn [negb].
  run_step (ret_run tt
              (mkWorld (w_files w) (w_dirs w)
                 (w_trace w ++ [EvExists (BPMN_PATH ROOT)]))).
  pose proof (loadBpmn_run parse (BPMN_PATH ROOT)
                (mkWorld (w_files w) (w_dirs w)
                   (w_trace w ++ [EvExists (BPMN_PATH ROOT)])) xml Hdoc) as L.
  rewrite Hparse in L. rewrite (bind_thrown _ _ _ _ _ L).
  cbn [fst snd exitCode w_files w_dirs w_trace]. rewrite <- app_assoc.
  repeat split.
Qed.

Lemma X14_witness :
  let w := mkWorld [("/repo/ci_test.bpmn", "<bpmn:definitions")] ["/repo"] [] in
  let run := main "/repo" (fun _ => None) (fun _ => ["tests/a.spec.ts"])
               (fun _ => []) (fun _ => "") (fun _ _ => "") (fun _ => "")
               (fun p => p) "done" w in
  exitCode (fst run) = 1%Z /\
  w_files (snd run) = w_files w /\
  w_dirs (snd run) = w_dirs w /\
  w_trace (snd run)
  = w_trace w ++ [EvExists (BPMN_PATH "/repo"); EvRead (BPMN_PATH "/repo");
                  EvParse "<bpmn:definitions"].
Proof.
  apply (X14_unparsable_document_aborts "/repo" (fun _ => None)
           (fun _ => ["tests/a.spec.ts"]) (fun _ => []) (fun _ => "")
           (fun _ _ => "") (fun _ => "") (fun p => p) "done"
           (mkWorld [("/repo/ci_test.bpmn", "<bpmn:definitions")] ["/repo"] [])
           "<bpmn:definitions");
    reflexivity.
Defined.

(** X15.  A run that goes through.  With the document in place and
    parsed, no file in the way of the two output directories, no directory
    in the way of a report and the listed test files readable, the run ends
    with exit code 0; the CSV, HTML and
    JSON texts are those of the report built from the elements of the
    document and the grouping of the hits of the test files as they were
    before the run; each text is written twice, to the directory of the run
    and to [reports/coverage], so the two copies are equal; and every other
    file is left as it was. *)
Theorem X15_run_writes_the_report_twice :
  forall (ROOT : string) (parse : string -> option JsValue)
         (globSync : JsMap.t string -> list string)
         (titlesOf : string -> list string)
         (toCSV : list Row -> string)
         (toHTML : list Row -> list Orphan -> string)
         (toJSON : ReportData -> string)
         (missingMsg : string -> string) (doneMsg : string) (w : World)
         (xml : string) (dom : JsValue),
    JsMap.get (BPMN_PATH ROOT) (w_files w) = Some xml ->
    parse xml = Some dom ->
    JsMap.get ROOT (w_files w) = None ->
    JsMap.get (pathJoin ROOT "reports") (w_files w) = None ->
    JsMap.get (OUT_DIR ROOT) (w_files w) = None ->
    (forall p, In p (reportPaths ROOT) -> isDir w p = false) ->
    (forall f, In f (globSync (w_files w)) ->
       JsMap.get (pathJoin ROOT f) (w_files w) = None ->
       isDir w (pathJoin ROOT f) = false) ->
    let report :=
      buildReport
        (collectBpmnElements
           (or_else (getProp dom "bpmn:definitions")
              (or_else (getProp dom "definitions") dom)) "")
        (groupHits
           (List.flat_map (fileHits ROOT titlesOf (w_files w))
              (globSync (w_files w)))) in
    let run := main ROOT parse globSync titlesOf toCSV toHTML toJSON
                 missingMsg doneMsg w in
    fst run = Done tt /\
    (forall p, In p [OUT_ROOT_CSV ROOT; OUT_CSV ROOT] ->
       JsMap.get p (w_files (snd run)) = Some (toCSV (rows report))) /\
    (forall p, In p [OUT_ROOT_HTML ROOT; OUT_HTML ROOT] ->
       JsMap.get p (w_files (snd run))
       = Some (toHTML (rows report) (orphans report))) /\
    (forall p, In p [OUT_ROOT_JSON ROOT; OUT_JSON ROOT] ->
       JsMap.get p (w_files (snd run)) = Some (toJSON report)) /\
    (forall p, ~ In p (reportPaths ROOT) ->
       JsMap.get p (w_files (snd run)) = JsMap.get p (w_files w)).
Proof.
  intros ROOT parse globSync titlesOf toCSV toHTML toJSON missingMsg doneMsg
    w xml dom Hdoc Hparse Hroot Hrep Hout _ Hscan report run.
  destruct (main_run ROOT parse globSync titlesOf toCSV toHTML toJSON
              missingMsg doneMsg w xml dom Hdoc Hparse Hroot Hrep Hout Hscan)
    as [w' [E F]].
  fold report in F. subst run. rewrite E. cbn [fst snd]. rewrite F.
  pose proof (reportPaths_NoDup ROOT) as N.
  split; [reflexivity|].
  repeat split; intros p I.
  - apply get_writes_in; [exact N|].
    cbn [In] in *. destruct I as [<-|[<-|[]]]; auto 10.
  - apply get_writes_in; [exact N|].
    cbn [In] in *. destruct I as [<-|[<-|[]]]; auto 10.
  - apply get_writes_in; [exact N|].
    cbn [In] in *. destruct I as [<-|[<-|[]]]; auto 10.
  - now apply get_writes_other.
Qed.

Lemma X15_witness :
  let doc := JObj [("bpmn:definitions",
                    JObj [("bpmn:process",
                           JObj [("@id", JStr "Process_1");
                                 ("bpmn:task", JObj [("@id", JStr "Pay")])])])] in
  let w := mkWorld [("/repo/ci_test.bpmn", "<bpmn:definitions/>");
                    ("/repo/tests/a.spec.ts", "test('pays [bpmn:Pay]')")]
             ["/repo"; "/repo/tests"] [] in
  let run := main "/repo" (fun _ => Some doc) (fun _ => ["tests/a.spec.ts"])
               (fun _ => [])
               (fun rows => join "," (List.map r_coverage rows))
               (fun _ _ => "html") (fun _ => "json")
               (fun p => p) "done" w in
  fst run = Done tt /\
  JsMap.get "/repo/bpmn-test-report.csv" (w_files (snd run))
  = Some "Missing,Covered" /\
  JsMap.get "/repo/reports/coverage/bpmn-test-report.csv" (w_files (snd run))
  = Some "Missing,Covered".
Proof.
  intros doc w run.
  destruct (X15_run_writes_the_report_twice "/repo" (fun _ => Some doc)
              (fun _ => ["tests/a.spec.ts"]) (fun _ => [])
              (fun rows => join "," (List.map r_coverage rows))
              (fun _ _ => "html") (fun _ => "json") (fun p => p) "done" w
              "<bpmn:definitions/>" doc)
    as [D [C _]]; try reflexivity.
  - intros p I. cbn in I.
    repeat (destruct I as [<-|I]; [reflexivity|]). destruct I.
  - intros f [<-|[]]. discriminate.
  - split; [exact D|]. split.
    + apply (C "/repo/bpmn-test-report.csv"). left. reflexivity.
    + apply (C "/repo/reports/coverage/bpmn-test-report.csv").
      right. left. reflexivity.
Defined.

(** X16.  A file in the way of [reports/coverage].  The copies in the
    directory of the run are written before the directory [reports/coverage]
    is made: when a file stands at that path (and no directory stands in the
    way of a report), the run ends in an exception
    (exit code 1) after the three copies in the directory of the run have
    been written, and no other file has changed. *)
Theorem X16_blocked_pages_directory :
  forall (ROOT : string) (parse : string -> option JsValue)
         (globSync : JsMap.t string -> list string)
         (titlesOf : string -> list string)
         (toCSV : list Row -> string)
         (toHTML : list Row -> list Orphan -> string)
         (toJSON : ReportData -> string)
         (missingMsg : string -> string) (doneMsg : string) (w : World)
         (xml other : string) (dom : JsValue),
    JsMap.get (BPMN_PATH ROOT) (w_files w) = Some xml ->
    parse xml = Some dom ->
    JsMap.get ROOT (w_files w) = None ->
    JsMap.get (OUT_DIR ROOT) (w_files w) = Some other ->
    (forall p, In p (reportPaths ROOT) -> isDir w p = false) ->
    (forall f, In f (globSync (w_files w)) ->
       JsMap.get (pathJoin ROOT f) (w_files w) = None ->
       isDir w (pathJoin ROOT f) = false) ->
    let report :=
      buildReport
        (collectBpmnElements
           (or_else (getProp dom "bpmn:definitions")
              (or_else (getProp dom "definitions") dom)) "")
        (groupHits
           (List.flat_map (fileHits ROOT titlesOf (w_files w))
              (globSync (w_files w)))) in
    let run := main ROOT parse globSync titlesOf toCSV toHTML toJSON
                 missingMsg doneMsg w in
    exitCode (fst run) = 1%Z /\
    JsMap.get (OUT_ROOT_CSV ROOT) (w_files (snd run))
    = Some (toCSV (rows report)) /\
    JsMap.get (OUT_ROOT_HTML ROOT) (w_files (snd run))
    = Some (toHTML (rows report) (orphans report)) /\
    JsMap.get (OUT_ROOT_JSON ROOT) (w_files (snd run))
    = Some (toJSON report) /\
    (forall p, ~ In p [OUT_ROOT_CSV ROOT; OUT_ROOT_HTML ROOT;
                       OUT_ROOT_JSON ROOT] ->
       JsMap.get p (w_files (snd run)) = JsMap.get p (w_files w)).
Proof.
  intros ROOT parse globSync titlesOf toCSV toHTML toJSON missingMsg doneMsg
    w xml other dom Hdoc Hparse Hroot Hout _ Hscan report run.
  destruct (main_blocked ROOT parse globSync titlesOf toCSV toHTML toJSON
              missingMsg doneMsg w xml dom other Hdoc Hparse Hroot Hout Hscan)
    as [w' [E F]].
  fold report in F. subst run. rewrite E. cbn [fst snd exitCode]. rewrite F.
  assert (NoDup [OUT_ROOT_CSV ROOT; OUT_ROOT_HTML ROOT; OUT_ROOT_JSON ROOT])
    as N.
  { pose proof (reportPaths_NoDup ROOT) as N. unfold reportPaths in N.
    change (NoDup ([OUT_ROOT_CSV ROOT; OUT_ROOT_HTML ROOT; OUT_ROOT_JSON ROOT]
                   ++ [OUT_CSV ROOT; OUT_HTML ROOT; OUT_JSON ROOT])) in N.
    now apply NoDup_app_remove_r in N. }
  split; [reflexivity|].
  repeat split.
  - apply get_writes_in; [exact N | cbn [In]; auto].
  - apply get_writes_in; [exact N | cbn [In]; auto].
  - apply get_writes_in; [exact N | cbn [In]; auto].
  - intros p I. now apply get_writes_other.
Qed.

Lemma X16_witness :
  let doc := JObj [("bpmn:task", JObj [("@id", JStr "Pay")])] in
  let w := mkWorld [("/repo/ci_test.bpmn", "<bpmn:task/>");
                    ("/repo/reports/coverage", "a file")]
             ["/repo"; "/repo/reports"] [] in
  let run := main "/repo" (fun _ => Some doc) (fun _ => [])
               (fun _ => [])
               (fun rows => join "," (List.map r_coverage rows))
               (fun _ _ => "html") (fun _ => "json")
               (fun p => p) "done" w in
  exitCode (fst run) = 1%Z /\
  JsMap.get "/repo/bpmn-test-report.csv" (w_files (snd run)) = Some "Missing" /\
  JsMap.get "/repo/reports/coverage/bpmn-test-report.csv" (w_files (snd run))
  = None.
Proof.
  intros doc w run.
  destruct (X16_blocked_pages_directory "/repo" (fun _ => Some doc)
              (fun _ => []) (fun _ => [])
              (fun rows => join "," (List.map r_coverage rows))
              (fun _ _ => "html") (fun _ => "json") (fun p => p) "done" w
              "<bpmn:task/>" "a file" doc)
    as [X [C [_ [_ O]]]]; try reflexivity.
  - intros p I. cbn in I.
    repeat (destruct I as [<-|I]; [reflexivity|]). destruct I.
  - intros f [].
  - split; [exact X|]. split; [exact C|].
    unfold run.
    rewrite (O "/repo/reports/coverage/bpmn-test-report.csv"); [reflexivity|].
    cbn [In]. intros [E|[E|[E|[]]]]; discriminate E.
Defined.

(** X17.  What a run may touch.  However a run of either script ends, it
    changes no file other than its reports: the six report files for the
    report script, the three of [reports/coverage] for the task-only
    script.  The documents and the test files are never written. *)
Theorem X17_only_the_reports_are_written :
  (forall (ROOT : string) (parse : string -> option JsValue)
          (globSync : JsMap.t string -> list string)
          (titlesOf : string -> list string)
          (toCSV : list Row -> string)
          (toHTML : list Row -> list Orphan -> string)
          (toJSON : ReportData -> string)
          (missingMsg : string -> string) (doneMsg : string),
      writesOnly (reportPaths ROOT)
        (main ROOT parse globSync titlesOf toCSV toHTML toJSON
           missingMsg doneMsg)) /\
  (forall (REPO_ROOT : string) (parseXML : option (string -> JsValue))
          (extractTasksByRegex : string -> list Task)
          (extractPlaywrightRefsById : string -> JsMap.t (list string))
          (testFilesOf : JsMap.t string -> list (string * string))
          (sortRows : list TaskRow -> option (list TaskRow))
          (tasksJSON tasksCSV tasksHTML : list TaskRow -> string)
          (missingMsg failMsg : string -> string) (doneMsg : string),
      writesOnly (taskReportPaths REPO_ROOT)
        (mainTasks REPO_ROOT parseXML extractTasksByRegex
           extractPlaywrightRefsById testFilesOf sortRows
           tasksJSON tasksCSV tasksHTML missingMsg failMsg doneMsg)).
Proof.
  split.
  - intros. unfold main.
    apply writesOnly_bind; [apply writesOnly_existsSync|]. intros present.
    apply writesOnly_bind.
    { destruct (negb present); [|apply writesOnly_ret].
      apply writesOnly_bind; [apply writesOnly_emit|]. intros _.
      apply writesOnly_exit. }
    intros _.
    apply writesOnly_bind; [apply writesOnly_loadBpmn|]. intros bpmn.
    apply writesOnly_bind; [apply writesOnly_scan|]. intros hitsById.
    repeat (apply writesOnly_bind;
            [apply writesOnly_writeText; in_paths | intros _]).
    apply writesOnly_emit.
  - intros. unfold mainTasks, mainTasksBody.
    apply writesOnly_tryCatch.
    2: { intros msg. apply writesOnly_bind; [apply writesOnly_emit|].
         intros _. apply writesOnly_exit. }
    apply writesOnly_bind; [apply writesOnly_mkdir|]. intros _.
    apply writesOnly_bind.
    { apply writesOnly_tryCatch; [apply writesOnly_readFileSync|].
      intros _. apply writesOnly_ret. }
    intros bpmnXML.
    apply writesOnly_bind.
    { destruct (negb (nonEmpty bpmnXML)); [|apply writesOnly_ret].
      apply writesOnly_bind; [apply writesOnly_emit|]. intros _.
      apply writesOnly_exit. }
    intros _.
    apply writesOnly_bind.
    { unfold extractTasks. destruct parseXML as [parse|];
        [|apply writesOnly_ret].
      apply writesOnly_bind; [apply writesOnly_emit|]. intros _.
      destruct (walk (parse bpmnXML));
        [apply writesOnly_ret | apply writesOnly_throw]. }
    intros tasks.
    apply writesOnly_bind.
    { unfold scanTestMarkers.
      apply writesOnly_bind; [apply writesOnly_emit|]. intros _.
      apply writesOnly_bind; [now apply writesOnly_pure|]. intros files.
      apply writesOnly_ret. }
    intros markers.
    destruct (sortRows _) as [rows|]; [|apply writesOnly_throw].
    repeat (apply writesOnly_bind;
            [apply writesOnly_writeFileSync; in_paths | intros _]).
    apply writesOnly_emit.
Qed.

Lemma X17_witness :
  let w := mkWorld [("/repo/ci_test.bpmn", "<bpmn:task/>")] ["/repo"] [] in
  JsMap.get "/repo/ci_test.bpmn"
    (w_files
       (snd (main "/repo" (fun _ => Some (JObj [])) (fun _ => []) (fun _ => [])
               (fun _ => "csv") (fun _ _ => "html") (fun _ => "json")
               (fun p => p) "done" w)))
  = JsMap.get "/repo/ci_test.bpmn" (w_files w).
Proof.
  intros w.
  apply (proj1 X17_only_the_reports_are_written "/repo"
           (fun _ => Some (JObj [])) (fun _ => []) (fun _ => [])
           (fun _ => "csv") (fun _ _ => "html") (fun _ => "json")
           (fun p => p) "done" w "/repo/ci_test.bpmn").
  cbn. intros [E|[E|[E|[E|[E|[E|[]]]]]]]; discriminate E.
Defined.

(** ** The task-only script *)

Section TasksMore.
Import MonadNotation.
Local Open Scope monad_scope.

Lemma tryCatch_done {A : Type} (c : M A) (h : string -> M A) w a w' :
  c w = (Done a, w') -> tryCatch c h w = (Done a, w').
Proof. intros E. unfold tryCatch. now rewrite E. Qed.

Lemma readTextIfExists_run p w text :
  JsMap.get p (w_files w) = Some text ->
  readTextIfExists p w
  = (Done text, mkWorld (w_files w) (w_dirs w) (w_trace w ++ [EvRead p])).
Proof.
  intros H. unfold readTextIfExists, tryCatch, readFileSync, emit. cbn.
  now rewrite H.
Qed.

Lemma extractTasks_run parseXML extractTasksByRegex xml tasks w :
  match parseXML with
  | Some parse => walk (parse xml) = Some tasks
  | None => extractTasksByRegex xml = tasks
  end ->
  exists w',
    extractTasks parseXML extractTasksByRegex xml w = (Done tasks, w') /\
    w_files w' = w_files w.
Proof.
  intros H. unfold extractTasks. destruct parseXML as [parse|].
  - unfold emit. cbn. rewrite H. eauto.
  - subst tasks. cbn. eauto.
Qed.

Lemma sameValue_arr items :
  Forall (fun a => forall b, sameValue a b = true <-> a = b) items ->
  forall ys, sameValue (JArr items) (JArr ys) = true <-> items = ys.
Proof.
  induction 1 as [|x l Hx _ IH]; intros [|y ys]; cbn [sameValue];
    try (split; [discriminate | discriminate]); [tauto|].
  specialize (IH ys). cbn [sameValue] in IH.
  rewrite andb_true_iff, (Hx y), IH. split.
  - intros [-> ->]. reflexivity.
  - intros E. inversion E. auto.
Qed.

Lemma sameValue_obj (entries : list (string * JsValue)) :
  Forall (fun e => forall b, sameValue (snd e) b = true <-> snd e = b)
    entries ->
  forall ys, sameValue (JObj entries) (JObj ys) = true <-> entries = ys.
Proof.
  induction 1 as [|[k x] l Hx _ IH]; intros [|[k' y] ys]; cbn [sameValue];
    try (split; [discriminate | discriminate]); [tauto|].
  specialize (IH ys). cbn [sameValue] in IH. cbn [snd] in Hx.
  rewrite !andb_true_iff, (Hx y), IH, String.eqb_eq. split.
  - intros [[-> ->] ->]. reflexivity.
  - intros E. inversion E. auto.
Qed.

Lemma sameValue_eq : forall a b, sameValue a b = true <-> a = b.
Proof.
  induction a as [| |x|z|s|items IH|entries IH] using JsValue_induction;
    intros b.
  - destruct b; cbn; split; congruence.
  - destruct b; cbn; split; congruence.
  - destruct b; cbn [sameValue]; try (split; [discriminate | discriminate]).
    rewrite Bool.eqb_true_iff. split; congruence.
  - destruct b; cbn [sameValue]; try (split; [discriminate | discriminate]).
    rewrite String.eqb_eq. split; congruence.
  - destruct b; cbn [sameValue]; try (split; [discriminate | discriminate]).
    rewrite String.eqb_eq. split; congruence.
  - destruct b; try (cbn; split; [discriminate | discriminate]).
    rewrite (sameValue_arr items IH). split; congruence.
  - destruct b; try (cbn; split; [discriminate | discriminate]).
    rewrite (sameValue_obj entries IH). split; congruence.
Qed.

Lemma sameValue_refl a : sameValue a a = true.
Proof. now apply sameValue_eq. Qed.

Lemma markersGet_set_same id v M :
  markersGet id (markersSet id v M) = Some v.
Proof.
  induction M as [|[k v'] M IH]; cbn [markersSet markersGet].
  - now rewrite sameValue_refl.
  - destruct (sameValue k id) eqn:E; cbn [markersGet]; now rewrite E.
Qed.

Lemma markersGet_set_other id id' v M :
  sameValue id' id = false ->
  markersGet id (markersSet id' v M) = markersGet id M.
Proof.
  intros N. induction M as [|[k v'] M IH]; cbn [markersSet markersGet].
  - now rewrite N.
  - destruct (sameValue k id') eqn:E; cbn [markersGet].
    + apply sameValue_eq in E. subst k. now rewrite N.
    + now rewrite IH.
Qed.

Lemma emptyMarkers_from ids id : forall M,
  markersGet id (List.fold_left (fun m x => markersSet x [] m) ids M)
  = if List.existsb (fun x => sameValue x id) ids then Some []
    else markersGet id M.
Proof.
  induction ids as [|x ids IH]; intros M; [reflexivity|].
  cbn [List.fold_left List.existsb]. rewrite IH.
  destruct (List.existsb (fun x0 => sameValue x0 id) ids);
    [now rewrite orb_true_r|].
  rewrite orb_false_r. destruct (sameValue x id) eqn:E.
  - apply sameValue_eq in E. subst x. apply markersGet_set_same.
  - now apply markersGet_set_other.
Qed.

(** The files pushed for [id] in one round of the loop over the files: the
    file once for every time [id] stands among the identifiers. *)
Lemma markFile_round rel txt id ids : forall M,
  markersGet id (List.fold_left (markFile rel txt) ids M)
  = if includes txt (marker (toText id))
       && (0 <? List.length (List.filter (fun x => sameValue x id) ids))%nat
    then Some (orEmpty (markersGet id M)
               ++ List.repeat rel
                    (List.length (List.filter (fun x => sameValue x id) ids)))
    else markersGet id M.
Proof.
  induction ids as [|x ids IH]; intros M.
  - cbn. now rewrite andb_false_r.
  - cbn [List.fold_left List.filter]. rewrite IH. clear IH.
    set (c := List.length (List.filter (fun x0 => sameValue x0 id) ids)).
    destruct (sameValue x id) eqn:E.
    + apply sameValue_eq in E. subst x. cbn [List.length]. fold c.
      unfold markFile.
      destruct (includes txt (marker (toText id))); cbn [andb];
        [|reflexivity].
      rewrite markersGet_set_same. cbn [orEmpty List.repeat].
      destruct c; cbn; [reflexivity|].
      now rewrite <- app_assoc.
    + fold c.
      assert (markersGet id (markFile rel txt M x) = markersGet id M) as K.
      { unfold markFile. destruct (includes txt (marker (toText x)));
          [now apply markersGet_set_other | reflexivity]. }
      now rewrite K.
Qed.

Lemma markFiles_all id ids files : forall M l0,
  markersGet id M = Some l0 ->
  markersGet id
    (List.fold_left
       (fun markers f => List.fold_left (markFile (fst f) (snd f)) ids markers)
       files M)
  = Some (l0
          ++ List.flat_map
               (fun f =>
                  if includes (snd f) (marker (toText id))
                  then List.repeat (fst f)
                         (List.length
                            (List.filter (fun x => sameValue x id) ids))
                  else [])
               files).
Proof.
  induction files as [|f files IH]; intros M l0 H.
  - cbn. now rewrite app_nil_r.
  - cbn [List.fold_left List.flat_map].
    rewrite (IH _ (l0 ++ if includes (snd f) (marker (toText id))
                         then List.repeat (fst f)
                                (List.length
                                   (List.filter (fun x => sameValue x id) ids))
                         else [])).
    + now rewrite <- app_assoc.
    + rewrite markFile_round, H. cbn [orEmpty].
      destruct (includes (snd f) (marker (toText id))); cbn [andb].
      * destruct (List.length (List.filter (fun x => sameValue x id) ids));
          cbn; [now rewrite app_nil_r | reflexivity].
      * now rewrite app_nil_r.
Qed.

Lemma markFiles_absent id ids files : forall M,
  List.existsb (fun x => sameValue x id) ids = false ->
  markersGet id
    (List.fold_left
       (fun markers f => List.fold_left (markFile (fst f) (snd f)) ids markers)
       files M)
  = markersGet id M.
Proof.
  intros M N.
  assert (List.filter (fun x => sameValue x id) ids = []) as Z.
  { induction ids as [|x ids IH]; [reflexivity|].
    cbn [List.existsb] in N. apply orb_false_iff in N as [N1 N2].
    cbn [List.filter]. rewrite N1. now apply IH. }
  revert M. induction files as [|f files IH]; intros M; [reflexivity|].
  cbn [List.fold_left]. rewrite IH, markFile_round, Z. cbn.
  now rewrite andb_false_r.
Qed.

Lemma filter_one_of_NoDup id ids :
  NoDup ids -> In id ids ->
  List.filter (fun x => sameValue x id) ids = [id].
Proof.
  induction 1 as [|x ids N _ IH]; intros I; [destruct I|].
  cbn [List.filter]. destruct I as [->|I].
  - rewrite sameValue_refl. f_equal.
    clear IH. induction ids as [|y ids IH]; [reflexivity|].
    cbn [List.filter]. destruct (sameValue y id) eqn:E.
    + apply sameValue_eq in E. subst y. exfalso. apply N. now left.
    + apply IH. intros I. apply N. now right.
  - destruct (sameValue x id) eqn:E; [|now apply IH].
    apply sameValue_eq in E. subst x. contradiction.
Qed.

(** What the scan of the test files holds for an identifier. *)
Lemma markers_of_files ids files id :
  markersGet id
    (List.fold_left
       (fun markers f => List.fold_left (markFile (fst f) (snd f)) ids markers)
       files (emptyMarkers ids))
  = if List.existsb (fun x => sameValue x id) ids
    then Some (List.flat_map
                 (fun f =>
                    if includes (snd f) (marker (toText id))
                    then List.repeat (fst f)
                           (List.length
                              (List.filter (fun x => sameValue x id) ids))
                    else [])
                 files)
    else None.
Proof.
  pose proof (emptyMarkers_from ids id []) as Em. cbn [markersGet] in Em.
  fold (emptyMarkers ids) in Em.
  destruct (List.existsb (fun x => sameValue x id) ids) eqn:X.
  - now rewrite (markFiles_all id ids _ _ [] Em).
  - now rewrite (markFiles_absent id ids _ _ X).
Qed.


End TasksMore.

Lemma scanTestMarkers_run testFilesOf ids w :
  scanTestMarkers testFilesOf ids w
  = (Done
       (List.fold_left
          (fun markers f =>
             List.fold_left (markFile (fst f) (snd f)) ids markers)
          (testFilesOf (w_files w)) (emptyMarkers ids)),
     mkWorld (w_files w) (w_dirs w) (w_trace w ++ [EvList])).
Proof. reflexivity. Qed.

Lemma mainTasks_run REPO_ROOT parseXML extractTasksByRegex
    extractPlaywrightRefsById testFilesOf sortRows
    (tasksJSON tasksCSV tasksHTML : list TaskRow -> string)
    missingMsg failMsg doneMsg w xml tasks rows :
  JsMap.get (pathJoin REPO_ROOT "reports") (w_files w) = None ->
  JsMap.get (T_OUT_DIR REPO_ROOT) (w_files w) = None ->
  JsMap.get (T_BPMN_PATH REPO_ROOT) (w_files w) = Some xml ->
  nonEmpty xml = true ->
  match parseXML with
  | Some parse => walk (parse xml) = Some tasks
  | None => extractTasksByRegex xml = tasks
  end ->
  let ids := List.map t_id tasks in
  let markers :=
    List.fold_left
      (fun markers f => List.fold_left (markFile (fst f) (snd f)) ids markers)
      (testFilesOf (w_files w)) (emptyMarkers ids) in
  sortRows (List.map (taskRow markers (extractPlaywrightRefsById xml)) tasks)
  = Some rows ->
  exists w',
    mainTasks REPO_ROOT parseXML extractTasksByRegex extractPlaywrightRefsById
      testFilesOf sortRows tasksJSON tasksCSV tasksHTML missingMsg failMsg
      doneMsg w
    = (Done tt, w') /\
    w_files w'
    = List.fold_left (fun m e => JsMap.set (fst e) (snd e) m)
        [(T_OUT_JSON REPO_ROOT, tasksJSON rows);
         (T_OUT_CSV REPO_ROOT, tasksCSV rows);
         (T_OUT_HTML REPO_ROOT, tasksHTML rows)]
        (w_files w).
Proof.
  intros Hrep Hout Hdoc Hne Htasks ids markers Hsort.
  assert (exists w',
             mainTasksBody REPO_ROOT parseXML extractTasksByRegex
               extractPlaywrightRefsById testFilesOf sortRows tasksJSON
               tasksCSV tasksHTML missingMsg doneMsg w
             = (Done tt, w') /\
             w_files w'
             = List.fold_left (fun m e => JsMap.set (fst e) (snd e) m)
                 [(T_OUT_JSON REPO_ROOT, tasksJSON rows);
                  (T_OUT_CSV REPO_ROOT, tasksCSV rows);
                  (T_OUT_HTML REPO_ROOT, tasksHTML rows)]
                 (w_files w)) as [w' [E F]].
  { unfold mainTasksBody, ensureDir.
    destruct (mkdir_below REPO_ROOT "reports" "coverage" w eq_refl eq_refl
                Hrep Hout) as [ds Hmk].
    run_step Hmk.
    run_step (readTextIfExists_run (T_BPMN_PATH REPO_ROOT)
                (mkWorld (w_files w) (ds ++ w_dirs w)
                   (w_trace w ++ [EvMkdir (T_OUT_DIR REPO_ROOT)])) xml Hdoc).
    rewrite Hne. cbn [negb w_files w_dirs w_trace].
    match goal with
    | |- context [bind (ret tt) _ ?w0] => run_step (ret_run tt w0)
    end.
    match goal with
    | |- context [bind (extractTasks _ _ _) _ ?w0] =>
        destruct (extractTasks_run parseXML extractTasksByRegex xml tasks w0
                    Htasks) as [w3 [E3 F3]]
    end.
    cbn [w_files] in F3. run_step E3.
    run_step (scanTestMarkers_run testFilesOf (List.map t_id tasks) w3).
    rewrite F3. fold ids markers. rewrite Hsort.
    do 3 match goal with
         | |- context [bind (writeFileSync ?p ?c) _ ?w0] =>
             run_step (writeFileSync_run p c w0)
         end.
    unfold consoleLog, emit. eexists. split; [reflexivity|].
    reflexivity. }
  exists w'. split; [|exact F]. unfold mainTasks. now apply tryCatch_done.
Qed.

(** ** The references read off the text *)

Section RegexFacts.

Lemma takes_split ok s p : In p (takes ok s) -> s = (fst p ++ snd p)%string.
Proof.
  revert p. induction s as [|a s IH]; intros p I; cbn [takes] in I.
  - destruct I as [<-|[]]. reflexivity.
  - destruct (ok a).
    + apply in_app_or in I as [I|[<-|[]]]; [|reflexivity].
      apply in_map_iff in I as [q [<- Iq]]. cbn. f_equal. now apply IH.
    + destruct I as [<-|[]]. reflexivity.
Qed.

Lemma firstSome_some {A B : Type} (f : A -> option B) l y :
  firstSome f l = Some y -> exists x, In x l /\ f x = Some y.
Proof.
  induction l as [|x l IH]; cbn [firstSome]; [discriminate|].
  destruct (f x) as [z|] eqn:E.
  - intros H. inversion H. subst. exists x. split; [now left | exact E].
  - intros H. destruct (IH H) as [x' [I E']]. exists x'. split; [now right | exact E'].
Qed.

Lemma findLit_some lit s : forall before rest,
  findLit lit s = Some (before, rest) -> s = (before ++ lit ++ rest)%string.
Proof.
  induction s as [|a s IH]; intros before rest H.
  - cbn [findLit] in H. destruct (stripPrefix lit "") as [r|] eqn:E;
      [|discriminate].
    inversion H. subst. now apply stripPrefix_some in E.
  - cbn [findLit] in H. destruct (stripPrefix lit (String a s)) as [r|] eqn:E.
    + inversion H. subst. now apply stripPrefix_some in E.
    + destruct (findLit lit s) as [[b r]|] eqn:F; [|discriminate].
      inversion H. subst. cbn. f_equal. now apply IH.
Qed.

(** What a match of the element expression is made of. *)
Lemma matchAfterId_some tag r3 id inner rest :
  matchAfterId tag r3 = Some (id, inner, rest) ->
  nonEmpty id = true /\ lacks DQ id /\
  exists more,
    lacks GT more /\
    r3 = (id ++ String DQ (more ++ String GT
                            (inner ++ ("</" ++ tag ++ ">") ++ rest)))%string.
Proof.
  unfold matchAfterId.
  destruct (spanNot DQ r3) as [id0 r4] eqn:S1.
  apply spanNot_some in S1 as [-> [L1 R1]].
  destruct r4 as [|q r4]; [discriminate|].
  destruct R1 as [R1|[r' R1]]; [discriminate|]. inversion R1. subst q r'.
  destruct (nonEmpty id0) eqn:N; [|discriminate].
  destruct (spanNot GT r4) as [more r5] eqn:S2.
  apply spanNot_some in S2 as [-> [L2 R2]].
  destruct r5 as [|g r5]; [discriminate|].
  destruct R2 as [R2|[r' R2]]; [discriminate|]. inversion R2. subst g r'.
  destruct (findLit ("</" ++ tag ++ ">") r5) as [[inner0 rest0]|] eqn:F;
    [|discriminate].
  intros H. inversion H. subst. apply findLit_some in F. subst r5.
  split; [exact N|]. split; [exact L1|]. exists more. split; [exact L2|].
  reflexivity.
Qed.

Lemma matchElementAt_some s id inner rest :
  matchElementAt s = Some (id, inner, rest) ->
  exists tag skipped more,
    nonEmpty tag = true /\ nonEmpty id = true /\ lacks DQ id /\
    lacks GT more /\
    s = String LT
          (tag ++ skipped ++ idOpen ++ id
           ++ String DQ (more ++ String GT
                           (inner ++ ("</" ++ tag ++ ">") ++ rest)))%string.
Proof.
  unfold matchElementAt. destruct s as [|a s1]; [discriminate|].
  destruct (Ascii.eqb_spec a LT) as [->|]; [|discriminate]. intros H.
  apply firstSome_some in H as [[tag r1] [I1 H]].
  apply takes_split in I1. cbn [fst snd] in I1. subst s1.
  destruct (nonEmpty tag) eqn:Nt; [|discriminate H]. cbn [andb] in H.
  destruct (boundary (lastOf tag) r1); [|discriminate H].
  apply firstSome_some in H as [[skipped r2] [I2 H]].
  apply takes_split in I2. cbn [fst snd] in I2. subst r1.
  destruct (boundary (lastOf (tag ++ skipped)) r2); [|discriminate H].
  destruct (stripPrefix idOpen r2) as [r3|] eqn:P; [|discriminate H].
  apply stripPrefix_some in P. subst r2.
  apply matchAfterId_some in H as [Ni [Li [more [Lm ->]]]].
  exists tag, skipped, more. repeat split; try assumption.
Qed.

Lemma matchElementAt_shorter s id inner rest :
  matchElementAt s = Some (id, inner, rest) ->
  String.length rest < String.length s.
Proof.
  intros H. apply matchElementAt_some in H
    as [tag [skipped [more [_ [_ [_ [_ ->]]]]]]].
  cbn [String.length]. rewrite !length_append. cbn [String.length].
  rewrite !length_append. cbn [String.length]. rewrite !length_append. lia.
Qed.

(** The rounds given to the loop over the elements are enough. *)
Lemma elementMatches_fuel : forall f1 f2 s,
  String.length s < f1 -> String.length s < f2 ->
  elementMatches f1 s = elementMatches f2 s.
Proof.
  induction f1 as [|f1 IH]; intros [|f2] s L1 L2; try lia.
  cbn [elementMatches].
  destruct (matchElementAt s) as [[[id inner] rest]|] eqn:E.
  - apply matchElementAt_shorter in E. f_equal. apply IH; lia.
  - destruct s as [|a s]; [reflexivity|]. cbn [String.length] in *.
    apply IH; lia.
Qed.

Lemma findLit_shorter lit s before rest :
  findLit lit s = Some (before, rest) ->
  String.length rest + String.length lit <= String.length s.
Proof.
  intros H. apply findLit_some in H. subst s. rewrite !length_append. lia.
Qed.

(** So are the rounds given to the loop over the references. *)
Lemma refMatches_fuel : forall f1 f2 s,
  String.length s < f1 -> String.length s < f2 ->
  refMatches f1 s = refMatches f2 s.
Proof.
  induction f1 as [|f1 IH]; intros [|f2] s L1 L2; try lia.
  cbn [refMatches].
  destruct (findLit refOpen s) as [[b r]|] eqn:E; [|reflexivity].
  destruct (findLit refClose r) as [[v rest]|] eqn:F; [|reflexivity].
  apply findLit_shorter in E. apply findLit_shorter in F.
  cbn [String.length refOpen refClose] in E, F.
  f_equal. apply IH; lia.
Qed.



Lemma matchTaskTagAt_some s tag attrs rest :
  matchTaskTagAt s = Some (tag, attrs, rest) ->
  exists pre,
    tag = (pre ++ "task")%string /\ lacks GT attrs /\
    s = String LT (tag ++ attrs ++ String GT rest).
Proof.
  unfold matchTaskTagAt. destruct s as [|a s1]; [discriminate|].
  destruct (Ascii.eqb_spec a LT) as [->|]; [|discriminate]. intros H.
  apply firstSome_some in H as [[pre r1] [I1 H]].
  apply takes_split in I1. cbn [fst snd] in I1. subst s1.
  destruct (stripPrefix "task" r1) as [r2|] eqn:P; [|discriminate H].
  apply stripPrefix_some in P. subst r1.
  destruct (boundary (Some "k"%char) r2); [|discriminate H].
  destruct (spanNot GT r2) as [attrs0 r3] eqn:S2.
  apply spanNot_some in S2 as [-> [L2 R2]].
  destruct r3 as [|g r3]; [discriminate H|].
  destruct R2 as [R2|[r' R2]]; [discriminate|]. inversion R2. subst g r'.
  inversion H. subst. exists pre. split; [reflexivity|]. split; [exact L2|].
  now rewrite append_assoc.
Qed.

Lemma taskTagMatches_fuel : forall f1 f2 s,
  String.length s < f1 -> String.length s < f2 ->
  taskTagMatches f1 s = taskTagMatches f2 s.
Proof.
  induction f1 as [|f1 IH]; intros [|f2] s L1 L2; try lia.
  cbn [taskTagMatches].
  destruct (matchTaskTagAt s) as [[[tag attrs] rest]|] eqn:E.
  - apply matchTaskTagAt_some in E as [pre [_ [_ ->]]]. f_equal.
    cbn [String.length] in L1, L2. rewrite !length_append in L1, L2.
    cbn [String.length] in L1, L2. apply IH; lia.
  - destruct s as [|a s]; [reflexivity|]. cbn [String.length] in *.
    apply IH; lia.
Qed.

Lemma taskTagMatches_in : forall fuel s tag attrs,
  In (tag, attrs) (taskTagMatches fuel s) ->
  exists pre, tag = (pre ++ "task")%string /\ lacks GT attrs.
Proof.
  induction fuel as [|fuel IH]; intros s tag attrs I; [destruct I|].
  cbn [taskTagMatches] in I.
  destruct (matchTaskTagAt s) as [[[tag0 attrs0] rest]|] eqn:E.
  - destruct I as [I|I]; [|now apply (IH rest)].
    inversion I. subst. apply matchTaskTagAt_some in E as [pre [T [L _]]].
    now exists pre.
  - destruct s as [|a s]; [destruct I|]. now apply (IH s).
Qed.

Lemma findAttr_some name : forall s prev v,
  findAttr name prev s = Some v -> nonEmpty v = true /\ lacks DQ v.
Proof.
  induction s as [|a s IH]; intros prev v; cbn [findAttr].
  - destruct (boundary prev ""); [|discriminate].
    destruct (stripPrefix (name ++ "=" ++ String DQ "") "") as [r|];
      [|discriminate].
    destruct (spanNot DQ r) as [v0 r'] eqn:S1.
    apply spanNot_some in S1 as [_ [L _]].
    destruct r'; [discriminate|]. destruct (nonEmpty v0) eqn:N; [|discriminate].
    intros H. inversion H. subst. auto.
  - destruct (boundary prev (String a s)); [|apply IH].
    destruct (stripPrefix (name ++ "=" ++ String DQ "") (String a s)) as [r|];
      [|apply IH].
    destruct (spanNot DQ r) as [v0 r'] eqn:S1.
    apply spanNot_some in S1 as [_ [L _]].
    destruct r'; [apply IH|]. destruct (nonEmpty v0) eqn:N; [|apply IH].
    intros H. inversion H. subst. auto.
Qed.

End RegexFacts.

Lemma mainTasks_sort_throws REPO_ROOT parseXML extractTasksByRegex
    extractPlaywrightRefsById testFilesOf sortRows
    (tasksJSON tasksCSV tasksHTML : list TaskRow -> string)
    missingMsg failMsg doneMsg w xml tasks :
  JsMap.get (pathJoin REPO_ROOT "reports") (w_files w) = None ->
  JsMap.get (T_OUT_DIR REPO_ROOT) (w_files w) = None ->
  JsMap.get (T_BPMN_PATH REPO_ROOT) (w_files w) = Some xml ->
  nonEmpty xml = true ->
  match parseXML with
  | Some parse => walk (parse xml) = Some tasks
  | None => extractTasksByRegex xml = tasks
  end ->
  let ids := List.map t_id tasks in
  let markers :=
    List.fold_left
      (fun markers f => List.fold_left (markFile (fst f) (snd f)) ids markers)
      (testFilesOf (w_files w)) (emptyMarkers ids) in
  sortRows (List.map (taskRow markers (extractPlaywrightRefsById xml)) tasks)
  = None ->
  exists w',
    mainTasks REPO_ROOT parseXML extractTasksByRegex extractPlaywrightRefsById
      testFilesOf sortRows tasksJSON tasksCSV tasksHTML missingMsg failMsg
      doneMsg w
    = (Exited 1%Z, w') /\
    w_files w' = w_files w /\
    exists before,
      w_trace w' = before ++ [EvList; EvStderr (failMsg "TypeError")].
Proof.
  intros Hrep Hout Hdoc Hne Htasks ids markers Hsort.
  assert (exists w',
             mainTasksBody REPO_ROOT parseXML extractTasksByRegex
               extractPlaywrightRefsById testFilesOf sortRows tasksJSON
               tasksCSV tasksHTML missingMsg doneMsg w
             = (Thrown "TypeError", w') /\
             w_files w' = w_files w /\
             exists before, w_trace w' = before ++ [EvList])
    as [w' [E [F [before T]]]].
  { unfold mainTasksBody, ensureDir.
    destruct (mkdir_below REPO_ROOT "reports" "coverage" w eq_refl eq_refl
                Hrep Hout) as [ds Hmk].
    run_step Hmk.
    run_step (readTextIfExists_run (T_BPMN_PATH REPO_ROOT)
                (mkWorld (w_files w) (ds ++ w_dirs w)
                   (w_trace w ++ [EvMkdir (T_OUT_DIR REPO_ROOT)])) xml Hdoc).
    rewrite Hne. cbn [negb w_files w_dirs w_trace].
    match goal with
    | |- context [bind (ret tt) _ ?w0] => run_step (ret_run tt w0)
    end.
    match goal with
    | |- context [bind (extractTasks _ _ _) _ ?w0] =>
        destruct (extractTasks_run parseXML extractTasksByRegex xml tasks w0
                    Htasks) as [w3 [E3 F3]]
    end.
    cbn [w_files] in F3. run_step E3.
    run_step (scanTestMarkers_run testFilesOf (List.map t_id tasks) w3).
    rewrite F3. fold ids markers. rewrite Hsort.
    eexists. split; [reflexivity|]. cbn [w_files w_trace].
    split; [reflexivity|]. now exists (w_trace w3). }
  unfold mainTasks, tryCatch. rewrite E. unfold consoleError, emit, exit. cbn.
  eexists. split; [reflexivity|]. cbn [w_files w_trace]. split; [exact F|].
  exists before. rewrite T, <- app_assoc. reflexivity.
Qed.

(** X28.  A sort that throws.  When the comparison of the sort throws (an
    [id] that is no string has no [localeCompare]), the run of the
    task-only script ends there: after the scan of the test files it
    prints the failure, ends with exit code 1 and has written nothing. *)
Theorem X28_sort_failure_writes_nothing :
  forall (REPO_ROOT : string) (parseXML : option (string -> JsValue))
         (extractTasksByRegex : string -> list Task)
         (extractPlaywrightRefsById : string -> JsMap.t (list string))
         (testFilesOf : JsMap.t string -> list (string * string))
         (sortRows : list TaskRow -> option (list TaskRow))
         (tasksJSON tasksCSV tasksHTML : list TaskRow -> string)
         (missingMsg failMsg : string -> string) (doneMsg : string)
         (w : World) (xml : string) (tasks : list Task),
    JsMap.get (pathJoin REPO_ROOT "reports") (w_files w) = None ->
    JsMap.get (T_OUT_DIR REPO_ROOT) (w_files w) = None ->
    JsMap.get (T_BPMN_PATH REPO_ROOT) (w_files w) = Some xml ->
    nonEmpty xml = true ->
    match parseXML with
    | Some parse => walk (parse xml) = Some tasks
    | None => extractTasksByRegex xml = tasks
    end ->
    let ids := List.map t_id tasks in
    let markers :=
      List.fold_left
        (fun markers f => List.fold_left (markFile (fst f) (snd f)) ids markers)
        (testFilesOf (w_files w)) (emptyMarkers ids) in
    sortRows (List.map (taskRow markers (extractPlaywrightRefsById xml)) tasks)
    = None ->
    let run := mainTasks REPO_ROOT parseXML extractTasksByRegex
                 extractPlaywrightRefsById testFilesOf sortRows
                 tasksJSON tasksCSV tasksHTML missingMsg failMsg doneMsg w in
    exitCode (fst run) = 1%Z /\
    w_files (snd run) = w_files w /\
    exists before,
      w_trace (snd run) = before ++ [EvList; EvStderr (failMsg "TypeError")].
Proof.
  intros REPO_ROOT parseXML extractTasksByRegex extractPlaywrightRefsById
    testFilesOf sortRows tasksJSON tasksCSV tasksHTML missingMsg failMsg
    doneMsg w xml tasks Hrep Hout Hdoc Hne Htasks ids markers Hsort run.
  destruct (mainTasks_sort_throws REPO_ROOT parseXML extractTasksByRegex
              extractPlaywrightRefsById testFilesOf sortRows tasksJSON
              tasksCSV tasksHTML missingMsg failMsg doneMsg w xml tasks
              Hrep Hout Hdoc Hne Htasks Hsort) as [w' [E [F T]]].
  subst run. rewrite E. cbn [fst snd exitCode]. auto.
Qed.

Lemma X28_witness :
  let doc := JArr [JObj [("bpmn:userTask", JArr []);
                         (":@", JObj [("id", JStr "Pay")])];
                   JObj [("bpmn:task", JArr []);
                         (":@", JObj [("id", JBool true)])]] in
  let w := mkWorld [("/repo/ci_test.bpmn", "<xml/>")] ["/repo"] [] in
  let run := mainTasks "/repo" (Some (fun _ => doc)) (fun _ => [])
               extractPlaywrightRefsById (fun _ => [])
               (fun rows =>
                  if List.forallb (fun r => isString (tr_id r)) rows
                  then Some rows else None)
               (fun _ => "json") (fun _ => "csv") (fun _ => "html")
               (fun p => p) (fun e => e) "done" w in
  exitCode (fst run) = 1%Z /\
  w_files (snd run) = w_files w /\
  exists before,
    w_trace (snd run) = before ++ [EvList; EvStderr "TypeError"].
Proof.
  apply (X28_sort_failure_writes_nothing "/repo"
           (Some (fun _ =>
                    JArr [JObj [("bpmn:userTask", JArr []);
                                (":@", JObj [("id", JStr "Pay")])];
                          JObj [("bpmn:task", JArr []);
                                (":@", JObj [("id", JBool true)])]]))
           (fun _ => []) extractPlaywrightRefsById (fun _ => [])
           (fun rows =>
              if List.forallb (fun r => isString (tr_id r)) rows
              then Some rows else None)
           (fun _ => "json") (fun _ => "csv") (fun _ => "html")
           (fun p => p) (fun e => e) "done"
           (mkWorld [("/repo/ci_test.bpmn", "<xml/>")] ["/repo"] [])
           "<xml/>"
           [mkTask (JStr "Pay") (JStr "") "bpmn:userTask";
            mkTask (JBool true) (JStr "") "bpmn:task"]);
    reflexivity.
Defined.

(** X29.  Tasks without the parser.  When the parser is not there, the
    tasks are read off the text: every task comes from an opening tag
    whose name ends in [task], in small letters, and has in that tag an
    [id] between quotes that is not empty.  So a [userTask], with its
    capital letter, is a task with the parser and none without it. *)
Theorem X29_tasks_without_the_parser :
  (forall (xml : string) (t : Task),
      In t (extractTasksByRegex xml) ->
      exists id name pre,
        t_id t = JStr id /\ nonEmpty id = true /\ lacks DQ id /\
        t_name t = JStr name /\ t_tag t = (pre ++ "task")%string) /\
  extractTasksByRegex flatDocument
  = [mkTask (JStr "Ship") (JStr "") "bpmn:task"] /\
  walk flatTree
  = Some [mkTask (JStr "Pay") (JStr "Pay the bill") "bpmn:userTask";
          mkTask (JStr "Ship") (JStr "") "bpmn:task"].
Proof.
  split; [|split; reflexivity].
  intros xml t I. unfold extractTasksByRegex in I.
  apply in_flat_map in I as [[tag attrs] [Im It]].
  apply taskTagMatches_in in Im as [pre [-> _]].
  unfold taskOfTag in It. cbn [fst snd] in It.
  destruct (findAttr "id" None attrs) as [id|] eqn:F; [|destruct It].
  destruct It as [<-|[]]. apply findAttr_some in F as [N L].
  eexists id, _, pre. cbn [t_id t_name t_tag]. repeat split; assumption.
Qed.

Lemma X29_witness :
  exists id name pre,
    mkTask (JStr "T2") (JStr "") "a-task"
    = mkTask (JStr id) (JStr name) (pre ++ "task")%string /\
    nonEmpty id = true /\ lacks DQ id.
Proof.
  destruct (proj1 X29_tasks_without_the_parser
              ("<a-task" ++ attr "pid" "no" ++ attr "id" "T2" ++ ">")%string
              (mkTask (JStr "T2") (JStr "") "a-task"))
    as [id [name [pre [E1 [N [L [E2 E3]]]]]]].
  - left. reflexivity.
  - exists id, name, pre. cbn [t_id t_name t_tag] in E1, E2, E3.
    split; [|split; assumption]. now rewrite E1, E2, E3.
Defined.

(** ** Coverage status *)




(** X18.  An empty document.  The task-only script takes a document that is
    there but empty for a missing one: with no file in the way of
    [reports/coverage], at that path or at [reports], it makes the
    directory, reads the document, reports it as missing and ends with
    exit code 1 before anything is parsed, listed or written. *)
Theorem X18_empty_document_counts_as_missing :
  forall (REPO_ROOT : string) (parseXML : option (string -> JsValue))
         (extractTasksByRegex : string -> list Task)
         (extractPlaywrightRefsById : string -> JsMap.t (list string))
         (testFilesOf : JsMap.t string -> list (string * string))
         (sortRows : list TaskRow -> option (list TaskRow))
         (tasksJSON tasksCSV tasksHTML : list TaskRow -> string)
         (missingMsg failMsg : string -> string) (doneMsg : string)
         (w : World),
    JsMap.get (pathJoin REPO_ROOT "reports") (w_files w) = None ->
    JsMap.get (T_OUT_DIR REPO_ROOT) (w_files w) = None ->
    JsMap.get (T_BPMN_PATH REPO_ROOT) (w_files w) = Some "" ->
    let run := mainTasks REPO_ROOT parseXML extractTasksByRegex
                 extractPlaywrightRefsById testFilesOf sortRows
                 tasksJSON tasksCSV tasksHTML missingMsg failMsg doneMsg w in
    exitCode (fst run) = 1%Z /\
    w_files (snd run) = w_files w /\
    w_trace (snd run)
    = w_trace w ++ [EvMkdir (T_OUT_DIR REPO_ROOT);
                    EvRead (T_BPMN_PATH REPO_ROOT);
                    EvStderr (missingMsg (T_BPMN_PATH REPO_ROOT))].
Proof.
  intros REPO_ROOT parseXML extractTasksByRegex extractPlaywrightRefsById
    testFilesOf sortRows tasksJSON tasksCSV tasksHTML missingMsg failMsg
    doneMsg w Hrep Hout Hdoc run.
  destruct (mkdir_below REPO_ROOT "reports" "coverage" w eq_refl eq_refl
              Hrep Hout) as [ds Hmk].
  subst run. unfold mainTasks, mainTasksBody, tryCatch, ensureDir.
  cbn [bind Monad_M].
  change (mkdir REPO_ROOT (T_OUT_DIR REPO_ROOT) w)
    with (mkdir REPO_ROOT (pathJoin (pathJoin REPO_ROOT "reports") "coverage") w).
  rewrite Hmk.
  unfold readTextIfExists, tryCatch, readFileSync, consoleError, emit, exit.
  cbn. rewrite Hdoc. cbn. rewrite <- !app_assoc. auto.
Qed.

Lemma X18_witness :
  let w := mkWorld [("/repo/ci_test.bpmn", "")] ["/repo"] [] in
  let run := mainTasks "/repo" None (fun _ => []) (fun _ => []) (fun _ => [])
               (fun rows => Some rows) (fun _ => "json") (fun _ => "csv")
               (fun _ => "html") (fun p => p) (fun e => e) "done" w in
  exitCode (fst run) = 1%Z /\
  w_files (snd run) = w_files w /\
  w_trace (snd run)
  = w_trace w ++ [EvMkdir (T_OUT_DIR "/repo"); EvRead (T_BPMN_PATH "/repo");
                  EvStderr (T_BPMN_PATH "/repo")].
Proof.
  apply (X18_empty_document_counts_as_missing "/repo" None (fun _ => [])
           (fun _ => []) (fun _ => []) (fun rows => Some rows) (fun _ => "json")
           (fun _ => "csv") (fun _ => "html") (fun p => p) (fun e => e) "done"
           (mkWorld [("/repo/ci_test.bpmn", "")] ["/repo"] []));
    reflexivity.
Defined.

(** X19.  A run of the task-only script that goes through.  With a
    non-empty document whose tasks are extracted, no file in the way of
    [reports/coverage] and no directory in the way of a report, and when
    the sort of the rows does not throw, the run ends with exit code 0 and
    writes the JSON, CSV and HTML texts of one list of rows: the row of
    every task, built from the markers found in the test files and the
    references of the document, in the order the sort gives.  Every other
    file is left as it was. *)
Theorem X19_task_run_writes_three_reports :
  forall (REPO_ROOT : string) (parseXML : option (string -> JsValue))
         (extractTasksByRegex : string -> list Task)
         (extractPlaywrightRefsById : string -> JsMap.t (list string))
         (testFilesOf : JsMap.t string -> list (string * string))
         (sortRows : list TaskRow -> option (list TaskRow))
         (tasksJSON tasksCSV tasksHTML : list TaskRow -> string)
         (missingMsg failMsg : string -> string) (doneMsg : string)
         (w : World) (xml : string) (tasks : list Task)
         (rows : list TaskRow),
    JsMap.get (pathJoin REPO_ROOT "reports") (w_files w) = None ->
    JsMap.get (T_OUT_DIR REPO_ROOT) (w_files w) = None ->
    (forall p, In p (taskReportPaths REPO_ROOT) -> isDir w p = false) ->
    JsMap.get (T_BPMN_PATH REPO_ROOT) (w_files w) = Some xml ->
    nonEmpty xml = true ->
    match parseXML with
    | Some parse => walk (parse xml) = Some tasks
    | None => extractTasksByRegex xml = tasks
    end ->
    let ids := List.map t_id tasks in
    let markers :=
      List.fold_left
        (fun markers f => List.fold_left (markFile (fst f) (snd f)) ids markers)
        (testFilesOf (w_files w)) (emptyMarkers ids) in
    sortRows (List.map (taskRow markers (extractPlaywrightRefsById xml)) tasks)
    = Some rows ->
    let run := mainTasks REPO_ROOT parseXML extractTasksByRegex
                 extractPlaywrightRefsById testFilesOf sortRows
                 tasksJSON tasksCSV tasksHTML missingMsg failMsg doneMsg w in
    fst run = Done tt /\
    JsMap.get (T_OUT_JSON REPO_ROOT) (w_files (snd run))
    = Some (tasksJSON rows) /\
    JsMap.get (T_OUT_CSV REPO_ROOT) (w_files (snd run))
    = Some (tasksCSV rows) /\
    JsMap.get (T_OUT_HTML REPO_ROOT) (w_files (snd run))
    = Some (tasksHTML rows) /\
    (forall p, ~ In p (taskReportPaths REPO_ROOT) ->
       JsMap.get p (w_files (snd run)) = JsMap.get p (w_files w)).
Proof.
  intros REPO_ROOT parseXML extractTasksByRegex extractPlaywrightRefsById
    testFilesOf sortRows tasksJSON tasksCSV tasksHTML missingMsg failMsg
    doneMsg w xml tasks rows Hrep Hout _ Hdoc Hne Htasks ids markers Hsort
    run.
  destruct (mainTasks_run REPO_ROOT parseXML extractTasksByRegex
              extractPlaywrightRefsById testFilesOf sortRows tasksJSON
              tasksCSV tasksHTML missingMsg failMsg doneMsg w xml tasks rows
              Hrep Hout Hdoc Hne Htasks Hsort) as [w' [E F]].
  subst run. rewrite E. cbn [fst snd]. rewrite F.
  pose proof (taskReportPaths_NoDup REPO_ROOT) as N.
  split; [reflexivity|].
  repeat split.
  - apply get_writes_in; [exact N | cbn [In]; auto].
  - apply get_writes_in; [exact N | cbn [In]; auto].
  - apply get_writes_in; [exact N | cbn [In]; auto].
  - intros p I. now apply get_writes_other.
Qed.

Lemma X19_witness :
  let doc := JArr [JObj [("bpmn:userTask", JArr []);
                         (":@", JObj [("id", JStr "Pay")])];
                   JObj [("bpmn:task", JArr []);
                         (":@", JObj [("id", JStr "Ship")])]] in
  let w := mkWorld [("/repo/ci_test.bpmn", "<xml/>")] ["/repo"] [] in
  let run := mainTasks "/repo" (Some (fun _ => doc)) (fun _ => [])
               (fun _ => [])
               (fun _ => [("tests/ship.spec.ts", "test('x [bpmn:Ship]')")])
               (fun rows => Some rows)
               (fun rows => join ","
                              (List.map (fun r => if tr_hasTests r then "yes" else "no")
                                 rows))
               (fun _ => "csv") (fun _ => "html")
               (fun p => p) (fun e => e) "done" w in
  fst run = Done tt /\
  JsMap.get "/repo/reports/coverage/bpmn-test-report.json" (w_files (snd run))
  = Some "no,yes".
Proof.
  intros doc w run.
  edestruct (X19_task_run_writes_three_reports "/repo" (Some (fun _ => doc))
              (fun _ => []) (fun _ => [])
              (fun _ => [("tests/ship.spec.ts", "test('x [bpmn:Ship]')")])
              (fun rows => Some rows)
              (fun rows => join ","
                             (List.map (fun r => if tr_hasTests r then "yes" else "no")
                                rows))
              (fun _ => "csv") (fun _ => "html")
              (fun p => p) (fun e => e) "done" w "<xml/>"
              [mkTask (JStr "Pay") (JStr "") "bpmn:userTask";
               mkTask (JStr "Ship") (JStr "") "bpmn:task"])
    as [D [J _]]; try reflexivity.
  - intros p I. cbn in I.
    repeat (destruct I as [<-|I]; [reflexivity|]). destruct I.
  - split; [exact D | exact J].
Defined.

(** X20.  The markers of the task-only script.  The scan of the test files
    ends with a value and changes no file.  In its value an identifier that
    is not among the tasks has no entry; an identifier among them has the
    test files whose text holds its marker, in the order of the files, each
    file once for every time the identifier stands among the tasks.  So with
    identifiers that are all different every file is there once. *)
Theorem X20_markers_of_test_files :
  forall (testFilesOf : JsMap.t string -> list (string * string))
         (ids : list JsValue) (w : World),
  exists markers,
    fst (scanTestMarkers testFilesOf ids w) = Done markers /\
    w_files (snd (scanTestMarkers testFilesOf ids w)) = w_files w /\
    (forall id,
        markersGet id markers
        = if List.existsb (fun x => sameValue x id) ids
          then Some (List.flat_map
                       (fun f =>
                          if includes (snd f) (marker (toText id))
                          then List.repeat (fst f)
                                 (List.length
                                    (List.filter (fun x => sameValue x id) ids))
                          else [])
                       (testFilesOf (w_files w)))
          else None) /\
    (NoDup ids ->
     forall id, In id ids ->
       markersGet id markers
       = Some (filesWithMarker (testFilesOf (w_files w)) id)).
Proof.
  intros testFilesOf ids w. rewrite scanTestMarkers_run. cbn [fst snd w_files].
  match goal with
  | |- exists m, Done ?v = Done m /\ _ => exists v
  end.
  split; [reflexivity|]. split; [reflexivity|].
  pose proof (markers_of_files ids (testFilesOf (w_files w))) as G.
  split; [exact G|].
  intros N id I. rewrite G.
  assert (List.existsb (fun x => sameValue x id) ids = true) as X.
  { apply existsb_exists. exists id. split; [exact I | apply sameValue_refl]. }
  rewrite X, (filter_one_of_NoDup id ids N I). f_equal.
  unfold filesWithMarker. cbn [List.length List.repeat]. clear G.
  induction (testFilesOf (w_files w)) as [|f files IH]; [reflexivity|].
  cbn [List.flat_map List.filter]. rewrite IH.
  now destruct (includes (snd f) (marker (toText id))).
Qed.

Lemma X20_witness :
  exists markers,
    fst (scanTestMarkers
           (fun _ => [("tests/a.spec.ts", "x [bpmn:Pay]");
                      ("tests/b.spec.ts", "y [bpmn:Ship]");
                      ("tests/c.spec.ts", "z [bpmn:Pay]")])
           [JStr "Pay"; JStr "Ship"] (mkWorld [] [] []))
    = Done markers /\
    markersGet (JStr "Pay") markers
    = Some ["tests/a.spec.ts"; "tests/c.spec.ts"].
Proof.
  destruct (X20_markers_of_test_files
              (fun _ => [("tests/a.spec.ts", "x [bpmn:Pay]");
                         ("tests/b.spec.ts", "y [bpmn:Ship]");
                         ("tests/c.spec.ts", "z [bpmn:Pay]")])
              [JStr "Pay"; JStr "Ship"] (mkWorld [] [] []))
    as [markers [D [_ [_ U]]]].
  exists markers. split; [exact D|].
  apply (U ltac:(repeat constructor; cbn [In]; intuition discriminate)
           (JStr "Pay") (or_introl eq_refl)).
Defined.

(** X21.  The summary of the task-only script.  The covered and the
    uncovered rows make up the total, the uncovered rows are those without
    tests, and the three numbers do not depend on the order of the rows (so
    not on the sort). *)
Theorem X21_summary_counts :
  forall rows : list TaskRow,
    let '(total, covered, uncovered) := summary rows in
    (covered + uncovered = total)%Z /\
    (0 <= covered <= total)%Z /\
    uncovered
    = Z.of_nat
        (List.length (List.filter (fun r => negb (tr_hasTests r)) rows)) /\
    (forall rows', Permutation rows rows' -> summary rows' = summary rows).
Proof.
  intros rows. unfold summary.
  assert (forall l : list TaskRow,
             List.length (List.filter tr_hasTests l)
             + List.length (List.filter (fun r => negb (tr_hasTests r)) l)
             = List.length l) as P.
  { induction l as [|r l IH]; [reflexivity|]. cbn [List.filter List.length].
    destruct (tr_hasTests r); cbn [negb List.length]; lia. }
  specialize (P rows) as Pr.
  repeat split; try lia.
  intros rows' Pm.
  assert (List.length (List.filter tr_hasTests rows')
          = List.length (List.filter tr_hasTests rows)) as C.
  { symmetry. apply Permutation_length.
    clear P Pr. induction Pm as [|x l l' _ IH|x y l|l l' l'' _ IH1 _ IH2].
    - constructor.
    - cbn [List.filter]. destruct (tr_hasTests x); [now constructor | exact IH].
    - cbn [List.filter]. destruct (tr_hasTests x), (tr_hasTests y);
        try apply Permutation_refl. constructor.
    - now transitivity (List.filter tr_hasTests l'). }
  rewrite C, (Permutation_length Pm). reflexivity.
Qed.

Lemma X21_witness :
  summary [mkTaskRow (JStr "B") (JStr "") "bpmn:task" false [] [];
           mkTaskRow (JStr "A") (JStr "") "bpmn:task" true ["a.spec.ts"] []]
  = summary [mkTaskRow (JStr "A") (JStr "") "bpmn:task" true ["a.spec.ts"] [];
             mkTaskRow (JStr "B") (JStr "") "bpmn:task" false [] []].
Proof.
  pose proof (X21_summary_counts
                [mkTaskRow (JStr "A") (JStr "") "bpmn:task" true
                   ["a.spec.ts"] [];
                 mkTaskRow (JStr "B") (JStr "") "bpmn:task" false [] []])
    as H.
  cbn [summary] in H. destruct H as [_ [_ [_ P]]].
  apply P. apply perm_swap.
Defined.

(** ** The CSV texts *)

Section CsvFacts.

Lemma parse_quoted_body f : forall field row rows rest,
  parseCsv Quoted field row rows (doubleQuotes f ++ String DQ rest)
  = parseCsv QuoteSeen (field ++ f) row rows rest.
Proof.
  induction f as [|a f IH]; intros field row rows rest.
  - cbn. now rewrite append_nil_r.
  - cbn [doubleQuotes]. destruct (Ascii.eqb a DQ) eqn:E.
    + apply Ascii.eqb_eq in E. subst a.
      cbn [String.append parseCsv]. cbn [Ascii.eqb Bool.eqb DQ].
      cbn [parseCsv]. cbn [Ascii.eqb Bool.eqb DQ].
      rewrite IH, append_assoc. reflexivity.
    + cbn [String.append parseCsv]. rewrite E.
      rewrite IH, append_assoc. reflexivity.
Qed.

Lemma parse_esc f fld row rows rest :
  parseCsv AtStart fld row rows (esc f ++ rest)
  = parseCsv QuoteSeen f row rows rest.
Proof.
  unfold esc. cbn [String.append parseCsv].
  change (Ascii.eqb DQ DQ) with true. cbn iota.
  rewrite append_assoc. cbn [String.append].
  now rewrite parse_quoted_body.
Qed.

(** A line of quoted cells is read back cell by cell; the last cell is
    closed by what follows the line. *)
Lemma parse_line l : forall x fld row rows rest,
  parseCsv AtStart fld row rows
    (join "," (List.map esc (x :: l)) ++ rest)
  = parseCsv QuoteSeen (List.last (x :: l) "")
      (row ++ List.removelast (x :: l)) rows rest.
Proof.
  induction l as [|y l IH]; intros x fld row rows rest.
  - cbn [List.map join List.last List.removelast].
    now rewrite parse_esc, app_nil_r.
  - change (join "," (List.map esc (x :: y :: l)))
      with (esc x ++ "," ++ join "," (List.map esc (y :: l)))%string.
    rewrite append_assoc, parse_esc.
    change (("," ++ join "," (List.map esc (y :: l))) ++ rest)%string
      with (String ","%char (join "," (List.map esc (y :: l)) ++ rest)).
    cbn [parseCsv]. change (Ascii.eqb ","%char DQ) with false.
    change (Ascii.eqb ","%char ","%char) with true. cbn iota.
    rewrite IH, <- app_assoc. reflexivity.
Qed.

Lemma parse_lines lines : forall first fld rows,
  first <> [] -> Forall (fun l => l <> []) lines ->
  parseCsv AtStart fld [] rows
    (join LFs
       (List.map (fun cs => join "," (List.map esc cs)) (first :: lines)))
  = Some (rows ++ first :: lines).
Proof.
  induction lines as [|l2 lines IH]; intros first fld rows N F.
  - destruct first as [|x l]; [contradiction|].
    change (join LFs
              (List.map (fun cs => join "," (List.map esc cs)) [x :: l]))
      with (join "," (List.map esc (x :: l))).
    rewrite <- (append_nil_r (join "," (List.map esc (x :: l)))).
    rewrite parse_line. cbn [parseCsv app].
    now rewrite <- app_removelast_last by discriminate.
  - destruct first as [|x l]; [contradiction|].
    inversion F as [|? ? N2 F2]. subst.
    change (join LFs
              (List.map (fun cs => join "," (List.map esc cs))
                 ((x :: l) :: l2 :: lines)))
      with (join "," (List.map esc (x :: l))
            ++ String LF
                 (join LFs
                    (List.map (fun cs => join "," (List.map esc cs))
                       (l2 :: lines))))%string.
    rewrite parse_line. cbn [parseCsv app].
    change (Ascii.eqb LF DQ) with false.
    change (Ascii.eqb LF ","%char) with false.
    change (Ascii.eqb LF LF) with true. cbn iota.
    rewrite (IH l2 _ _ N2 F2), <- app_assoc.
    now rewrite <- app_removelast_last by discriminate.
Qed.

End CsvFacts.

(** X22.  The CSV text can be read back.  A reader of quoted fields gets
    from the CSV text the head line and, row after row, the ten cells as
    they were: commas, line feeds and quotes inside a value stay inside its
    cell.  So two tables with the same CSV text have the same cells. *)
Theorem X22_csv_round_trip :
  (forall rows : list Row,
      decodeCsv (toCSV rows) = Some (header :: List.map cells rows)) /\
  (forall rows rows' : list Row,
      toCSV rows = toCSV rows' ->
      List.map cells rows = List.map cells rows').
Proof.
  assert (forall rows : list Row,
             decodeCsv (toCSV rows) = Some (header :: List.map cells rows)) as R.
  { intros rows. unfold decodeCsv, toCSV.
    assert (List.map (fun r => join "," (List.map esc (cells r))) rows
            = List.map (fun cs => join "," (List.map esc cs))
                (List.map cells rows)) as Q by (now rewrite List.map_map).
    rewrite Q.
    change (join "," (List.map esc header)
            :: List.map (fun cs => join "," (List.map esc cs))
                 (List.map cells rows))
      with (List.map (fun cs => join "," (List.map esc cs))
              (header :: List.map cells rows)).
    rewrite parse_lines; [reflexivity | discriminate |].
    apply Forall_map, Forall_forall. intros r _. discriminate. }
  split; [exact R|].
  intros rows rows' E. pose proof (R rows) as A. rewrite E, R in A.
  inversion A. reflexivity.
Qed.

Lemma X22_witness :
  List.map cells
    [mkRow (JStr "Pay") (JStr "a, b") "task" "" "" "" "" "" "" Missing]
  = List.map cells
      [mkRow (JStr "Pay") (JStr "a, b") "task" "" "" "" "" "" "" Missing].
Proof.
  apply (proj2 X22_csv_round_trip
           [mkRow (JStr "Pay") (JStr "a, b") "task" "" "" "" "" "" "" Missing]
           [mkRow (JStr "Pay") (JStr "a, b") "task" "" "" "" "" "" "" Missing]).
  reflexivity.
Defined.

(** X23.  The CSV text of the task-only script can be read back.  Its head
    line is not quoted and its test files and references are joined by line
    feeds inside one cell each; the reader gets the head line and the six
    cells of every row as they were. *)
Theorem X23_task_csv_round_trip :
  forall rows : list TaskRow,
    decodeCsv (tasksToCSV rows) = Some (taskHead :: List.map taskCells rows).
Proof.
  intros rows. unfold decodeCsv, tasksToCSV. destruct rows as [|r rows].
  - reflexivity.
  - assert (List.map (fun r0 => join "," (List.map esc (taskCells r0)))
              (r :: rows)
            = join "," (List.map esc (taskCells r))
              :: List.map (fun cs => join "," (List.map esc cs))
                   (List.map taskCells rows)) as Q
      by (cbn [List.map]; now rewrite List.map_map).
    rewrite Q.
    change (parseCsv AtStart "" [] []
              (join LFs
                 (join "," taskHead
                  :: join "," (List.map esc (taskCells r))
                  :: List.map (fun cs => join "," (List.map esc cs))
                       (List.map taskCells rows))))
      with (parseCsv AtStart "" [] [taskHead]
              (join LFs
                 (List.map (fun cs => join "," (List.map esc cs))
                    (taskCells r :: List.map taskCells rows)))).
    rewrite parse_lines; [reflexivity | discriminate |].
    apply Forall_map, Forall_forall. intros r0 _. discriminate.
Qed.

(** ** The helper of the tests *)

Lemma withBpmn_textOf id title :
  withBpmn id title = textOf [((title ++ " ")%string, id)] "".
Proof.
  unfold withBpmn. cbn [textOf]. unfold marker, markerOpen, markerClose.
  rewrite !append_assoc, append_nil_r. reflexivity.
Qed.

(** X24.  Titles made by [withBpmn].  The helper puts the marker of the
    identifier after the title and a space, in the form the scan looks for:
    a text that is such a title (the title without a bracket, the
    identifier not empty and without a closing bracket) gives exactly one
    hit, for that identifier, on the line of the end of the title; and the
    made title is one that holds the marker. *)
Theorem X24_withBpmn_titles_are_found :
  forall (id title f : string) (titles : list string),
    lacks bracket title -> nonEmpty id = true -> lacks markerClose id ->
    withBpmn id title = (title ++ " " ++ marker id)%string /\
    scanText f titles (withBpmn id title)
    = [(id, mkHit f (Nat.max 1 (countChar LF title))
              (findTitle titles (marker id)))] /\
    findTitle [withBpmn id title] (marker id) = withBpmn id title.
Proof.
  intros id title f titles Lt Ne Li.
  assert (withBpmn id title = (title ++ " " ++ marker id)%string) as W.
  { rewrite withBpmn_textOf. cbn [textOf].
    now rewrite append_nil_r, append_assoc. }
  split; [exact W|]. split.
  - assert (allMatches (withBpmn id title)
            = [mkMatch (0 + String.length (title ++ " ")) (marker id) id]) as A.
    { rewrite withBpmn_textOf. rewrite allMatches_textOf; [reflexivity | | reflexivity].
      constructor; [|constructor]. split; [|split; assumption].
      cbn [fst]. apply lacks_append. split; [exact Lt | reflexivity]. }
    pose proof (allMatches_line (withBpmn id title)
                  (mkMatch (0 + String.length (title ++ " ")) (marker id) id))
      as L.
    rewrite A in L. specialize (L (or_introl eq_refl)).
    cbn [m_index] in L. unfold newlinesBefore in L. rewrite W in L at 2.
    rewrite <- append_assoc, Nat.add_0_l, take_append, countChar_append in L.
    cbn [countChar] in L. rewrite Nat.add_0_r in L.
    unfold scanText. rewrite A. cbn [List.map]. unfold hitOf.
    cbn [m_id m_all m_index]. rewrite Nat.add_0_l. now rewrite L.
  - unfold findTitle. cbn [List.find].
    assert (includes (withBpmn id title) (marker id) = true) as I.
    { apply includes_iff. exists (title ++ " ")%string, "".
      now rewrite W, append_nil_r, append_assoc. }
    now rewrite I.
Qed.

Lemma X24_witness :
  scanText "tests/income.ts" []
    (withBpmn "Activity_11wac6l" "Valid income (mock)")
  = [("Activity_11wac6l", mkHit "tests/income.ts" 1 "")].
Proof.
  apply (X24_withBpmn_titles_are_found "Activity_11wac6l"
           "Valid income (mock)" "tests/income.ts" []); reflexivity.
Defined.

(** ** The first version of the report script *)

Section FirstVersionFacts.
Import MonadNotation.
Local Open Scope monad_scope.

Lemma cellText_agree v :
  truthy v = true \/ v = JStr "" ->
  CsvV1.cellText v = cellText v.
Proof.
  unfold CsvV1.cellText. intros [T| ->]; [|reflexivity].
  rewrite T. destruct v; try reflexivity; discriminate.
Qed.

Lemma scanFileV1_run ROOT titlesOf acc f w text :
  JsMap.get (pathJoin ROOT f) (w_files w) = Some text ->
  exists w',
    CliV1.scanFile ROOT titlesOf acc f w
    = (Done (List.fold_left pushHit (fileHits ROOT titlesOf (w_files w) f) acc),
       w') /\
    w_files w' = w_files w /\ w_dirs w' = w_dirs w.
Proof.
  intros H. unfold CliV1.scanFile, fileHits, readFileSync, emit. cbn.
  rewrite H. cbn. eauto.
Qed.

Lemma scanFileV1_missing ROOT titlesOf acc f w :
  JsMap.get (pathJoin ROOT f) (w_files w) = None ->
  exists msg w',
    CliV1.scanFile ROOT titlesOf acc f w = (Thrown msg, w') /\
    w_files w' = w_files w.
Proof.
  intros H. unfold CliV1.scanFile, readFileSync, emit. cbn.
  rewrite H. cbn. eauto.
Qed.

Lemma scanFilesV1_groups ROOT titlesOf (files : list string) : forall acc w,
  (forall f, In f files ->
     JsMap.get (pathJoin ROOT f) (w_files w) <> None) ->
  exists w',
    forEachM (CliV1.scanFile ROOT titlesOf) files acc w
    = (Done (List.fold_left pushHit
               (List.flat_map (fileHits ROOT titlesOf (w_files w)) files) acc),
       w') /\
    w_files w' = w_files w /\ w_dirs w' = w_dirs w.
Proof.
  induction files as [|f files IH]; intros acc w H.
  - exists w. cbn. auto.
  - destruct (JsMap.get (pathJoin ROOT f) (w_files w)) as [text|] eqn:G;
      [|exfalso; apply (H f); [now left | exact G]].
    destruct (scanFileV1_run ROOT titlesOf acc f w text G)
      as [w1 [E1 [F1 D1]]].
    destruct (IH (List.fold_left pushHit
                    (fileHits ROOT titlesOf (w_files w) f) acc) w1)
      as [w' [E [F D]]].
    { intros f' I. rewrite F1. apply H. now right. }
    exists w'. cbn [forEachM List.flat_map bind Monad_M].
    rewrite E1, E, F1, fold_left_app. repeat split; congruence.
Qed.

Lemma scanFilesV1_throw ROOT titlesOf (files : list string) : forall acc w f,
  In f files -> JsMap.get (pathJoin ROOT f) (w_files w) = None ->
  exists msg w',
    forEachM (CliV1.scanFile ROOT titlesOf) files acc w = (Thrown msg, w') /\
    w_files w' = w_files w.
Proof.
  induction files as [|f0 files IH]; intros acc w f I G; [destruct I|].
  cbn [forEachM bind Monad_M].
  destruct (JsMap.get (pathJoin ROOT f0) (w_files w)) as [text|] eqn:G0.
  - destruct (scanFileV1_run ROOT titlesOf acc f0 w text G0)
      as [w1 [E1 [F1 D1]]].
    rewrite E1. destruct I as [->|I]; [congruence|].
    destruct (IH (List.fold_left pushHit
                    (fileHits ROOT titlesOf (w_files w) f0) acc) w1 f I)
      as [msg [w' [E F]]]; [now rewrite F1|].
    exists msg, w'. split; [exact E | congruence].
  - destruct (scanFileV1_missing ROOT titlesOf acc f0 w G0)
      as [msg [w' [E F]]].
    rewrite E. eauto.
Qed.

Lemma scanV1_run ROOT globSync titlesOf w :
  (forall f, In f (globSync (w_files w)) ->
     JsMap.get (pathJoin ROOT f) (w_files w) <> None) ->
  exists w',
    CliV1.scanTestsForBpmnTags ROOT globSync titlesOf w
    = (Done (groupHits
               (List.flat_map (fileHits ROOT titlesOf (w_files w))
                  (globSync (w_files w)))), w') /\
    w_files w' = w_files w /\ w_dirs w' = w_dirs w.
Proof.
  intros H. unfold CliV1.scanTestsForBpmnTags, emit. cbn.
  match goal with
  | |- context [forEachM _ _ ?a ?w0] =>
      destruct (scanFilesV1_groups ROOT titlesOf (globSync (w_files w)) a w0)
        as [w' [E [F D]]]
  end.
  - exact H.
  - cbn in E, F, D. exists w'. rewrite E. auto.
Qed.

End FirstVersionFacts.

(** X25.  The two versions of the CSV text.  The first version of [toCSV]
    empties every falsy cell, the second only [null] and [undefined]; they
    differ on a row whose [id] is [false], and they give the same text for
    the rows of every report built from the elements of a document. *)
Theorem X25_csv_versions_agree_on_reports :
  (forall (tree : JsValue) (name : string) (hitsById : HitsById),
      CsvV1.toCSV (rows (buildReport (collectBpmnElements tree name) hitsById))
      = toCSV (rows (buildReport (collectBpmnElements tree name) hitsById))) /\
  CsvV1.toCSV
    [mkRow (JBool false) (JStr "") "task" "" "" "" "" "" "" Missing]
  <> toCSV [mkRow (JBool false) (JStr "") "task" "" "" "" "" "" "" Missing].
Proof.
  split; [|discriminate].
  intros tree name hitsById. unfold CsvV1.toCSV, toCSV. do 2 f_equal.
  unfold buildReport. cbn [rows]. rewrite !List.map_map.
  apply List.map_ext_in. intros el I.
  apply collected_from_node in I as [node [tag [-> H]]].
  unfold CsvV1.cells, cells. cbn [buildRow elementOf r_id r_name el_id el_name].
  rewrite !cellText_agree; [reflexivity | |].
  - unfold or_else.
    destruct (truthy (getProp node "@name")) eqn:T; rewrite ?T; cbn; auto.
  - now left.
Qed.

(** X26.  The scan of the first version.  When every listed test file is
    there, the first version of the scan gives the value the second gives
    and changes no file; when a listed file is missing, the first version
    ends in an exception, where the second passes the file over. *)
Theorem X26_first_scan_needs_every_file :
  forall (ROOT : string) (globSync : JsMap.t string -> list string)
         (titlesOf : string -> list string) (w : World),
    ((forall f, In f (globSync (w_files w)) ->
        JsMap.get (pathJoin ROOT f) (w_files w) <> None) ->
     fst (CliV1.scanTestsForBpmnTags ROOT globSync titlesOf w)
     = fst (scanTestsForBpmnTags ROOT globSync titlesOf w) /\
     w_files (snd (CliV1.scanTestsForBpmnTags ROOT globSync titlesOf w))
     = w_files w) /\
    (forall f, In f (globSync (w_files w)) ->
       JsMap.get (pathJoin ROOT f) (w_files w) = None ->
       exists msg,
         fst (CliV1.scanTestsForBpmnTags ROOT globSync titlesOf w)
         = Thrown msg).
Proof.
  intros ROOT globSync titlesOf w. split.
  - intros H.
    destruct (scanV1_run ROOT globSync titlesOf w H) as [w1 [E1 [F1 _]]].
    destruct (scan_run ROOT globSync titlesOf w) as [w2 [E2 _]].
    { intros f I G. exfalso. now apply (H f). }
    rewrite E1, E2. cbn [fst snd]. auto.
  - intros f I G. unfold CliV1.scanTestsForBpmnTags, emit. cbn.
    match goal with
    | |- context [forEachM _ _ ?a ?w0] =>
        destruct (scanFilesV1_throw ROOT titlesOf (globSync (w_files w)) a w0
                    f I G) as [msg [w' [E _]]]
    end.
    cbn in E. rewrite E. now exists msg.
Qed.

Lemma X26_witness :
  exists msg,
    fst (CliV1.scanTestsForBpmnTags "/repo"
           (fun _ => ["tests/gone.spec.ts"; "tests/a.spec.ts"]) (fun _ => [])
           (mkWorld [("/repo/tests/a.spec.ts", "x [bpmn:Pay]")] [] []))
    = Thrown msg.
Proof.
  apply (proj2 (X26_first_scan_needs_every_file "/repo"
                  (fun _ => ["tests/gone.spec.ts"; "tests/a.spec.ts"])
                  (fun _ => [])
                  (mkWorld [("/repo/tests/a.spec.ts", "x [bpmn:Pay]")] [] []))
           "tests/gone.spec.ts").
  - left. reflexivity.
  - reflexivity.
Defined.

(** X27.  A run of the first version that goes through.  With the document
    in place and parsed, every listed test file there and no directory in
    the way of a report, the first version
    ends with exit code 0 and writes three files to the directory of the
    run: the CSV, HTML and JSON texts of the report built from the elements
    of the document and the grouping of the hits of the test files.  It
    makes no directory and changes no other file. *)
Theorem X27_first_version_writes_three_files :
  forall (ROOT : string) (parse : string -> option JsValue)
         (globSync : JsMap.t string -> list string)
         (titlesOf : string -> list string)
         (toCSV : list Row -> string)
         (toHTML : list Row -> list Orphan -> string)
         (toJSON : ReportData -> string)
         (missingMsg : string -> string) (doneMsg : string) (w : World)
         (xml : string) (dom : JsValue),
    JsMap.get (BPMN_PATH ROOT) (w_files w) = Some xml ->
    parse xml = Some dom ->
    (forall p, In p [OUT_ROOT_CSV ROOT; OUT_ROOT_HTML ROOT;
                     OUT_ROOT_JSON ROOT] -> isDir w p = false) ->
    (forall f, In f (globSync (w_files w)) ->
       JsMap.get (pathJoin ROOT f) (w_files w) <> None) ->
    let report :=
      buildReport
        (collectBpmnElements
           (or_else (getProp dom "bpmn:definitions")
              (or_else (getProp dom "definitions") dom)) "")
        (groupHits
           (List.flat_map (fileHits ROOT titlesOf (w_files w))
              (globSync (w_files w)))) in
    let run := CliV1.main ROOT parse globSync titlesOf toCSV toHTML toJSON
                 missingMsg doneMsg w in
    fst run = Done tt /\
    JsMap.get (OUT_ROOT_CSV ROOT) (w_files (snd run))
    = Some (toCSV (rows report)) /\
    JsMap.get (OUT_ROOT_HTML ROOT) (w_files (snd run))
    = Some (toHTML (rows report) (orphans report)) /\
    JsMap.get (OUT_ROOT_JSON ROOT) (w_files (snd run))
    = Some (toJSON report) /\
    w_dirs (snd run) = w_dirs w /\
    (forall p, ~ In p [OUT_ROOT_CSV ROOT; OUT_ROOT_HTML ROOT;
                       OUT_ROOT_JSON ROOT] ->
       JsMap.get p (w_files (snd run)) = JsMap.get p (w_files w)).
Proof.
  intros ROOT parse globSync titlesOf toCSV toHTML toJSON missingMsg doneMsg
    w xml dom Hdoc Hparse _ Hscan report run.
  assert (exists w',
             run = (Done tt, w') /\
             w_files w'
             = List.fold_left (fun m e => JsMap.set (fst e) (snd e) m)
                 [(OUT_ROOT_CSV ROOT, toCSV (rows report));
                  (OUT_ROOT_HTML ROOT, toHTML (rows report) (orphans report));
                  (OUT_ROOT_JSON ROOT, toJSON report)]
                 (w_files w) /\
             w_dirs w' = w_dirs w) as [w' [E [F D]]].
  { subst run. unfold CliV1.main.
    run_step (existsSync_file _ w _ Hdoc). cbn [negb].
    run_step (ret_run tt
                (mkWorld (w_files w) (w_dirs w)
                   (w_trace w ++ [EvExists (BPMN_PATH ROOT)]))).
    pose proof (loadBpmn_run parse (BPMN_PATH ROOT)
                  (mkWorld (w_files w) (w_dirs w)
                     (w_trace w ++ [EvExists (BPMN_PATH ROOT)])) xml Hdoc) as L.
    rewrite Hparse in L.
    change (loadBpmn parse (BPMN_PATH ROOT))
      with (CliV1.loadBpmn parse (BPMN_PATH ROOT)) in L.
    run_step L. clear L.
    match goal with
    | |- context [bind (CliV1.scanTestsForBpmnTags _ _ _) _ ?w0] =>
        destruct (scanV1_run ROOT globSync titlesOf w0 Hscan)
          as [w3 [E3 [F3 D3]]]
    end.
    cbn [w_files w_dirs] in E3, F3, D3. run_step E3. fold report.
    do 3 match goal with
         | |- context [bind (writeFileSync ?p ?c) _ ?w0] =>
             run_step (writeFileSync_run p c w0)
         end.
    unfold consoleLog, emit. eexists. split; [reflexivity|].
    cbn [w_files w_dirs List.fold_left fst snd]. rewrite F3, D3. auto. }
  rewrite E. cbn [fst snd]. rewrite F.
  assert (NoDup [OUT_ROOT_CSV ROOT; OUT_ROOT_HTML ROOT; OUT_ROOT_JSON ROOT])
    as N.
  { pose proof (reportPaths_NoDup ROOT) as N. unfold reportPaths in N.
    change (NoDup ([OUT_ROOT_CSV ROOT; OUT_ROOT_HTML ROOT; OUT_ROOT_JSON ROOT]
                   ++ [OUT_CSV ROOT; OUT_HTML ROOT; OUT_JSON ROOT])) in N.
    now apply NoDup_app_remove_r in N. }
  split; [reflexivity|].
  repeat split.
  - apply get_writes_in; [exact N | cbn [In]; auto].
  - apply get_writes_in; [exact N | cbn [In]; auto].
  - apply get_writes_in; [exact N | cbn [In]; auto].
  - exact D.
  - intros p I. now apply get_writes_other.
Qed.

Lemma X27_witness :
  let doc := JObj [("bpmn:definitions",
                    JObj [("bpmn:task", JObj [("@id", JStr "Pay")])])] in
  let w := mkWorld [("/repo/ci_test.bpmn", "<bpmn:definitions/>");
                    ("/repo/tests/a.spec.ts", "test('pays [bpmn:Pay]')")]
             ["/repo"; "/repo/tests"] [] in
  let run := CliV1.main "/repo" (fun _ => Some doc)
               (fun _ => ["tests/a.spec.ts"]) (fun _ => [])
               (fun rows => join "," (List.map r_coverage rows))
               (fun _ _ => "html") (fun _ => "json")
               (fun p => p) "done" w in
  fst run = Done tt /\
  JsMap.get "/repo/bpmn-test-report.csv" (w_files (snd run)) = Some "Covered".
Proof.
  intros doc w run.
  destruct (X27_first_version_writes_three_files "/repo" (fun _ => Some doc)
              (fun _ => ["tests/a.spec.ts"]) (fun _ => [])
              (fun rows => join "," (List.map r_coverage rows))
              (fun _ _ => "html") (fun _ => "json") (fun p => p) "done" w
              "<bpmn:definitions/>" doc)
    as [D [C _]]; try reflexivity.
  - intros p I. cbn in I.
    repeat (destruct I as [<-|I]; [reflexivity|]). destruct I.
  - intros f [<-|[]]. discriminate.
  - split; [exact D | exact C].
Defined.
